(** * Feedback route of the admissions assistant: store resolution,
      tab provisioning and append

    A shallow embedding of the feedback route (the module that exports
    [POST], together with [getSheetsClient], [ensureSpreadsheetId] and
    [ensureSheetTab]) and the properties of it that the specification
    states.

    - JavaScript strings are [string]s, one character per code unit
      (code units below 256).
    - The request payload is a JSON value ([Json]); [undefined] is
      [None : option Json].
    - The module-level variables [credentials], [cachedSpreadsheetId] and
      [sheetsClientPromise] form the record [Proc].
    - The Sheets service, the file system, the clock and the console are
      the environment: an instance of [Service] over a type of worlds.
      Every call made to them, with the reply received, and every
      assignment to a module-level variable, is an event of the run.
    - An [async] function is a state transformer that ends in
      [Returned v] or [Thrown e]; an [await] of a rejected promise throws.
      Requests are run one at a time.
    - [Date], [JSON.parse] and [JSON.stringify] are parameters
      ([JsRuntime]); building the client handle from credentials is taken
      to succeed.

    The chat route ([POST], [extractTextFromResponse] and
    [extractCitationsFromResponse]) and the rendering helpers of the chat
    page ([renderMessageContent], [formatInlineText]) are embedded too,
    in the modules [Chat] and [Page]; there a string is the sequence of
    its UTF-16 code units.

    The definitions come first: the feedback route, then the notions the
    specification uses to speak of it, a reference environment and
    sample inputs, then the chat route and the page helpers.  The
    properties follow, in the same order. *)

From Stdlib Require Import String Ascii List Bool Arith Lia DecimalString DecimalNat.
From stdpp Require Import base option list strings gmap.
Import ListNotations.

Set Warnings "-register-all".
Local Open Scope string_scope.
Local Open Scope list_scope.

(** ** Strings *)

(** The double-quote character, as a one-character string. *)
Definition dq : string := String (ascii_of_nat 34) EmptyString.

(** White space and line terminators removed by [String.prototype.trim],
    among the code units below 256: TAB, LF, VT, FF, CR, SP, NBSP. *)
Definition is_js_space (c : ascii) : bool :=
  let n := nat_of_ascii c in
  ((9 <=? n)%nat && (n <=? 13)%nat) || (n =? 32)%nat || (n =? 160)%nat.

Fixpoint trimStart (s : string) : string :=
  match s with
  | EmptyString => EmptyString
  | String c r => if is_js_space c then trimStart r else s
  end.

Fixpoint trimEnd (s : string) : string :=
  match s with
  | EmptyString => EmptyString
  | String c r =>
      match trimEnd r with
      | EmptyString => if is_js_space c then EmptyString else String c EmptyString
      | r' => String c r'
      end
  end.

(** [s.trim()] *)
Definition trim (s : string) : string := trimEnd (trimStart s).

(** A string is truthy when it is not empty. *)
Definition nonempty (s : string) : bool :=
  match s with EmptyString => false | _ => true end.

(** [items.join(sep)] on strings. *)
Fixpoint join (sep : string) (items : list string) : string :=
  match items with
  | [] => ""
  | [x] => x
  | x :: rest => x ++ sep ++ join sep rest
  end.

(** ** Outcomes *)

(** A thrown value, seen through [err?.message]; a value without a message
    has the empty one ([err?.message || d] treats both alike). *)
Record Exn : Type := mkExn { message : string }.

Inductive Outcome (A : Type) : Type :=
| Returned (a : A)
| Thrown (e : Exn).
Arguments Returned {A} a.
Arguments Thrown {A} e.

Definition is_returned {A} (o : Outcome A) : bool :=
  match o with Returned _ => true | Thrown _ => false end.

(** ** JSON values *)

(** A parsed JSON value.  The route observes two things of a number:
    whether it is zero (truthiness) and the text that
    [Number.prototype.toString] gives it; a number is kept as that pair.
    An object is the list of its own properties. *)
Inductive Json : Type :=
| JNull
| JBool (b : bool)
| JNumber (is_zero : bool) (rendering : string)
| JString (s : string)
| JArray (items : list Json)
| JObject (fields : list (string * Json)).

(** Truthiness of a value: [null], [false], [0] and [""] are falsy. *)
Definition truthy (j : Json) : bool :=
  match j with
  | JNull => false
  | JBool b => b
  | JNumber z _ => negb z
  | JString s => nonempty s
  | JArray _ => true
  | JObject _ => true
  end.

Fixpoint assoc (name : string) (fields : list (string * Json)) : option Json :=
  match fields with
  | [] => None
  | (k, v) :: rest => if String.eqb k name then Some v else assoc name rest
  end.

(** The renderings of the items of an array, in order, or the first
    error. *)
Fixpoint sequence (items : list (Outcome string)) : Outcome (list string) :=
  match items with
  | [] => Returned []
  | Thrown e :: _ => Thrown e
  | Returned x :: rest =>
      match sequence rest with
      | Returned l => Returned (x :: l)
      | Thrown e => Thrown e
      end
  end.

(** The [TypeError] of converting an object whose own [toString] is not
    a function (no JSON value is one); the engine's wording of the
    message is not modelled. *)
Definition NOT_A_FUNCTION : Exn := mkExn "toString is not a function".

(** [v.toString()].  An array joins the renderings of its items with
    commas, [null] items rendering as the empty string; a plain object is
    ["[object Object]"], unless it has a property [toString] of its own,
    which makes the conversion throw.  [null] has no [toString]; the
    route never calls it there ([null || ""] is [""]), and the empty
    string stands for it. *)
Fixpoint toString (j : Json) : Outcome string :=
  match j with
  | JNull => Returned ""
  | JBool true => Returned "true"
  | JBool false => Returned "false"
  | JNumber _ text => Returned text
  | JString s => Returned s
  | JArray items =>
      match sequence (List.map toString items) with
      | Returned l => Returned (join "," l)
      | Thrown e => Thrown e
      end
  | JObject fields =>
      match assoc "toString" fields with
      | Some _ => Thrown NOT_A_FUNCTION
      | None => Returned "[object Object]"
      end
  end.

(** [Array.isArray(v)] for a possibly undefined [v]. *)
Definition isArray (v : option Json) : bool :=
  match v with
  | Some (JArray _) => true
  | _ => false
  end.

(** [a || b] on possibly undefined values. *)
Definition js_or (a b : option Json) : option Json :=
  match a with
  | Some j => if truthy j then a else b
  | None => b
  end.

(** [(v || "").toString()] *)
Definition or_empty_toString (v : option Json) : Outcome string :=
  match js_or v (Some (JString "")) with
  | Some j => toString j
  | None => Returned ""
  end.

(** [payload.name]: reading a property of [null] throws a [TypeError]; a
    boolean, number, string or array has none of the properties the route
    reads. *)
Definition prop (payload : Json) (name : string) : Outcome (option Json) :=
  match payload with
  | JNull =>
      Thrown (mkExn ("Cannot read properties of null (reading '" ++ name ++ "')"))
  | JObject fields => Returned (assoc name fields)
  | _ => Returned None
  end.

(** ** The JavaScript runtime *)

(** Built-ins the route calls and that are not part of the repository:
    [Date] parsing and formatting, [JSON.parse] (which may throw) and
    [JSON.stringify].  [Date_parse s = None] is an invalid date.
    [toISOString_parses] is the language's guarantee that the ISO format
    reads back as the same instant. *)
Class JsRuntime : Type := {
  Instant : Type;
  Date_parse : string -> option Instant;
  toISOString : Instant -> string;
  JSON_parse : string -> Outcome Json;
  JSON_stringify : Json -> string;
  toISOString_parses : forall t, Date_parse (toISOString t) = Some t
}.

(** ** The environment *)

(** What [spreadsheets.get] resolves to, as far as the route reads it:
    [details.data.sheets] (possibly undefined) and, of each sheet,
    [sheet.properties?.title] (possibly undefined). *)
Record Sheet : Type := mkSheet { properties_title : option string }.
Record Spreadsheet : Type := mkSpreadsheet { data_sheets : option (list Sheet) }.

(** The environment over a type [W] of worlds: each call takes the world
    and gives the reply (a resolved or a rejected promise) and the next
    world.  [svc_create] resolves to [created.data.spreadsheetId], which
    may be undefined. *)
Class Service `{JsRuntime} (W : Type) : Type := {
  svc_get : W -> string -> option bool -> Outcome Spreadsheet * W;
  svc_create : W -> string -> string -> nat -> Outcome (option string) * W;
  svc_values_update : W -> string -> string -> list (list string) -> Outcome unit * W;
  svc_add_sheet : W -> string -> string -> nat -> Outcome unit * W;
  svc_values_append : W -> string -> string -> list (list string) -> Outcome unit * W;
  svc_readFile : W -> string -> Outcome string * W;
  svc_writeFile : W -> string -> string -> Outcome unit * W;
  svc_now : W -> Instant * W
}.

(** The handle built by [google.sheets({ version: "v4", auth })]. *)
Record SheetsClient : Type := mkClient {
  auth_credentials : option Json;
  auth_scopes : list string
}.

(** The module-level variables of the route. *)
Record Proc : Type := mkProc {
  credentials : option Json;
  cachedSpreadsheetId : string;
  sheetsClientPromise : option SheetsClient
}.

(** The module variables once the memoized identifier is cleared. *)
Definition cleared (p : Proc) : Proc :=
  mkProc (credentials p) "" (sheetsClientPromise p).

(** What is read of [process] when the module is loaded. *)
Record ProcessEnv : Type := mkProcessEnv {
  GOOGLE_SHEETS_TAB_NAME : option string;
  GOOGLE_SHEETS_CREDENTIALS : option string;
  GOOGLE_SHEETS_SPREADSHEET_ID : option string;
  cwd : string
}.

(** [process.env.X || d] *)
Definition env_or (x : option string) (d : string) : string :=
  match x with
  | Some s => if nonempty s then s else d
  | None => d
  end.

(** The trace: calls to the environment with their replies (the
    [valueInputOption] of the three value calls is always
    ["USER_ENTERED"] and is left out), console output, and assignments to
    the module-level variables. *)
Inductive Event `{JsRuntime} : Type :=
| EvGet (spreadsheetId : string) (includeGridData : option bool) (r : Outcome Spreadsheet)
| EvCreate (title tab : string) (frozenRowCount : nat) (r : Outcome (option string))
| EvValuesUpdate (spreadsheetId range : string) (values : list (list string)) (r : Outcome unit)
| EvAddSheet (spreadsheetId tab : string) (frozenRowCount : nat) (r : Outcome unit)
| EvValuesAppend (spreadsheetId range : string) (values : list (list string)) (r : Outcome unit)
| EvReadFile (path : string) (r : Outcome string)
| EvWriteFile (path data : string) (r : Outcome unit)
| EvNow (t : Instant)
| EvConsoleWarn (args : list string)
| EvConsoleError (args : list string)
| EvSetCached (v : string)
| EvSetClient (c : SheetsClient).

(** A call that leaves the process: the Sheets service or the file
    system. *)
Definition is_external `{JsRuntime} (e : Event) : bool :=
  match e with
  | EvGet _ _ _ | EvCreate _ _ _ _ | EvValuesUpdate _ _ _ _ | EvAddSheet _ _ _ _
  | EvValuesAppend _ _ _ _ | EvReadFile _ _ | EvWriteFile _ _ _ => true
  | _ => false
  end.

(** Anything that changes something: an external call or an assignment
    to a module-level variable. *)
Definition is_side_effect `{JsRuntime} (e : Event) : bool :=
  match e with
  | EvSetCached _ | EvSetClient _ => true
  | _ => is_external e
  end.

Definition is_create `{JsRuntime} (e : Event) : bool :=
  match e with EvCreate _ _ _ _ => true | _ => false end.

Definition is_add_sheet `{JsRuntime} (e : Event) : bool :=
  match e with EvAddSheet _ _ _ _ => true | _ => false end.

Definition is_values_update `{JsRuntime} (e : Event) : bool :=
  match e with EvValuesUpdate _ _ _ _ => true | _ => false end.

Definition is_append `{JsRuntime} (e : Event) : bool :=
  match e with EvValuesAppend _ _ _ _ => true | _ => false end.

Definition is_writeFile `{JsRuntime} (e : Event) : bool :=
  match e with EvWriteFile _ _ _ => true | _ => false end.

Definition is_now `{JsRuntime} (e : Event) : bool :=
  match e with EvNow _ => true | _ => false end.

(** ** The monad of the route *)

Section Route.
Context `{rt : JsRuntime} {W : Type} `{svc : !Service W}.

(** The state threaded through a request: module variables and world. *)
Record St : Type := mkSt {
  proc : Proc;
  world : W
}.

(** A run: how it ended, the state it left, and the events it added to
    the trace (oldest first). *)
Record Run (A : Type) : Type := mkRun {
  outcome : Outcome A;
  final : St;
  events : list Event
}.
Arguments mkRun {A} _ _ _.
Arguments outcome {A} _.
Arguments final {A} _.
Arguments events {A} _.

Definition M (A : Type) : Type := St -> Run A.

Definition ret {A} (a : A) : M A := fun s => mkRun (Returned a) s [].

Definition throw {A} (e : Exn) : M A := fun s => mkRun (Thrown e) s [].

(** The run [r] with the events [evs] before its own. *)
Definition prepend {A} (evs : list Event) (r : Run A) : Run A :=
  match r with
  | mkRun o s evs' => mkRun o s (evs ++ evs')
  end.

Definition bind {A B} (m : M A) (k : A -> M B) : M B :=
  fun s =>
    match m s with
    | mkRun (Returned a) s' evs => prepend evs (k a s')
    | mkRun (Thrown e) s' evs => mkRun (Thrown e) s' evs
    end.

(** [try { m } catch (err) { h err }] *)
Definition try_catch {A} (m : M A) (h : Exn -> M A) : M A :=
  fun s =>
    match m s with
    | mkRun (Returned a) s' evs => mkRun (Returned a) s' evs
    | mkRun (Thrown e) s' evs => prepend evs (h e s')
    end.

(** A value computed without effects that may throw. *)
Definition lift {A} (o : Outcome A) : M A := fun s => mkRun o s [].

(** A call to the environment: reply, next world, one event. *)
Definition call {A} (f : W -> Outcome A * W) (ev : Outcome A -> Event) : M A :=
  fun s =>
    match f (world s) with
    | (r, w') => mkRun r (mkSt (proc s) w') [ev r]
    end.
End Route.

Arguments St W : clear implicits.
Arguments mkSt {W} _ _.
Arguments proc {W} _.
Arguments world {W} _.
Arguments Run {rt} W A.
Arguments mkRun {rt W A} _ _ _.
Arguments outcome {rt W A} _.
Arguments final {rt W A} _.
Arguments events {rt W A} _.
Arguments M {rt} W A.

Notation "x <- m ;; k" := (bind m (fun x => k))
  (at level 100, m at next level, right associativity).
Notation "m ;;; k" := (bind m (fun _ => k))
  (at level 100, right associativity).

(** ** Reads and writes of the module variables, and the calls *)

Section Primitives.
Context `{rt : JsRuntime} {W : Type} `{svc : !Service W}.

Definition get_credentials : M W (option Json) :=
  fun s => mkRun (Returned (credentials (proc s))) s [].

Definition get_cached : M W string :=
  fun s => mkRun (Returned (cachedSpreadsheetId (proc s))) s [].

Definition get_client : M W (option SheetsClient) :=
  fun s => mkRun (Returned (sheetsClientPromise (proc s))) s [].

(** [cachedSpreadsheetId = v] *)
Definition set_cached (v : string) : M W unit :=
  fun s =>
    mkRun (Returned tt)
      (mkSt (mkProc (credentials (proc s)) v (sheetsClientPromise (proc s))) (world s))
      [EvSetCached v].

(** [sheetsClientPromise = c] *)
Definition set_client (c : SheetsClient) : M W unit :=
  fun s =>
    mkRun (Returned tt)
      (mkSt (mkProc (credentials (proc s)) (cachedSpreadsheetId (proc s)) (Some c)) (world s))
      [EvSetClient c].

Definition console_warn (args : list string) : M W unit :=
  fun s => mkRun (Returned tt) s [EvConsoleWarn args].

Definition console_error (args : list string) : M W unit :=
  fun s => mkRun (Returned tt) s [EvConsoleError args].

(** [new Date()] *)
Definition new_Date : M W Instant :=
  fun s =>
    match svc_now (world s) with
    | (t, w') => mkRun (Returned t) (mkSt (proc s) w') [EvNow t]
    end.

(** [await sheets.spreadsheets.get({ spreadsheetId, includeGridData })] *)
Definition spreadsheets_get (sheets : SheetsClient) (spreadsheetId : string)
    (includeGridData : option bool) : M W Spreadsheet :=
  call (fun w => svc_get w spreadsheetId includeGridData)
       (EvGet spreadsheetId includeGridData).

(** [await sheets.spreadsheets.create(...)], then [.data.spreadsheetId] *)
Definition spreadsheets_create (sheets : SheetsClient) (title tab : string)
    (frozenRowCount : nat) : M W (option string) :=
  call (fun w => svc_create w title tab frozenRowCount)
       (EvCreate title tab frozenRowCount).

(** [await sheets.spreadsheets.values.update(...)] *)
Definition values_update (sheets : SheetsClient) (spreadsheetId range : string)
    (values : list (list string)) : M W unit :=
  call (fun w => svc_values_update w spreadsheetId range values)
       (EvValuesUpdate spreadsheetId range values).

(** [await sheets.spreadsheets.batchUpdate(...)] with one [addSheet] *)
Definition batchUpdate_addSheet (sheets : SheetsClient) (spreadsheetId tab : string)
    (frozenRowCount : nat) : M W unit :=
  call (fun w => svc_add_sheet w spreadsheetId tab frozenRowCount)
       (EvAddSheet spreadsheetId tab frozenRowCount).

(** [await sheets.spreadsheets.values.append(...)] *)
Definition values_append (sheets : SheetsClient) (spreadsheetId range : string)
    (values : list (list string)) : M W unit :=
  call (fun w => svc_values_append w spreadsheetId range values)
       (EvValuesAppend spreadsheetId range values).

(** [await fs.readFile(path, "utf8")] *)
Definition readFile (path : string) : M W string :=
  call (fun w => svc_readFile w path) (EvReadFile path).

(** [await fs.writeFile(path, data, "utf8")] *)
Definition writeFile (path data : string) : M W unit :=
  call (fun w => svc_writeFile w path data) (EvWriteFile path data).
End Primitives.

(** ** The route module *)

(** The feedback route, in the order of its source: constants and module
    variables, [getSheetsClient], [ensureSpreadsheetId] (block by
    block), [ensureSheetTab] and [POST]. *)

(** [path.join(a, b)] for a directory [a] without a trailing separator. *)
Definition path_join (a b : string) : string := a ++ "/" ++ b.

(** [s || d] on strings. *)
Definition str_or (s d : string) : string := if nonempty s then s else d.

(** [!credentials] *)
Definition not_credentials (c : option Json) : bool :=
  match c with
  | Some j => negb (truthy j)
  | None => true
  end.

(** The header row, as written in [ensureSpreadsheetId] and in
    [ensureSheetTab]. *)
Definition HEADER : list string :=
  ["timestamp"; "feedbackType"; "userComment"; "lastQuestion"; "lastResponse";
   "fullConversation"; "sessionId"; "Type"].

(** The body and status of a [NextResponse.json(...)]. *)
Inductive ResponseBody : Type :=
| BodySuccess (success : bool)
| BodyError (error : string).

Record Response : Type := mkResponse { body : ResponseBody; status : nat }.

Definition MSG_CREDENTIALS : string :=
  "Google Sheets feedback integration is missing required credentials (GOOGLE_SHEETS_CREDENTIALS).".

Definition MSG_CREATE_FAILED : string := "Failed to auto-create fallback spreadsheet.".

Definition MSG_FEEDBACK_TYPE : string :=
  "feedbackType must be " ++ dq ++ "positive" ++ dq ++ " or " ++ dq ++ "negative" ++ dq ++ ".".

Definition MSG_DEFAULT : string := "Failed to submit feedback. Please try again in a moment.".

(** The three kinds of answer. *)
Definition OK : Response := mkResponse (BodySuccess true) 200.

Definition BAD_REQUEST : Response := mkResponse (BodyError MSG_FEEDBACK_TYPE) 400.

Definition SERVER_ERROR (msg : string) : Response := mkResponse (BodyError msg) 500.

Section RouteModule.
Context `{rt : JsRuntime} {W : Type} `{svc : !Service W}.
Variable penv : ProcessEnv.

(** The constants of the module. *)
Definition TAB_NAME : string := env_or (GOOGLE_SHEETS_TAB_NAME penv) "Feedback".

Definition ENV_SPREADSHEET_ID : string := env_or (GOOGLE_SHEETS_SPREADSHEET_ID penv) "".

Definition SHEET_ID_CACHE_PATH : string := path_join (cwd penv) ".feedback-sheet-id.cache".

(** Loading the module: the credentials are parsed, warnings are
    logged, and the module variables get their first values.  Nothing
    here throws, and the environment is not called. *)
Definition load_credentials : option Json * list Event :=
  match GOOGLE_SHEETS_CREDENTIALS penv with
  | Some credentialsJson =>
      if nonempty credentialsJson then
        match JSON_parse credentialsJson with
        | Returned j => (Some j, [])
        | Thrown err =>
            (None, [EvConsoleWarn ["Failed to parse GOOGLE_SHEETS_CREDENTIALS:"; message err]])
        end
      else (None, [])
  | None => (None, [])
  end.

Definition module_load : Proc * list Event :=
  let (c, warnings) := load_credentials in
  (mkProc c (str_or ENV_SPREADSHEET_ID "") None,
   warnings ++
   (if not_credentials c then
      [EvConsoleWarn ["Google Sheets feedback credentials are not configured (GOOGLE_SHEETS_CREDENTIALS missing or invalid)."]]
    else [])).

(** The client is built once and kept; without credentials nothing is
    kept and the call throws. *)
Definition getSheetsClient : M W SheetsClient :=
  p <- get_client ;;
  match p with
  | Some client => ret client
  | None =>
      c <- get_credentials ;;
      if not_credentials c then throw (mkExn MSG_CREDENTIALS)
      else
        let client := mkClient c ["https://www.googleapis.com/auth/spreadsheets"] in
        set_client client ;;; ret client
  end.

(** [ensureSpreadsheetId], first block: the memoized identifier.
    [Some id] is [return id]; [None] falls through. *)
Definition verify_cached (sheets : SheetsClient) : M W (option string) :=
  cached <- get_cached ;;
  if nonempty cached then
    try_catch
      (spreadsheets_get sheets cached None ;;;
       c <- get_cached ;; ret (Some c))
      (fun err =>
         console_warn ["Cached spreadsheet ID is no longer accessible, clearing cache:"; message err] ;;;
         set_cached "" ;;;
         ret None)
  else ret None.

(** Second block: the identifier of the configuration. *)
Definition verify_env (sheets : SheetsClient) : M W (option string) :=
  if nonempty ENV_SPREADSHEET_ID then
    try_catch
      (spreadsheets_get sheets ENV_SPREADSHEET_ID None ;;;
       set_cached ENV_SPREADSHEET_ID ;;;
       c <- get_cached ;; ret (Some c))
      (fun err =>
         console_error ["Environment spreadsheet ID is not accessible:"; message err] ;;;
         ret None)
  else ret None.

(** Third block: the identifier kept in the cache file. *)
Definition verify_file (sheets : SheetsClient) : M W (option string) :=
  try_catch
    (stored <- readFile SHEET_ID_CACHE_PATH ;;
     let parsed := trim stored in
     if nonempty parsed then
       try_catch
         (spreadsheets_get sheets parsed None ;;;
          set_cached parsed ;;;
          c <- get_cached ;; ret (Some c))
         (fun err =>
            console_warn ["Cached spreadsheet ID from file is not accessible:"; message err] ;;;
            ret None)
     else ret None)
    (fun _ => ret None).

(** Last block: a new spreadsheet. *)
Definition create_fallback (sheets : SheetsClient) : M W string :=
  console_warn ["GOOGLE_SHEETS_SPREADSHEET_ID is not set or not accessible. Creating a fallback spreadsheet using the service account."] ;;;
  created <- spreadsheets_create sheets "GIKI Chatbot Feedback" TAB_NAME 1 ;;
  match created with
  | Some spreadsheetId =>
      if nonempty spreadsheetId then
        set_cached spreadsheetId ;;;
        writeFile SHEET_ID_CACHE_PATH spreadsheetId ;;;
        values_update sheets spreadsheetId (TAB_NAME ++ "!A1:H1") [HEADER] ;;;
        console_warn [("Created fallback spreadsheet with ID " ++ spreadsheetId ++ ". Share this sheet with stakeholders as needed.")%string] ;;;
        ret spreadsheetId
      else throw (mkExn MSG_CREATE_FAILED)
  | None => throw (mkExn MSG_CREATE_FAILED)
  end.

(** A block that returned ends the function; one that fell through is
    followed by the rest. *)
Definition or_else (m : M W (option string)) (k : M W string) : M W string :=
  r <- m ;;
  match r with
  | Some id => ret id
  | None => k
  end.

(** What follows the memoized identifier: configuration value, cache
    file, creation. *)
Definition lower_tiers (sheets : SheetsClient) : M W string :=
  or_else (verify_env sheets)
    (or_else (verify_file sheets)
       (create_fallback sheets)).

Definition ensureSpreadsheetId (sheets : SheetsClient) : M W string :=
  or_else (verify_cached sheets) (lower_tiers sheets).

(** [sheet.properties?.title === TAB_NAME] *)
Definition title_is_tab (sheet : Sheet) : bool :=
  match properties_title sheet with
  | Some t => String.eqb t TAB_NAME
  | None => false
  end.

Definition ensureSheetTab (sheets : SheetsClient) (spreadsheetId : string) : M W unit :=
  details <- spreadsheets_get sheets spreadsheetId (Some false) ;;
  let hasTab := existsb title_is_tab (default [] (data_sheets details)) in
  if hasTab then ret tt
  else
    batchUpdate_addSheet sheets spreadsheetId TAB_NAME 1 ;;;
    values_update sheets spreadsheetId (TAB_NAME ++ "!A1:H1") [HEADER] ;;;
    ret tt.

(** [new Date(s).toISOString()]: an invalid date throws a [RangeError]. *)
Definition parse_toISOString (s : string) : Outcome string :=
  match Date_parse s with
  | Some t => Returned (toISOString t)
  | None => Thrown (mkExn "Invalid time value")
  end.

(** [["positive", "negative"].includes(x)] *)
Definition is_feedback_type (x : string) : bool :=
  existsb (String.eqb x) ["positive"; "negative"].

(** The handler.  [req_json] is what [req.json()] settles to: [None]
    for a rejected promise (a body that is not JSON). *)
Definition POST (req_json : option Json) : M W Response :=
  try_catch
    (let payload := match req_json with Some j => j | None => JObject [] end in
     v_feedbackType <- lift (prop payload "feedbackType") ;;
     s_feedbackType <- lift (or_empty_toString v_feedbackType) ;;
     let feedbackType := trim s_feedbackType in
     v_userComment <- lift (prop payload "userComment") ;;
     userComment <- lift (or_empty_toString v_userComment) ;;
     v_lastQuestion <- lift (prop payload "lastQuestion") ;;
     lastQuestion <- lift (or_empty_toString v_lastQuestion) ;;
     v_lastResponse <- lift (prop payload "lastResponse") ;;
     lastResponse <- lift (or_empty_toString v_lastResponse) ;;
     v_sessionId <- lift (prop payload "sessionId") ;;
     sessionId <- lift (or_empty_toString v_sessionId) ;;
     v_type <- lift (prop payload "type") ;;
     v_admissionsType <- lift (prop payload "admissionsType") ;;
     s_typeLabel <- lift (or_empty_toString (js_or v_type v_admissionsType)) ;;
     let typeLabel := trim s_typeLabel in
     v_timestamp <- lift (prop payload "timestamp") ;;
     s_timestamp <- lift (or_empty_toString v_timestamp) ;;
     let providedTimestamp := trim s_timestamp in
     v_fullConversation <- lift (prop payload "fullConversation") ;;
     let fullConversation :=
       if isArray v_fullConversation then default (JArray []) v_fullConversation
       else JArray [] in
     if negb (nonempty feedbackType) || negb (is_feedback_type feedbackType) then
       ret (mkResponse (BodyError MSG_FEEDBACK_TYPE) 400)
     else
       timestamp <-
         (if nonempty providedTimestamp then lift (parse_toISOString providedTimestamp)
          else now <- new_Date ;; ret (toISOString now)) ;;
       let conversationString := JSON_stringify fullConversation in
       sheets <- getSheetsClient ;;
       spreadsheetId <- ensureSpreadsheetId sheets ;;
       ensureSheetTab sheets spreadsheetId ;;;
       values_append sheets spreadsheetId (TAB_NAME ++ "!A:H")
         [[timestamp; feedbackType; userComment; lastQuestion; lastResponse;
           conversationString; sessionId; typeLabel]] ;;;
       ret (mkResponse (BodySuccess true) 200))
    (fun err =>
       console_error ["Error submitting feedback:"; message err] ;;;
       ret (mkResponse (BodyError (str_or (message err) MSG_DEFAULT)) 500)).
End RouteModule.

(** ** The fall-through of the specification *)

(** The resolution algorithm as the specification words it, as relations
    between the events of a run and how it ends.  Each tier relates its
    events to [Some id] when it resolves the identifier and to [None]
    when it falls through.  These are compared with [ensureSpreadsheetId]
    in [ensureSpreadsheetId_resolution]. *)
Section Fallthrough.
Context `{rt : JsRuntime}.
Variable penv : ProcessEnv.

Definition WARN_STALE (e : Exn) : Event :=
  EvConsoleWarn ["Cached spreadsheet ID is no longer accessible, clearing cache:"; message e].

Definition WARN_CREATING : Event :=
  EvConsoleWarn ["GOOGLE_SHEETS_SPREADSHEET_ID is not set or not accessible. Creating a fallback spreadsheet using the service account."].

Definition CREATE (r : Outcome (option string)) : Event :=
  EvCreate "GIKI Chatbot Feedback" (TAB_NAME penv) 1 r.

Definition WRITE_HEADER (id : string) (r : Outcome unit) : Event :=
  EvValuesUpdate id (TAB_NAME penv ++ "!A1:H1") [HEADER] r.

(** A creation reply that carries no identifier. *)
Definition no_identifier (o : option string) : bool :=
  match o with
  | Some id => negb (nonempty id)
  | None => true
  end.

(** Tier 2: the explicit configuration value. *)
Inductive config_tier : list Event -> option string -> Prop :=
| config_absent :
    nonempty (ENV_SPREADSHEET_ID penv) = false ->
    config_tier [] None
| config_accessible d :
    nonempty (ENV_SPREADSHEET_ID penv) = true ->
    config_tier [EvGet (ENV_SPREADSHEET_ID penv) None (Returned d);
                 EvSetCached (ENV_SPREADSHEET_ID penv)]
                (Some (ENV_SPREADSHEET_ID penv))
| config_inaccessible e :
    nonempty (ENV_SPREADSHEET_ID penv) = true ->
    config_tier [EvGet (ENV_SPREADSHEET_ID penv) None (Thrown e);
                 EvConsoleError ["Environment spreadsheet ID is not accessible:"; message e]]
                None.

(** Tier 3: the on-disk cache file. *)
Inductive file_tier : list Event -> option string -> Prop :=
| file_unreadable e :
    file_tier [EvReadFile (SHEET_ID_CACHE_PATH penv) (Thrown e)] None
| file_blank stored :
    nonempty (trim stored) = false ->
    file_tier [EvReadFile (SHEET_ID_CACHE_PATH penv) (Returned stored)] None
| file_accessible stored d :
    nonempty (trim stored) = true ->
    file_tier [EvReadFile (SHEET_ID_CACHE_PATH penv) (Returned stored);
               EvGet (trim stored) None (Returned d);
               EvSetCached (trim stored)]
              (Some (trim stored))
| file_inaccessible stored e :
    nonempty (trim stored) = true ->
    file_tier [EvReadFile (SHEET_ID_CACHE_PATH penv) (Returned stored);
               EvGet (trim stored) None (Thrown e);
               EvConsoleWarn ["Cached spreadsheet ID from file is not accessible:"; message e]]
              None.

(** Tier 4: creation.  It ends the resolution, one way or the other. *)
Inductive create_tier : list Event -> Outcome string -> Prop :=
| create_rejected e :
    create_tier [WARN_CREATING; CREATE (Thrown e)] (Thrown e)
| create_without_id o :
    no_identifier o = true ->
    create_tier [WARN_CREATING; CREATE (Returned o)] (Thrown (mkExn MSG_CREATE_FAILED))
| create_unsaved id e :
    nonempty id = true ->
    create_tier [WARN_CREATING; CREATE (Returned (Some id)); EvSetCached id;
                 EvWriteFile (SHEET_ID_CACHE_PATH penv) id (Thrown e)]
                (Thrown e)
| create_without_header id e :
    nonempty id = true ->
    create_tier [WARN_CREATING; CREATE (Returned (Some id)); EvSetCached id;
                 EvWriteFile (SHEET_ID_CACHE_PATH penv) id (Returned tt);
                 WRITE_HEADER id (Thrown e)]
                (Thrown e)
| create_done id :
    nonempty id = true ->
    create_tier [WARN_CREATING; CREATE (Returned (Some id)); EvSetCached id;
                 EvWriteFile (SHEET_ID_CACHE_PATH penv) id (Returned tt);
                 WRITE_HEADER id (Returned tt);
                 EvConsoleWarn [("Created fallback spreadsheet with ID " ++ id ++ ". Share this sheet with stakeholders as needed.")%string]]
                (Returned id).

(** Tiers 2 to 4 in their order: a tier is tried only when the ones
    before it fell through. *)
Inductive fallthrough : list Event -> Outcome string -> Prop :=
| by_config evs id :
    config_tier evs (Some id) ->
    fallthrough evs (Returned id)
| by_file evs2 evs3 id :
    config_tier evs2 None ->
    file_tier evs3 (Some id) ->
    fallthrough (evs2 ++ evs3) (Returned id)
| by_creation evs2 evs3 evs4 r :
    config_tier evs2 None ->
    file_tier evs3 None ->
    create_tier evs4 r ->
    fallthrough (evs2 ++ evs3 ++ evs4) r.

(** The whole resolution from a memoized identifier [cached]. *)
Inductive resolution (cached : string) : list Event -> Outcome string -> Prop :=
| memo_accessible d :
    nonempty cached = true ->
    resolution cached [EvGet cached None (Returned d)] (Returned cached)
| memo_absent evs r :
    nonempty cached = false ->
    fallthrough evs r ->
    resolution cached evs r
| memo_stale e evs r :
    nonempty cached = true ->
    fallthrough evs r ->
    resolution cached
      ([EvGet cached None (Thrown e); WARN_STALE e; EvSetCached ""] ++ evs) r.

(** The value of [cachedSpreadsheetId] after the assignments logged in
    [evs], starting from [v]. *)
Fixpoint cached_after (evs : list Event) (v : string) : string :=
  match evs with
  | [] => v
  | EvSetCached v' :: rest => cached_after rest v'
  | _ :: rest => cached_after rest v
  end.

(** The events up to the next call that leaves the process: what is
    left of the current [catch] block. *)
Fixpoint until_next_call (evs : list Event) : list Event :=
  match evs with
  | [] => []
  | e :: rest => if is_external e then [] else e :: until_next_call rest
  end.

(** Nothing is memoized once a failed verification has been handled:
    at every failed [spreadsheets.get] of [evs], the memoized value is
    empty by the time of the next call.  [v] is the value memoized
    before [evs]. *)
Fixpoint evicts_on_failure (v : string) (evs : list Event) : bool :=
  match evs with
  | [] => true
  | e :: post =>
      match e with
      | EvGet _ _ (Thrown _) => negb (nonempty (cached_after (until_next_call post) v))
      | _ => true
      end && evicts_on_failure (cached_after [e] v) post
  end.

(** An event that changes nothing: a failed verification, a read of a
    file, or the clearing of the memoized identifier; console output
    and clock reads are not side effects in the first place. *)
Definition harmless (e : Event) : Prop :=
  is_side_effect e = true ->
  (exists id g x, e = EvGet id g (Thrown x)) \/
  (exists p x, e = EvReadFile p x) \/
  e = EvSetCached "".
End Fallthrough.

(** ** The feedback record of the specification *)

(** The record of the specification, field by field, as a function of
    the payload.  [field] is the property of a payload that is not
    [null]. *)
Definition field (payload : Json) (name : string) : option Json :=
  match payload with
  | JObject fields => assoc name fields
  | _ => None
  end.

Section FeedbackRecord.
Context `{rt : JsRuntime}.

(** The string a conversion gives, when it gives one. *)
Definition text (o : Outcome string) : string :=
  match o with
  | Returned x => x
  | Thrown _ => ""
  end.

(** The values the handler converts to strings, in its order. *)
Definition converted (p : Json) : list (option Json) :=
  [field p "feedbackType"; field p "userComment"; field p "lastQuestion";
   field p "lastResponse"; field p "sessionId";
   js_or (field p "type") (field p "admissionsType"); field p "timestamp"].

(** Every conversion to a string succeeds: none of these values is an
    object with a [toString] of its own, nor an array holding one. *)
Definition convertible (p : Json) : bool :=
  forallb (fun v => is_returned (or_empty_toString v)) (converted p).

Definition feedbackType_of (p : Json) : string :=
  trim (text (or_empty_toString (field p "feedbackType"))).

Definition userComment_of (p : Json) : string :=
  text (or_empty_toString (field p "userComment")).

Definition lastQuestion_of (p : Json) : string :=
  text (or_empty_toString (field p "lastQuestion")).

Definition lastResponse_of (p : Json) : string :=
  text (or_empty_toString (field p "lastResponse")).

Definition sessionId_of (p : Json) : string :=
  text (or_empty_toString (field p "sessionId")).

Definition typeLabel_of (p : Json) : string :=
  trim (text (or_empty_toString (js_or (field p "type") (field p "admissionsType")))).

Definition providedTimestamp_of (p : Json) : string :=
  trim (text (or_empty_toString (field p "timestamp"))).

Definition fullConversation_of (p : Json) : string :=
  JSON_stringify
    (if isArray (field p "fullConversation")
     then default (JArray []) (field p "fullConversation")
     else JArray []).

(** The record under the names of the header columns. *)
Definition columns (timestamp : string) (p : Json) : list (string * string) :=
  [("timestamp", timestamp);
   ("feedbackType", feedbackType_of p);
   ("userComment", userComment_of p);
   ("lastQuestion", lastQuestion_of p);
   ("lastResponse", lastResponse_of p);
   ("fullConversation", fullConversation_of p);
   ("sessionId", sessionId_of p);
   ("Type", typeLabel_of p)].

(** A submission that passes conversion, validation and timestamp
    normalization, and so gets to use the store. *)
Definition reaches_store (p : Json) : Prop :=
  p <> JNull /\
  convertible p = true /\
  is_feedback_type (feedbackType_of p) = true /\
  (nonempty (providedTimestamp_of p) = true ->
   exists t, Date_parse (providedTimestamp_of p) = Some t).

(** The credentials are absent (the variable is unset or empty) or
    malformed (it does not parse). *)
Definition credentials_absent (penv : ProcessEnv) : Prop :=
  nonempty (env_or (GOOGLE_SHEETS_CREDENTIALS penv) "") = false.

Definition credentials_malformed (penv : ProcessEnv) : Prop :=
  exists text e, GOOGLE_SHEETS_CREDENTIALS penv = Some text /\
                 JSON_parse text = Thrown e.

Definition is_warning (e : Event) : bool :=
  match e with EvConsoleWarn _ => true | _ => false end.
End FeedbackRecord.

(** ** Tabs, as seen in the events *)

Section Tabs.
Context `{rt : JsRuntime}.
Variable penv : ProcessEnv.

(** The listing [d] of a spreadsheet has the tab. *)
Definition lists_tab (d : Spreadsheet) : bool :=
  existsb (title_is_tab penv) (default [] (data_sheets d)).

(** A tab creation that the service accepted. *)
Definition is_tab_created (e : Event) : bool :=
  match e with
  | EvAddSheet _ _ _ (Returned _) => true
  | _ => false
  end.

(** A listing that showed the tab. *)
Definition is_tab_found (e : Event) : bool :=
  match e with
  | EvGet _ _ (Returned d) => lists_tab d
  | _ => false
  end.

(** The run found the tab or created it. *)
Definition found_or_created (evs : list Event) : bool :=
  existsb (fun e => is_tab_found e || is_tab_created e) evs.

(** The range of an append. *)
Definition RANGE : string := TAB_NAME penv ++ "!A:H".
End Tabs.

Section Timestamp.
Context `{rt : JsRuntime} {W : Type} `{svc : !Service W}.

(** Where the timestamp of a record comes from: the supplied value,
    parsed, when there is one; the clock at the start of the request
    otherwise. *)
Definition timestamp_source (s : St W) (payload : Json) (t : Instant) : Prop :=
  if nonempty (providedTimestamp_of payload)
  then Date_parse (providedTimestamp_of payload) = Some t
  else t = fst (svc_now (world s)).
End Timestamp.

(** ** A reference environment *)

(** A small runtime and a small Sheets service with a file system, used
    to run the route on concrete requests. *)
Module Ref.

(** Instants are tick counts, written in decimal. *)
Definition ticks_to_string (n : nat) : string :=
  NilEmpty.string_of_uint (Nat.to_uint n).

Definition ticks_of_string (s : string) : option nat :=
  option_map Nat.of_uint (NilEmpty.uint_of_string s).

Lemma ticks_roundtrip (n : nat) : ticks_of_string (ticks_to_string n) = Some n.
Proof.
  unfold ticks_of_string, ticks_to_string.
  rewrite DecimalString.NilEmpty.usu. simpl.
  now rewrite DecimalNat.Unsigned.of_to.
Qed.

(** A rendering of JSON values without escapes in strings. *)
Fixpoint stringify (j : Json) : string :=
  match j with
  | JNull => "null"
  | JBool true => "true"
  | JBool false => "false"
  | JNumber _ text => text
  | JString s => dq ++ s ++ dq
  | JArray items => "[" ++ join "," (List.map stringify items) ++ "]"
  | JObject fields =>
      "{" ++ join "," (List.map (fun kv => (dq ++ fst kv ++ dq ++ ":" ++ stringify (snd kv))%string) fields) ++ "}"
  end.

(** Only the empty object is parsed. *)
Definition parse (s : string) : Outcome Json :=
  if String.eqb s "{}" then Returned (JObject [])
  else Thrown (mkExn "Unexpected token").

#[export] Instance runtime : JsRuntime := {|
  Instant := nat;
  Date_parse := ticks_of_string;
  toISOString := ticks_to_string;
  JSON_parse := parse;
  JSON_stringify := stringify;
  toISOString_parses := ticks_roundtrip
|}.

(** A tab: its title and its rows. *)
Definition Tab : Type := string * list (list string).

Record World : Type := mkWorld {
  books : gmap string (list Tab);     (* the spreadsheets the account can reach *)
  files : gmap string string;         (* the file system *)
  supply : list (option string);      (* what the next creations return *)
  clock : nat
}.

Definition NOT_FOUND : Exn := mkExn "Requested entity was not found.".

(** The tab a range such as ["Feedback!A1:H1"] names. *)
Fixpoint range_tab (range : string) : string :=
  match range with
  | EmptyString => EmptyString
  | String c r => if Ascii.eqb c "!"%char then EmptyString else String c (range_tab r)
  end.

Definition has_tab (tab : string) (tabs : list Tab) : bool :=
  existsb (fun t => String.eqb (fst t) tab) tabs.

Definition set_rows (f : list (list string) -> list (list string)) (tab : string)
    (tabs : list Tab) : list Tab :=
  List.map (fun t => if String.eqb (fst t) tab then (fst t, f (snd t)) else t) tabs.

Definition with_books (w : World) (b : gmap string (list Tab)) : World :=
  mkWorld b (files w) (supply w) (clock w).

Definition get (w : World) (id : string) (grid : option bool) : Outcome Spreadsheet * World :=
  match books w !! id with
  | Some tabs =>
      (Returned (mkSpreadsheet (Some (List.map (fun t => mkSheet (Some (fst t))) tabs))), w)
  | None => (Thrown NOT_FOUND, w)
  end.

Definition create (w : World) (title tab : string) (frozen : nat)
    : Outcome (option string) * World :=
  match supply w with
  | [] => (Returned None, w)
  | None :: rest => (Returned None, mkWorld (books w) (files w) rest (clock w))
  | Some id :: rest =>
      (Returned (Some id), mkWorld (<[id := [(tab, [])]]> (books w)) (files w) rest (clock w))
  end.

(** Writing [values] at the top of the tab the range names. *)
Definition values_update (w : World) (id range : string) (values : list (list string))
    : Outcome unit * World :=
  match books w !! id with
  | Some tabs =>
      if has_tab (range_tab range) tabs then
        (Returned tt,
         with_books w (<[id := set_rows (fun rows => values ++ skipn (length values) rows)
                                        (range_tab range) tabs]> (books w)))
      else (Thrown (mkExn "Unable to parse range"), w)
  | None => (Thrown NOT_FOUND, w)
  end.

Definition add_sheet (w : World) (id tab : string) (frozen : nat) : Outcome unit * World :=
  match books w !! id with
  | Some tabs =>
      if has_tab tab tabs then (Thrown (mkExn "A sheet with that name already exists"), w)
      else (Returned tt, with_books w (<[id := tabs ++ [(tab, [])]]> (books w)))
  | None => (Thrown NOT_FOUND, w)
  end.

Definition values_append (w : World) (id range : string) (values : list (list string))
    : Outcome unit * World :=
  match books w !! id with
  | Some tabs =>
      if has_tab (range_tab range) tabs then
        (Returned tt,
         with_books w (<[id := set_rows (fun rows => rows ++ values) (range_tab range) tabs]>
                         (books w)))
      else (Thrown (mkExn "Unable to parse range"), w)
  | None => (Thrown NOT_FOUND, w)
  end.

Definition read (w : World) (path : string) : Outcome string * World :=
  match files w !! path with
  | Some data => (Returned data, w)
  | None => (Thrown (mkExn "ENOENT: no such file or directory"), w)
  end.

Definition write (w : World) (path data : string) : Outcome unit * World :=
  (Returned tt, mkWorld (books w) (<[path := data]> (files w)) (supply w) (clock w)).

Definition now (w : World) : nat * World :=
  (clock w, mkWorld (books w) (files w) (supply w) (S (clock w))).

#[export] Instance service : Service World := {|
  svc_get := get;
  svc_create := create;
  svc_values_update := values_update;
  svc_add_sheet := add_sheet;
  svc_values_append := values_append;
  svc_readFile := read;
  svc_writeFile := write;
  svc_now := now
|}.

(** A deployment without configured identifier or tab name. *)
Definition penv (creds : option string) (id : option string) : ProcessEnv :=
  mkProcessEnv None creds id "/app".

Definition CACHE : string := "/app/.feedback-sheet-id.cache".

Definition CREDS : Json := JObject [("client_email", JString "bot@example.iam")].

Definition CLIENT : SheetsClient :=
  mkClient (Some CREDS) ["https://www.googleapis.com/auth/spreadsheets"].
End Ref.

(** ** Sample deployments, states and payloads *)

Module Cases.
Import Ref.

(** A deployment with credentials, without and with a configured
    identifier, and one without credentials. *)
Definition pe0 : ProcessEnv := penv (Some "{}") None.
Definition peE : ProcessEnv := penv (Some "{}") (Some "sheet-env").
Definition pe_unconfigured : ProcessEnv := penv None None.

(** A spreadsheet that has the tab with its header, and its listing. *)
Definition FEEDBACK : list Tab := [("Feedback", [HEADER])].

Definition LISTING : Spreadsheet := mkSpreadsheet (Some [mkSheet (Some "Feedback")]).

(** A cold start: nothing reachable, no cache file; the next creation
    hands out ["sheet-1"]. *)
Definition s_cold : St World :=
  mkSt (fst (module_load pe0)) (mkWorld ∅ ∅ [Some "sheet-1"] 7).

(** The submission of the first scenario of the specification. *)
Definition negative_feedback : Json :=
  JObject [("feedbackType", JString "negative"); ("userComment", JString "too vague");
           ("lastQuestion", JString "fees?"); ("lastResponse", JString "...");
           ("sessionId", JString "s1")].

(** A process starts with a configured identifier that is not
    reachable yet: it creates ["sheet-old"], memoizes it and writes it
    to the cache file. *)
Definition s_first : St World :=
  mkSt (fst (module_load peE)) (mkWorld ∅ ∅ [Some "sheet-old"] 0).

(** Then ["sheet-old"] is deleted and the configured spreadsheet is
    shared with the account. *)
Definition s_stale : St World :=
  let r := ensureSpreadsheetId peE CLIENT s_first in
  mkSt (proc (final r)) (with_books (world (final r)) {[ "sheet-env" := FEEDBACK ]}).

(** A stale memo, a configured identifier that is not reachable, and a
    cache file (padded with spaces) that names a reachable
    spreadsheet. *)
Definition s_fall : St World :=
  mkSt (mkProc (Some CREDS) "sheet-old" (Some CLIENT))
       (mkWorld {[ "sheet-file" := FEEDBACK ]} {[ CACHE := "  sheet-file " ]} [] 0).

(** The row of [negative_feedback] submitted at tick 7. *)
Definition ROW : list string := ["7"; "negative"; "too vague"; "fees?"; "..."; "[]"; "s1"; ""].

(** The same submission with a timestamp of its own, spelt with a
    leading zero and spaces around it, and its row. *)
Definition stamped_feedback : Json :=
  JObject [("feedbackType", JString "negative"); ("userComment", JString "too vague");
           ("lastQuestion", JString "fees?"); ("lastResponse", JString "...");
           ("sessionId", JString "s1"); ("timestamp", JString " 05 ")].

Definition STAMPED_ROW : list string :=
  ["5"; "negative"; "too vague"; "fees?"; "..."; "[]"; "s1"; ""].

(** A [feedbackType] that is not one of the two strings, but trims to
    one. *)
Definition padded_feedback : Json := JObject [("feedbackType", JString " positive ")].

(** A comment that cannot be converted to a string. *)
Definition unconvertible_feedback : Json :=
  JObject [("feedbackType", JString "neutral");
           ("userComment", JObject [("toString", JNumber false "1")])].

(** A spreadsheet without the tab. *)
Definition s_no_tab : St World :=
  mkSt (mkProc (Some CREDS) "sheet-1" (Some CLIENT))
       (mkWorld {[ "sheet-1" := [("Sheet1", [])] ]} ∅ [] 0).

(** A process loaded without credentials. *)
Definition s_unconfigured : St World :=
  mkSt (fst (module_load pe_unconfigured)) (mkWorld ∅ ∅ [Some "sheet-1"] 7).

(** Nothing reachable, no cache file, and a creation that returns no
    identifier. *)
Definition s_barren : St World :=
  mkSt (mkProc (Some CREDS) "" (Some CLIENT)) (mkWorld ∅ ∅ [None] 0).
End Cases.

(** ** Why a tier is reached, and how a request ends *)

Section Reasons.
Context `{rt : JsRuntime}.
Variable penv : ProcessEnv.

(** The memoized identifier [cached] could not be used in [evs]: there
    was none, or its check failed. *)
Definition memo_unusable (evs : list Event) (cached : string) : Prop :=
  nonempty cached = false \/ exists e, In (EvGet cached None (Thrown e)) evs.

(** The same for the configured identifier. *)
Definition config_unusable (evs : list Event) : Prop :=
  nonempty (ENV_SPREADSHEET_ID penv) = false \/
  exists e, In (EvGet (ENV_SPREADSHEET_ID penv) None (Thrown e)) evs.

(** The same for the cache file: it could not be read, or it was blank
    once trimmed, or the check of the identifier it holds failed. *)
Definition file_unusable (evs : list Event) : Prop :=
  (exists e, In (EvReadFile (SHEET_ID_CACHE_PATH penv) (Thrown e)) evs) \/
  (exists stored,
     In (EvReadFile (SHEET_ID_CACHE_PATH penv) (Returned stored)) evs /\
     (nonempty (trim stored) = false \/
      exists e, In (EvGet (trim stored) None (Thrown e)) evs)).

(** What the handler of [POST] logs for the error [e]. *)
Definition LOGGED (e : Exn) : Event :=
  EvConsoleError ["Error submitting feedback:"; message e].

(** An append that the service accepted. *)
Definition is_accepted_append (e : Event) : bool :=
  match e with
  | EvValuesAppend _ _ _ (Returned _) => true
  | _ => false
  end.

(** [e] is the last of [evs]. *)
Definition ends_with (evs : list Event) (e : Event) : Prop :=
  exists pre, evs = pre ++ [e].
End Reasons.

Section Answers.
Context `{rt : JsRuntime} {W : Type} `{svc : !Service W}.
Variable penv : ProcessEnv.

(** A request answered 400, from the state [s]: nothing happened, and
    the request has no body that can be read or no valid
    [feedbackType]. *)
Definition rejected (req : option Json) (s : St W) (r : Run W Response) : Prop :=
  r = mkRun (Returned BAD_REQUEST) s [] /\
  match req with
  | Some payload => is_feedback_type (feedbackType_of payload) = false
  | None => True
  end.

(** A request answered 200, from the state [s]: the accepted append of
    one row is its last event and the only accepted append; it goes to
    the identifier [id] that is memoized afterwards, whose listing was
    read and whose tab was found or created; the client is kept. *)
Definition stored (s : St W) (r : Run W Response) : Prop :=
  exists c id pre d row,
    outcome r = Returned OK /\
    events r = pre ++ [EvValuesAppend id (RANGE penv) [row] (Returned tt)] /\
    List.filter is_accepted_append pre = [] /\
    proc (final r) = mkProc (credentials (proc s)) id (Some c) /\
    nonempty id = true /\
    In (EvGet id (Some false) (Returned d)) pre /\
    found_or_created penv pre = true.

(** A request [r] gets to the store with the record [row]: [pfx] are
    its events before it uses the store and [s0] is the state it uses
    it in.  When the client, the identifier and the tab are obtained
    from [s0], the append of [row] alone is tried next; its reply
    decides the answer, and a rejection is logged. *)
Definition stores_row (s0 : St W) (pfx : list Event) (row : list string)
    (r : Run W Response) : Prop :=
  forall c id s1 s2 s3 e1 e2 e3,
    getSheetsClient s0 = mkRun (Returned c) s1 e1 ->
    ensureSpreadsheetId penv c s1 = mkRun (Returned id) s2 e2 ->
    ensureSheetTab penv c id s2 = mkRun (Returned tt) s3 e3 ->
    exists x w4,
      svc_values_append (world s3) id (RANGE penv) [row] = (x, w4) /\
      events r =
        pfx ++ e1 ++ e2 ++ e3 ++
        EvValuesAppend id (RANGE penv) [row] x ::
        match x with Returned _ => [] | Thrown e => [LOGGED e] end /\
      outcome r =
        Returned (match x with
                  | Returned _ => OK
                  | Thrown e => SERVER_ERROR (str_or (message e) MSG_DEFAULT)
                  end).

(** A request answered 500: the error is logged last, and no append was
    accepted. *)
Definition failed (r : Run W Response) : Prop :=
  exists e,
    outcome r = Returned (SERVER_ERROR (str_or (message e) MSG_DEFAULT)) /\
    ends_with (events r) (LOGGED e) /\
    List.filter is_accepted_append (events r) = [].
End Answers.

(** ** A deployment whose file system is read-only *)

(** The world of [Ref], where every write of a file is rejected. *)
Module ReadOnly.
Import Ref.

Record Sealed : Type := seal { unseal : World }.

Definition EROFS : Exn := mkExn "EROFS: read-only file system".

Definition through {A} (f : World -> A * World) (w : Sealed) : A * Sealed :=
  let (a, w') := f (unseal w) in (a, seal w').

#[export] Instance sealed_service : Service Sealed := {|
  svc_get := fun w id g => through (fun x => get x id g) w;
  svc_create := fun w t tab f => through (fun x => create x t tab f) w;
  svc_values_update := fun w id r v => through (fun x => values_update x id r v) w;
  svc_add_sheet := fun w id tab f => through (fun x => add_sheet x id tab f) w;
  svc_values_append := fun w id r v => through (fun x => values_append x id r v) w;
  svc_readFile := fun w p => through (fun x => read x p) w;
  svc_writeFile := fun w _ _ => (Thrown EROFS, w);
  svc_now := fun w => through now w
|}.

(** A cold start on such a deployment. *)
Definition s_sealed : St Sealed :=
  mkSt (mkProc (Some CREDS) "" (Some CLIENT)) (seal (mkWorld ∅ ∅ [Some "sheet-1"] 0)).
End ReadOnly.

(** ** A service with an outage *)

(** The reference service behind a connection that fails for its next
    [outage] calls of [spreadsheets.get], whatever they ask for, and is
    back afterwards. *)
Module Outage.
Import Ref Cases.

Record Unsteady : Type := unsteady { outage : nat; steady : World }.

Definition TRANSIENT : Exn := mkExn "The service is currently unavailable.".

Definition through {A} (f : World -> A * World) (w : Unsteady) : A * Unsteady :=
  let (a, w') := f (steady w) in (a, unsteady (outage w) w').

Definition get_unsteady (w : Unsteady) (id : string) (grid : option bool)
    : Outcome Spreadsheet * Unsteady :=
  match outage w with
  | S n => (Thrown TRANSIENT, unsteady n (steady w))
  | O => through (fun x => get x id grid) w
  end.

#[export] Instance unsteady_service : Service Unsteady := {|
  svc_get := get_unsteady;
  svc_create := fun w t tab f => through (fun x => create x t tab f) w;
  svc_values_update := fun w id r v => through (fun x => values_update x id r v) w;
  svc_add_sheet := fun w id tab f => through (fun x => add_sheet x id tab f) w;
  svc_values_append := fun w id r v => through (fun x => values_append x id r v) w;
  svc_readFile := fun w p => through (fun x => read x p) w;
  svc_writeFile := fun w p d => through (fun x => write x p d) w;
  svc_now := fun w => through now w
|}.

(** A process just loaded with a configured identifier that names a
    reachable spreadsheet, while one call is lost. *)
Definition s_outage : St Unsteady :=
  mkSt (fst (module_load peE)) (unsteady 1 (mkWorld {[ "sheet-env" := FEEDBACK ]} ∅ [] 0)).
End Outage.

(** * The chat route *)

(** The route [api/chat]: [POST], [extractTextFromResponse] and
    [extractCitationsFromResponse].  Its strings are cut at a length and
    extended with an ellipsis, so here a string is the sequence of its
    UTF-16 code units, and a value may be [undefined].  The response of
    the model is read as data: reading a property of it computes
    nothing.  What the module does when it is loaded (two warnings
    about missing variables, the construction of the client) is not
    part of the model. *)
Module Chat.

(** ** Strings *)

Definition ustring : Type := list N.

(** A literal of the source (ASCII). *)
Definition u (s : string) : ustring := List.map N_of_ascii (list_ascii_of_string s).

(** [a === b] on strings. *)
Definition ueqb (a b : ustring) : bool := bool_decide (a = b).

(** A string is truthy when it is not empty. *)
Definition nonempty (s : ustring) : bool :=
  match s with [] => false | _ => true end.

(** White space and line terminators: what [\s] matches and what
    [String.prototype.trim] removes. *)
Definition is_space (c : N) : bool :=
  ((9 <=? c)%N && (c <=? 13)%N) || (c =? 32)%N || (c =? 160)%N || (c =? 5760)%N ||
  ((8192 <=? c)%N && (c <=? 8202)%N) || (c =? 8232)%N || (c =? 8233)%N ||
  (c =? 8239)%N || (c =? 8287)%N || (c =? 12288)%N || (c =? 65279)%N.

Fixpoint trimStart (s : ustring) : ustring :=
  match s with
  | [] => []
  | c :: r => if is_space c then trimStart r else s
  end.

Fixpoint trimEnd (s : ustring) : ustring :=
  match s with
  | [] => []
  | c :: r =>
      match trimEnd r with
      | [] => if is_space c then [] else [c]
      | r' => c :: r'
      end
  end.

(** [s.trim()] *)
Definition trim (s : ustring) : ustring := trimEnd (trimStart s).

(** [s.replace(/\s+/g, " ")]: every maximal run of white space becomes
    one space.  [in_run] tells that the code unit before was white
    space. *)
Fixpoint collapse (in_run : bool) (s : ustring) : ustring :=
  match s with
  | [] => []
  | c :: r =>
      if is_space c then
        if in_run then collapse true r else 32%N :: collapse true r
      else c :: collapse false r
  end.

(** The one-character string of the horizontal ellipsis, U+2026. *)
Definition ELLIPSIS : ustring := [8230%N].

(** [items.join(sep)] on strings. *)
Fixpoint join (sep : ustring) (items : list ustring) : ustring :=
  match items with
  | [] => []
  | [x] => x
  | x :: rest => x ++ sep ++ join sep rest
  end.

(** ** Values *)

(** A JavaScript value made of data.  A number is kept as its
    truthiness and the text [Number.prototype.toString] gives it; an
    object is the list of its own properties, whose names are compared
    with the (ASCII) names the route reads. *)
Inductive Val : Type :=
| VUndefined
| VNull
| VBool (b : bool)
| VNumber (is_zero : bool) (rendering : ustring)
| VString (s : ustring)
| VArray (items : list Val)
| VObject (fields : list (string * Val)).

Definition truthy (v : Val) : bool :=
  match v with
  | VUndefined | VNull => false
  | VBool b => b
  | VNumber z _ => negb z
  | VString s => nonempty s
  | VArray _ | VObject _ => true
  end.

(** [v === undefined || v === null] *)
Definition nullish (v : Val) : bool :=
  match v with
  | VUndefined | VNull => true
  | _ => false
  end.

(** The value of the property [name] among [fields]; [undefined]
    when there is none. *)
Fixpoint property (name : string) (fields : list (string * Val)) : Val :=
  match fields with
  | [] => VUndefined
  | (k, v) :: rest => if String.eqb k name then v else property name rest
  end.

(** The object has a property [name] of its own. *)
Definition has_own (name : string) (fields : list (string * Val)) : bool :=
  existsb (fun kv => String.eqb (fst kv) name) fields.

(** [v.name]: reading a property of [undefined] or [null] throws a
    [TypeError]; a boolean, number, string or array has none of the
    properties the route reads. *)
Definition get (v : Val) (name : string) : Outcome Val :=
  match v with
  | VUndefined =>
      Thrown (mkExn ("Cannot read properties of undefined (reading '" ++ name ++ "')"))
  | VNull =>
      Thrown (mkExn ("Cannot read properties of null (reading '" ++ name ++ "')"))
  | VObject fields => Returned (property name fields)
  | _ => Returned VUndefined
  end.

(** [v?.name] *)
Definition opt_get (v : Val) (name : string) : Outcome Val :=
  if nullish v then Returned VUndefined else get v name.

(** [a || b], for a [b] whose evaluation has no effect. *)
Definition or_else (a b : Val) : Val := if truthy a then a else b.

(** Sequencing of evaluations that may throw. *)
Definition and_then {A B} (o : Outcome A) (k : A -> Outcome B) : Outcome B :=
  match o with
  | Returned a => k a
  | Thrown e => Thrown e
  end.

Notation "'let*' x ':=' o 'in' k" := (and_then o (fun x => k))
  (at level 10, x name, o at level 100, k at level 200).

(** The renderings of the items of an array, in order, or the first
    error. *)
Fixpoint sequence (items : list (Outcome ustring)) : Outcome (list ustring) :=
  match items with
  | [] => Returned []
  | Thrown e :: _ => Thrown e
  | Returned x :: rest =>
      match sequence rest with
      | Returned l => Returned (x :: l)
      | Thrown e => Thrown e
      end
  end.

(** The [TypeError]s of conversions; the engine's wording is not
    modelled. *)
Definition NOT_PRIMITIVE : Exn := mkExn "Cannot convert object to primitive value".

Definition NOT_CALLABLE (what : string) : Exn := mkExn (what ++ " is not a function").

Definition NOT_ITERABLE : Exn := mkExn "object is not iterable".

(** The abstract operation [ToString], which is [String(v)]: an array
    joins the conversions of its items with commas, [undefined] and
    [null] items giving the empty string; a plain object gives
    ["[object Object]"], unless it has a property [toString] of its own,
    which (not being a function) makes the conversion throw. *)
Fixpoint ToString (v : Val) : Outcome ustring :=
  match v with
  | VUndefined => Returned (u "undefined")
  | VNull => Returned (u "null")
  | VBool true => Returned (u "true")
  | VBool false => Returned (u "false")
  | VNumber _ text => Returned text
  | VString s => Returned s
  | VArray items =>
      match sequence (List.map (fun i => if nullish i then Returned [] else ToString i) items) with
      | Returned l => Returned (join (u ",") l)
      | Thrown e => Thrown e
      end
  | VObject fields =>
      if has_own "toString" fields then Thrown NOT_PRIMITIVE
      else Returned (u "[object Object]")
  end.

(** [v.toString()] *)
Definition toString (v : Val) : Outcome ustring :=
  match v with
  | VUndefined | VNull => and_then (get v "toString") (fun _ => Returned [])
  | VObject fields =>
      if has_own "toString" fields then Thrown (NOT_CALLABLE "toString")
      else Returned (u "[object Object]")
  | _ => ToString v
  end.

(** [v.replace(/\s+/g, " ")]: only a string has the method. *)
Definition replace_spaces (v : Val) : Outcome ustring :=
  match v with
  | VString s => Returned (collapse false s)
  | VUndefined | VNull => and_then (get v "replace") (fun _ => Returned [])
  | _ => Thrown (NOT_CALLABLE "replace")
  end.

(** The code points of a string: a surrogate pair is one item. *)
Definition is_high (c : N) : bool := (55296 <=? c)%N && (c <=? 56319)%N.

Definition is_low (c : N) : bool := (56320 <=? c)%N && (c <=? 57343)%N.

Fixpoint code_points (s : ustring) : list ustring :=
  match s with
  | [] => []
  | c :: r =>
      match r with
      | d :: r' => if is_high c && is_low d then [c; d] :: code_points r'
                   else [c] :: code_points r
      | [] => [[c]]
      end
  end.

(** What [for (const x of v)] goes through: the items of an array, the
    code points of a string; anything else is not iterable. *)
Definition iterate (v : Val) : Outcome (list Val) :=
  match v with
  | VArray items => Returned items
  | VString s => Returned (List.map VString (code_points s))
  | _ => Thrown NOT_ITERABLE
  end.

(** ** The helpers of the route *)

(** [extractTextFromResponse]: the inner loop pushes the [text] of the
    parts that have a string there. *)
Fixpoint push_texts (items : list Val) (parts : list ustring) : Outcome (list ustring) :=
  match items with
  | [] => Returned parts
  | p :: rest =>
      let* t := get p "text" in
      match t with
      | VString s => push_texts rest (parts ++ [s])
      | _ => push_texts rest parts
      end
  end.

Fixpoint each_candidate (candidates : list Val) (parts : list ustring)
    : Outcome (list ustring) :=
  match candidates with
  | [] => Returned parts
  | c :: rest =>
      let* content := get c "content" in
      let* content_parts := opt_get content "parts" in
      if negb (truthy content_parts) then each_candidate rest parts
      else
        let* items := iterate content_parts in
        let* parts' := push_texts items parts in
        each_candidate rest parts'
  end.

Definition extractTextFromResponse (response : Val) : Outcome ustring :=
  if negb (truthy response) then Returned []
  else
    let* text := get response "text" in
    match text with
    | VString s => Returned s
    | _ =>
        let* c := get response "candidates" in
        let* candidates := iterate (or_else c (VArray [])) in
        let* parts := each_candidate candidates [] in
        Returned (trim (join [10%N] parts))
    end.

Record Citation : Type := mkCitation { title : ustring; snippet : ustring }.

(** [c.title === title && c.snippet === snippet] *)
Definition same (title' snippet' : ustring) (c : Citation) : bool :=
  ueqb (title c) title' && ueqb (snippet c) snippet'.

(** [extractCitationsFromResponse], first loop: the grounding metadata
    of the candidates, under either spelling. *)
Fixpoint collect_meta (candidates : list Val) (allGroundingMeta : list Val)
    : Outcome (list Val) :=
  match candidates with
  | [] => Returned allGroundingMeta
  | c :: rest =>
      let* a := get c "grounding_metadata" in
      let pushed := if truthy a then allGroundingMeta ++ [a] else allGroundingMeta in
      let* b := get c "groundingMetadata" in
      collect_meta rest (if truthy b then pushed ++ [b] else pushed)
  end.

(** [ch.retrieved_context || ch.retrievedContext || ch.web || ch.maps || null] *)
Definition context_of (ch : Val) : Outcome Val :=
  let* a := get ch "retrieved_context" in
  if truthy a then Returned a else
  let* b := get ch "retrievedContext" in
  if truthy b then Returned b else
  let* c := get ch "web" in
  if truthy c then Returned c else
  let* d := get ch "maps" in
  if truthy d then Returned d else Returned VNull.

(** [text.length > 260 ? text.slice(0, 260) + "\u2026" : text] *)
Definition clip (text : ustring) : ustring :=
  if (260 <? length text)%nat then firstn 260 text ++ ELLIPSIS else text.

(** The body of the inner loop up to the test of [exists]: the title
    and the snippet of a chunk; [None] is [continue]. *)
Definition citation_of (ch : Val) : Outcome (option Citation) :=
  let* ctx := context_of ch in
  if negb (truthy ctx) then Returned None
  else
    let* t := get ctx "title" in
    let rawTitle := or_else t (VString (u "GIKI Admissions Policy")) in
    let* x := get ctx "text" in
    let* rawText :=
      (if truthy x then Returned x
       else let* y := get ctx "snippet" in Returned (or_else y (VString []))) in
    let* replaced := replace_spaces (or_else rawText (VString [])) in
    let text := trim replaced in
    if negb (nonempty text) then Returned None
    else
      let snippet := clip text in
      let* title := ToString rawTitle in
      Returned (Some (mkCitation title snippet)).

(** How a loop over chunks ends: at its end, or by the [return] in its
    body. *)
Inductive Flow : Type :=
| Continue (citations : list Citation)
| Return (citations : list Citation).

Fixpoint each_chunk (max : nat) (chunks : list Val) (citations : list Citation)
    : Outcome Flow :=
  match chunks with
  | [] => Returned (Continue citations)
  | ch :: rest =>
      let* found := citation_of ch in
      match found with
      | None => each_chunk max rest citations
      | Some c =>
          let exists_ := existsb (same (title c) (snippet c)) citations in
          let citations' := if negb exists_ then citations ++ [c] else citations in
          if (max <=? length citations')%nat then Returned (Return citations')
          else each_chunk max rest citations'
      end
  end.

Fixpoint each_meta (max : nat) (allGroundingMeta : list Val) (citations : list Citation)
    : Outcome (list Citation) :=
  match allGroundingMeta with
  | [] => Returned citations
  | gm :: rest =>
      let* a := opt_get gm "grounding_chunks" in
      let* chunks :=
        (if truthy a then Returned a
         else let* b := opt_get gm "groundingChunks" in Returned (or_else b (VArray []))) in
      let* items := iterate chunks in
      let* flow := each_chunk max items citations in
      match flow with
      | Return citations' => Returned citations'
      | Continue citations' => each_meta max rest citations'
      end
  end.

Definition extractCitationsFromResponse (response : Val) (max : nat)
    : Outcome (list Citation) :=
  if negb (truthy response) then Returned []
  else
    let* c := get response "candidates" in
    let* candidates := iterate (or_else c (VArray [])) in
    let* allGroundingMeta := collect_meta candidates [] in
    each_meta max allGroundingMeta [].

(** ** The handler *)

(** The two system instructions, by name; their texts are not read by
    the route. *)
Inductive Instruction : Type :=
| UG_SYSTEM_INSTRUCTION
| GRAD_SYSTEM_INSTRUCTION.

(** The argument of [ai.models.generateContent]; [temperature], [topP]
    and [topK] are always 0.2, 0.8 and 40 and are left out. *)
Record GenerateContentParameters : Type := mkParameters {
  model : string;
  contents : ustring;
  systemInstruction : Instruction;
  fileSearchStoreNames : list ustring
}.

(** What is read of [process.env] when the module is loaded. *)
Record ChatEnv : Type := mkChatEnv {
  FILESTORE_UNDERGRAD : option ustring;
  FILESTORE_GRAD : option ustring
}.

(** [x || ""] for a variable of the environment. *)
Definition or_empty (x : option ustring) : ustring := default [] x.

(** The model, over a type [W] of worlds, and the lower-casing of
    [String.prototype.toLowerCase], which is not part of the
    repository. *)
Class Model (W : Type) : Type := {
  svc_generateContent : W -> GenerateContentParameters -> Outcome Val * W;
  toLowerCase : ustring -> ustring
}.

Inductive ChatEvent : Type :=
| EvGenerateContent (params : GenerateContentParameters) (reply : Outcome Val)
| EvError (args : list string).

Definition is_generate (e : ChatEvent) : bool :=
  match e with EvGenerateContent _ _ => true | _ => false end.

(** The body of a [NextResponse.json(...)]. *)
Inductive Body : Type :=
| BodyError (error : string)
| BodyFailure (error details : string)
| BodyAnswer (text : Val) (citations : list Citation).

Record Response : Type := mkResponse { body : Body; status : nat }.

Definition MSG_NO_MESSAGE : string := "No message provided.".

Definition MSG_NO_STORE : string :=
  "File Search store not configured. Please set FILESTORE_UNDERGRAD and FILESTORE_GRAD.".

Definition MSG_NO_TEXT : string :=
  "No text returned from Gemini. Please try again or check your configuration.".

Definition MSG_SORRY : string :=
  "Sorry, I encountered an error while processing your request.".

Section Handler.
Context {W : Type} `{mdl : !Model W}.
Variable cenv : ChatEnv.

Definition UG_STORE : option ustring := FILESTORE_UNDERGRAD cenv.

Definition GRAD_STORE : option ustring := FILESTORE_GRAD cenv.

(** A run: how it ended, the world it left, the events it added. *)
Record Run (A : Type) : Type := mkRun {
  outcome : Outcome A;
  final : W;
  events : list ChatEvent
}.
Arguments mkRun {A} _ _ _.
Arguments outcome {A} _.
Arguments final {A} _.
Arguments events {A} _.

Definition M (A : Type) : Type := W -> Run A.

Definition ret {A} (a : A) : M A := fun w => mkRun (Returned a) w [].

Definition lift {A} (o : Outcome A) : M A := fun w => mkRun o w [].

Definition bind {A B} (m : M A) (k : A -> M B) : M B :=
  fun w =>
    match m w with
    | mkRun (Returned a) w' evs =>
        match k a w' with
        | mkRun o w'' evs' => mkRun o w'' (evs ++ evs')
        end
    | mkRun (Thrown e) w' evs => mkRun (Thrown e) w' evs
    end.

(** [try { m } catch (err) { h err }] *)
Definition try_catch {A} (m : M A) (h : Exn -> M A) : M A :=
  fun w =>
    match m w with
    | mkRun (Returned a) w' evs => mkRun (Returned a) w' evs
    | mkRun (Thrown e) w' evs =>
        match h e w' with
        | mkRun o w'' evs' => mkRun o w'' (evs ++ evs')
        end
    end.

(** [await ai.models.generateContent(params)] *)
Definition generateContent (params : GenerateContentParameters) : M Val :=
  fun w =>
    match svc_generateContent w params with
    | (reply, w') => mkRun reply w' [EvGenerateContent params reply]
    end.

Definition console_error (args : list string) : M unit :=
  fun w => mkRun (Returned tt) w [EvError args].

#[warnings="-notation-overridden"] Local Notation "x <- m ;; k" := (bind m (fun x => k))
  (at level 100, m at next level, right associativity).

(** The handler.  [req_json] is what [req.json()] settles to: [None]
    for a rejected promise. *)
Definition POST (req_json : option Val) : M Response :=
  try_catch
    (let body := default (VObject []) req_json in
     v_message <- lift (get body "message") ;;
     s_message <- lift (toString (or_else v_message (VString []))) ;;
     let message := trim s_message in
     v_type <- lift (get body "type") ;;
     s_type <- lift (toString (or_else v_type (VString (u "undergrad")))) ;;
     let type := toLowerCase s_type in
     if negb (nonempty message) then ret (mkResponse (BodyError MSG_NO_MESSAGE) 400)
     else
       let storeName :=
         if ueqb type (u "grad") then or_empty GRAD_STORE else or_empty UG_STORE in
       if negb (nonempty storeName) then ret (mkResponse (BodyError MSG_NO_STORE) 500)
       else
         let systemInstruction :=
           if ueqb type (u "grad") then GRAD_SYSTEM_INSTRUCTION else UG_SYSTEM_INSTRUCTION in
         response <-
           generateContent
             (mkParameters "gemini-2.5-flash" message systemInstruction [storeName]) ;;
         v_text <- lift (get response "text") ;;
         text <-
           (if nullish v_text then
              s <- lift (extractTextFromResponse response) ;; ret (VString s)
            else ret v_text) ;;
         if negb (truthy text) then ret (mkResponse (BodyError MSG_NO_TEXT) 500)
         else
           citations <- lift (extractCitationsFromResponse response 4) ;;
           ret (mkResponse (BodyAnswer text citations) 200))
    (fun err =>
       _ <- console_error ["Error in /api/chat:"; message err] ;;
       ret (mkResponse (BodyFailure MSG_SORRY (str_or (message err) "Unknown error")) 500)).
End Handler.

Arguments Run W A : clear implicits.
Arguments mkRun {W A} _ _ _.
Arguments outcome {W A} _.
Arguments final {W A} _.
Arguments events {W A} _.

(** ** Notions used to state the properties *)

(** No white space but single spaces: every white-space code unit is a
    space, and none follows another.  [after_space] tells that the code
    unit before was a space. *)
Fixpoint single_spaced (after_space : bool) (s : ustring) : bool :=
  match s with
  | [] => true
  | c :: r =>
      if is_space c then (c =? 32)%N && negb after_space && single_spaced true r
      else single_spaced false r
  end.

(** A snippet as the route makes them. *)
Definition tidy (s : ustring) : Prop :=
  s <> [] /\ length s <= 261 /\ trim s = s /\ single_spaced false s = true /\
  (length s = 261 -> exists p, s = p ++ ELLIPSIS).

(** A response made of candidates, each with the texts of its parts. *)
Definition part_of (text : ustring) : Val := VObject [("text", VString text)].

Definition candidate_of (texts : list ustring) : Val :=
  VObject [("content", VObject [("parts", VArray (List.map part_of texts))])].

Definition response_of (candidates : list (list ustring)) : Val :=
  VObject [("candidates", VArray (List.map candidate_of candidates))].

(** A response grounded in chunks that each have a title and a text,
    as the File Search tool gives them. *)
Definition chunk_of (title text : ustring) : Val :=
  VObject [("retrievedContext",
            VObject [("title", VString title); ("text", VString text)])].

Definition grounded_by (chunks : list (ustring * ustring)) : Val :=
  VObject [("candidates",
            VArray [VObject [("groundingMetadata",
                              VObject [("groundingChunks",
                                        VArray (List.map (fun c => chunk_of (fst c) (snd c))
                                                         chunks))])]])].

(** The citation such a chunk gives, unless its text is blank: the
    title, or the default one, and the text with its white space
    collapsed, trimmed and clipped. *)
Definition cite (chunk : ustring * ustring) : option Citation :=
  let text := trim (collapse false (snd chunk)) in
  if nonempty text then
    Some (mkCitation (if nonempty (fst chunk) then fst chunk else u "GIKI Admissions Policy")
                     (clip text))
  else None.

(** The citations of [cs] that are not in [seen] and do not repeat an
    earlier one, in their order. *)
Fixpoint distinct (seen cs : list Citation) : list Citation :=
  match cs with
  | [] => []
  | c :: rest =>
      if existsb (same (title c) (snippet c)) seen then distinct seen rest
      else c :: distinct (seen ++ [c]) rest
  end.

(** What the loops of [extractCitationsFromResponse] keep: the
    citations are distinct and their snippets are tidy. *)
Definition kept (cs : list Citation) : Prop :=
  NoDup cs /\ Forall (fun c => tidy (snippet c)) cs.

(** The citations a loop over chunks ends with. *)
Definition flow_list (f : Flow) : list Citation :=
  match f with Continue cs | Return cs => cs end.

(** The payload of a request. *)
Definition payload (req_json : option Val) : Val := default (VObject []) req_json.

Section Reading.
Context {W : Type} `{mdl : !Model W}.
Variable cenv : ChatEnv.

(** The message and the type the handler reads from the payload. *)
Definition message_of (body : Val) : Outcome ustring :=
  let* v := get body "message" in
  let* s := toString (or_else v (VString [])) in
  Returned (trim s).

Definition type_of (body : Val) : Outcome ustring :=
  let* v := get body "type" in
  let* s := toString (or_else v (VString (u "undergrad"))) in
  Returned (toLowerCase s).

(** The store and the instruction for a type. *)
Definition store_for (type : ustring) : ustring :=
  if ueqb type (u "grad") then or_empty (GRAD_STORE cenv) else or_empty (UG_STORE cenv).

Definition instruction_for (type : ustring) : Instruction :=
  if ueqb type (u "grad") then GRAD_SYSTEM_INSTRUCTION else UG_SYSTEM_INSTRUCTION.

(** The text of an answer: [response.text ?? extractTextFromResponse(response)]. *)
Definition text_of (response : Val) : Outcome Val :=
  let* v := get response "text" in
  if nullish v then let* s := extractTextFromResponse response in Returned (VString s)
  else Returned v.

(** What the handler logs for the error [e]. *)
Definition LOGGED (e : Exn) : ChatEvent := EvError ["Error in /api/chat:"; message e].

Definition FAILURE (e : Exn) : Response :=
  mkResponse (BodyFailure MSG_SORRY (str_or (message e) "Unknown error")) 500.
End Reading.
End Chat.

(** ** A reference model and sample responses *)

Module ChatRef.
Import Chat.

(** The world is the list of the replies the model will give; with
    none left, the call is rejected. *)
Definition UNAVAILABLE : Exn := mkExn "The model is overloaded. Please try again later.".

Definition reply (w : list (Outcome Val)) (params : GenerateContentParameters)
    : Outcome Val * list (Outcome Val) :=
  match w with
  | [] => (Thrown UNAVAILABLE, [])
  | r :: rest => (r, rest)
  end.

(** Lower-casing of the letters A to Z. *)
Definition lower (s : ustring) : ustring :=
  List.map (fun c => if (65 <=? c)%N && (c <=? 90)%N then (c + 32)%N else c) s.

#[export] Instance model : Model (list (Outcome Val)) := {|
  svc_generateContent := reply;
  toLowerCase := lower
|}.

(** A deployment with both stores, and one with none. *)
Definition stores : ChatEnv := mkChatEnv (Some (u "stores/ug")) (Some (u "stores/grad")).

Definition no_stores : ChatEnv := mkChatEnv None None.

(** A chunk of grounding metadata, in the camel-case spelling. *)
Definition chunk (title : string) (text : ustring) : Val := chunk_of (u title) text.

(** A response with a text and grounding chunks. *)
Definition grounded (text : string) (chunks : list Val) : Val :=
  VObject [("text", VString (u text));
           ("candidates",
            VArray [VObject [("groundingMetadata",
                              VObject [("groundingChunks", VArray chunks)])]])].

(** An answer grounded in three chunks, two of which are the same once
    their white space is collapsed. *)
Definition FEES : Val :=
  grounded "Fees are listed in the policy."
    [chunk "Policy" (u "Tuition  fees are due" ++ [10%N; 9%N] ++ u "each semester. ");
     chunk "Policy" (u "Tuition fees are due each semester.");
     chunk "" (u "Hostel charges apply.")].

(** The citations of [FEES]. *)
Definition TUITION : Citation :=
  mkCitation (u "Policy") (u "Tuition fees are due each semester.").

Definition HOSTEL : Citation :=
  mkCitation (u "GIKI Admissions Policy") (u "Hostel charges apply.").

(** The call made for [question] on the deployment [stores]. *)
Definition ASKED : GenerateContentParameters :=
  mkParameters "gemini-2.5-flash" (u "What are the fees?") GRAD_SYSTEM_INSTRUCTION
               [u "stores/grad"].

Definition question : Val :=
  VObject [("message", VString (u "  What are the fees? ")); ("type", VString (u "Grad"))].
End ChatRef.

(** * The chat page: rendering of a message *)

(** The helpers [renderMessageContent] and [formatInlineText] of the
    chat page.  A React node is kept as the data it is built from:
    strings, [<strong>] elements, list items and paragraphs, with the
    index their [key] is made of. *)
Module Page.
Import Chat.

(** [x || "undergrad"] for a string that may be [null]. *)
Definition or_empty_default (x : option ustring) : ustring :=
  match x with
  | Some s => if nonempty s then s else u "undergrad"
  | None => u "undergrad"
  end.

(** ** The regular expressions *)

(** What [.] does not match. *)
Definition is_line_terminator (c : N) : bool :=
  (c =? 10)%N || (c =? 13)%N || (c =? 8232)%N || (c =? 8233)%N.

(** [s] starts with two asterisks; what follows them. *)
Definition opens (s : ustring) : option ustring :=
  match s with
  | a :: b :: r => if (a =? 42)%N && (b =? 42)%N then Some r else None
  | _ => None
  end.

(** [(.+?)\*\*] at the start of [s]: the group takes one code unit
    that is not a line terminator, and then as few more as are needed
    for two asterisks to follow.  The result is the group and what
    follows the match. *)
Fixpoint group (s : ustring) : option (ustring * ustring) :=
  match s with
  | [] => None
  | c :: r =>
      if is_line_terminator c then None
      else
        match opens r with
        | Some rest => Some ([c], rest)
        | None =>
            match group r with
            | Some (content, rest) => Some (c :: content, rest)
            | None => None
            end
        end
  end.

(** [/\*\*(.+?)\*\*/] at the start of [s]. *)
Definition bold_at (s : ustring) : option (ustring * ustring) :=
  match opens s with
  | Some r => group r
  | None => None
  end.

(** [boldRegex.exec(text)] from the start of [s]: the leftmost match.
    The result is what comes before the match, the group, and what
    follows the match. *)
Fixpoint exec (s : ustring) : option (ustring * ustring * ustring) :=
  match bold_at s with
  | Some (content, rest) => Some ([], content, rest)
  | None =>
      match s with
      | [] => None
      | c :: r =>
          match exec r with
          | Some (before, content, rest) => Some (c :: before, content, rest)
          | None => None
          end
      end
  end.

(** ** [formatInlineText] *)

Inductive Segment : Type :=
| Text (s : ustring)
| Strong (boldIndex : nat) (content : ustring).

(** The loop, from the text [s] left after the last match.  Each round
    consumes a match, which is not empty; [fuel] bounds the rounds, and
    the length of the text is enough ([scan_fuel]). *)
Fixpoint scan (fuel : nat) (s : ustring) (boldIndex : nat) : list Segment :=
  match fuel with
  | 0 => []
  | S fuel' =>
      match exec s with
      | None => if nonempty s then [Text s] else []
      | Some (before, content, rest) =>
          (if nonempty before then [Text before] else []) ++
          Strong boldIndex content :: scan fuel' rest (S boldIndex)
      end
  end.

Definition formatInlineText (text : ustring) : list Segment :=
  match scan (S (length text)) text 0 with
  | [] => [Text text]
  | segments => segments
  end.

(** ** [renderMessageContent] *)

(** [s.split("\n")]: the first piece goes on until the first newline. *)
Fixpoint split_lines (s : ustring) : list ustring :=
  match s with
  | [] => [[]]
  | c :: r =>
      if (c =? 10)%N then [] :: split_lines r
      else
        match split_lines r with
        | p :: ps => (c :: p) :: ps
        | [] => [[c]]
        end
  end.

(** Where a scan for [\n{2,}] stands: in a piece, after one newline
    that may start a separator, or inside a separator. *)
Inductive Gap : Type := InPiece | AfterNewline | InSeparator.

Definition extend (c : N) (pieces : list ustring) : list ustring :=
  match pieces with
  | p :: ps => (c :: p) :: ps
  | [] => [[c]]
  end.

(** [s.split(/\n{2,}/)]: the pieces between the runs of two newlines or
    more.  The first piece of the result continues the current one. *)
Fixpoint split_blocks_from (gap : Gap) (s : ustring) : list ustring :=
  match s with
  | [] =>
      match gap with
      | AfterNewline => [[10%N]]
      | _ => [[]]
      end
  | c :: r =>
      if (c =? 10)%N then
        match gap with
        | InPiece => split_blocks_from AfterNewline r
        | AfterNewline => [] :: split_blocks_from InSeparator r
        | InSeparator => split_blocks_from InSeparator r
        end
      else
        match gap with
        | AfterNewline => extend 10%N (extend c (split_blocks_from InPiece r))
        | _ => extend c (split_blocks_from InPiece r)
        end
  end.

Definition split_blocks (s : ustring) : list ustring := split_blocks_from InPiece s.

(** [/^[-*•]\s+/.test(line)] *)
Definition is_bullet (c : N) : bool := (c =? 45)%N || (c =? 42)%N || (c =? 8226)%N.

Definition is_item (line : ustring) : bool :=
  match line with
  | c :: d :: _ => is_bullet c && is_space d
  | _ => false
  end.

(** [line.replace(/^[-*•]\s+/, "")] *)
Definition strip_bullet (line : ustring) : ustring :=
  if is_item line then trimStart (tl line) else line.

(** [pieces.map((x) => x.trim()).filter(Boolean)] *)
Definition trimmed_pieces (pieces : list ustring) : list ustring :=
  List.filter nonempty (List.map trim pieces).

(** The elements: a list with its items, a paragraph with its lines,
    and the paragraph of the last [return], which holds the block as it
    is. *)
Inductive Block : Type :=
| Bullets (blockIndex : nat) (items : list (list Segment))
| Paragraph (blockIndex : nat) (lines : list (list Segment))
| Whole (blockIndex : nat) (content : list Segment).

Definition render_block (blockIndex : nat) (block : ustring) : Block :=
  let lines := trimmed_pieces (split_lines block) in
  let isList := (0 <? length lines)%nat && forallb is_item lines in
  if isList then
    Bullets blockIndex (List.map (fun line => formatInlineText (strip_bullet line)) lines)
  else if (0 <? length lines)%nat then
    Paragraph blockIndex (List.map formatInlineText lines)
  else Whole blockIndex (formatInlineText block).

(** [blocks.map((block, blockIndex) => ...)] from the index [i]. *)
Fixpoint render_blocks (i : nat) (blocks : list ustring) : list Block :=
  match blocks with
  | [] => []
  | block :: rest => render_block i block :: render_blocks (S i) rest
  end.

(** [None] is [null]. *)
Definition renderMessageContent (content : ustring) : option (list Block) :=
  let trimmed := trim content in
  if negb (nonempty trimmed) then None
  else
    let blocks := trimmed_pieces (split_blocks trimmed) in
    let normalizedBlocks := if (0 <? length blocks)%nat then blocks else [trimmed] in
    Some (render_blocks 0 normalizedBlocks).

(** ** The question sent to the chat route *)

Section Asking.
Context {W : Type} `{mdl : !Model W}.

(** [routeType], from what [searchParams.get("type")] gives ([None] is
    [null]). *)
Definition routeType (param : option ustring) : ustring :=
  let typeParam := toLowerCase (or_empty_default param) in
  if ueqb typeParam (u "grad") then u "grad" else u "undergrad".

(** The body of the request that [handleSubmit] sends for the text
    [input] of the box, when it sends one: not for a blank text, nor
    while an answer is awaited. *)
Definition chat_request (input : ustring) (loading : bool) (param : option ustring)
    : option Val :=
  let trimmed := trim input in
  if negb (nonempty trimmed) || loading then None
  else Some (VObject [("message", VString trimmed); ("type", VString (routeType param))]).
End Asking.

(** ** Notions used to state the properties *)

(** The text a segment stands for, with the markers of a bold one. *)
Definition source (seg : Segment) : ustring :=
  match seg with
  | Text s => s
  | Strong _ content => [42%N; 42%N] ++ content ++ [42%N; 42%N]
  end.

Definition sources (segs : list Segment) : ustring := concat (List.map source segs).

(** The indices of the bold segments, in order. *)
Definition bold_indices (segs : list Segment) : list nat :=
  omap (fun seg => match seg with Strong i _ => Some i | Text _ => None end) segs.

(** No line terminator. *)
Definition plain (content : ustring) : bool :=
  forallb (fun c => negb (is_line_terminator c)) content.

(** A bold segment is not empty and holds no line terminator; a text
    segment is not empty. *)
Definition well_formed (seg : Segment) : Prop :=
  match seg with
  | Text s => s <> []
  | Strong _ content => content <> [] /\ plain content = true
  end.

Definition is_whole (b : Block) : bool :=
  match b with Whole _ _ => true | _ => false end.

Definition block_index (b : Block) : nat :=
  match b with Bullets i _ | Paragraph i _ | Whole i _ => i end.

(** The lines or items of a block. *)
Definition rows (b : Block) : list (list Segment) :=
  match b with
  | Bullets _ items => items
  | Paragraph _ lines => lines
  | Whole _ content => [content]
  end.

(** A row stands for a text that is not empty and is trimmed. *)
Definition proper (row : list Segment) : Prop :=
  sources row <> [] /\ trim (sources row) = sources row /\ Forall well_formed row.
End Page.

(** * The chat page: the feedback it submits *)

(** [sendFeedback] of the chat page, as far as the request it sends:
    the message it looks up, the question before it, and the body given
    to [JSON.stringify].  The body is what the feedback route reads as
    its payload, so strings are [string]s here, as they are there.  The
    updates of the component state are not part of the model. *)
Module Form.

Inductive Role : Type := user | assistant.

Inductive FeedbackStatus : Type := positive | negative.

(** The two values of [routeType]. *)
Inductive RouteType : Type := undergrad | grad.

(** The feedback a message has once it is rated; its fields are in a
    module of their own, as [status] is also the code of a response. *)
Module MessageFeedback.
Record t : Type := mk {
  status : FeedbackStatus;
  comment : option string;
  submittedAt : string
}.
End MessageFeedback.

(** A message of the conversation; its citations are not read by
    [sendFeedback]. *)
Record ChatMessage : Type := mkMessage {
  id : nat;
  role : Role;
  content : string;
  timestamp : string;
  feedback : option MessageFeedback.t
}.

Definition status_name (f : FeedbackStatus) : string :=
  match f with positive => "positive" | negative => "negative" end.

Definition route_name (t : RouteType) : string :=
  match t with undergrad => "undergrad" | grad => "grad" end.

(** [friendlyTypeName] *)
Definition friendlyTypeName (routeType : RouteType) : string :=
  match routeType with
  | undergrad => "Undergraduate Admissions"
  | grad => "Graduate Admissions"
  end.

(** [m.id === messageId] *)
Definition has_id (messageId : nat) (m : ChatMessage) : bool := (id m =? messageId)%nat.

(** [m.role === "user"] *)
Definition is_user (m : ChatMessage) : bool :=
  match role m with user => true | assistant => false end.

(** [l.findIndex(p)]; [None] is -1. *)
Fixpoint findIndex (p : ChatMessage -> bool) (l : list ChatMessage) : option nat :=
  match l with
  | [] => None
  | m :: rest => if p m then Some 0 else option_map S (findIndex p rest)
  end.

(** [[...messages.slice(0, targetIndex)].reverse().find((m) => m.role === "user")],
    when [targetIndex > -1]. *)
Definition lastUserMessage (messages : list ChatMessage) (messageId : nat)
    : option ChatMessage :=
  match findIndex (has_id messageId) messages with
  | Some targetIndex => List.find is_user (rev (firstn targetIndex messages))
  | None => None
  end.

(** [lastUserMessage?.content || ""] *)
Definition lastQuestion (messages : list ChatMessage) (messageId : nat) : string :=
  match lastUserMessage messages messageId with
  | Some m => str_or (content m) ""
  | None => ""
  end.

(** An item of [conversationPayload]. *)
Definition conversation_item (m : ChatMessage) : Json :=
  JObject [("role", JString (match role m with assistant => "bot" | user => "user" end));
           ("message", JString (content m));
           ("timestamp", JString (timestamp m))].

Section Sending.
Context `{rt : JsRuntime}.

(** The body of the request of [sendFeedback], when it sends one: not
    for a message that is not in the conversation, nor for one that has
    its feedback already.  [comment] is [None] when the argument is left
    out; [now] is the clock of the page.  The body is the value given
    to [JSON.stringify]; the route reads it back with [req.json()]. *)
Definition feedback_request (messages : list ChatMessage) (messageId : nat)
    (feedbackType : FeedbackStatus) (comment : option string) (sessionId : string)
    (routeType : RouteType) (now : Instant) : option Json :=
  match List.find (has_id messageId) messages with
  | None => None
  | Some targetMessage =>
      match feedback targetMessage with
      | Some _ => None
      | None =>
          Some (JObject
                  [("timestamp", JString (toISOString now));
                   ("feedbackType", JString (status_name feedbackType));
                   ("userComment", JString (str_or (default "" comment) ""));
                   ("lastQuestion", JString (lastQuestion messages messageId));
                   ("lastResponse", JString (content targetMessage));
                   ("fullConversation", JArray (List.map conversation_item messages));
                   ("sessionId", JString sessionId);
                   ("type", JString (friendlyTypeName routeType));
                   ("admissionsType", JString (route_name routeType))])
      end
  end.

(** The row the feedback route stores for such a request. *)
Definition stored_row (messages : list ChatMessage) (messageId : nat)
    (targetMessage : ChatMessage) (feedbackType : FeedbackStatus)
    (comment : option string) (sessionId : string) (routeType : RouteType)
    (now : Instant) : list string :=
  [toISOString now; status_name feedbackType; default "" comment;
   lastQuestion messages messageId; content targetMessage;
   JSON_stringify (JArray (List.map conversation_item messages)); sessionId;
   friendlyTypeName routeType].
End Sending.

(** [submitNegativeFeedback]: the comment it passes on, if any; [None]
    is the case where it asks for a comment instead of sending. *)
Definition negative_comment (typed : option string) : option string :=
  let comment := trim (default "" typed) in
  if nonempty comment then Some comment else None.
End Form.

(** A reference conversation: the greeting, two questions and their
    answers, and the rating of the second answer. *)
Module FormRef.
Import Ref Form.

Definition GREETING : ChatMessage := mkMessage 1 assistant "Ask me anything." "1" None.
Definition Q1 : ChatMessage := mkMessage 10 user "fees?" "2" None.
Definition A1 : ChatMessage := mkMessage 11 assistant "See the fee table." "3" None.
Definition Q2 : ChatMessage := mkMessage 20 user "hostel?" "4" None.
Definition A2 : ChatMessage := mkMessage 21 assistant "..." "5" None.

Definition TALK : list ChatMessage := [GREETING; Q1; A1; Q2; A2].

(** The body sent when the second answer is rated down at tick 6. *)
Definition RATING : Json :=
  default JNull
    (feedback_request (rt := runtime) TALK 21 negative (Some "too vague") "sess_1" undergrad 6).
End FormRef.

(** * Properties *)

(** ** Running the route symbolically *)

(** Unfolds the monad and the primitives, down to the next call to the
    environment. *)
Ltac run_cbv :=
  cbv beta iota zeta delta
    [bind try_catch ret throw lift call prepend get_cached set_cached get_client
     set_client get_credentials console_warn console_error new_Date
     spreadsheets_get spreadsheets_create values_update batchUpdate_addSheet
     values_append readFile writeFile world proc events outcome final
     cachedSpreadsheetId credentials sheetsClientPromise app prop field text].

(** The same, leaving list concatenation alone (for runs whose stages are
    kept abstract). *)
Ltac run_cbv_stages :=
  cbv beta iota zeta delta
    [bind try_catch ret throw lift call prepend get_cached set_cached get_client
     set_client get_credentials console_warn console_error new_Date
     spreadsheets_get spreadsheets_create values_update batchUpdate_addSheet
     values_append readFile writeFile world proc events outcome final
     cachedSpreadsheetId credentials sheetsClientPromise prop field text].

(** Case analysis on the reply of the next call. *)
Ltac run_call :=
  match goal with
  | |- context [svc_get ?xw ?xi ?xg] =>
      let E := fresh "Eget" in destruct (svc_get xw xi xg) as [[?d|?e] ?w] eqn:E
  | |- context [svc_create ?xw ?xa ?xb ?xc] =>
      let E := fresh "Ecreate" in destruct (svc_create xw xa xb xc) as [[[?id|]|?e] ?w] eqn:E
  | |- context [svc_readFile ?xw ?xp] =>
      let E := fresh "Eread" in destruct (svc_readFile xw xp) as [[?stored|?e] ?w] eqn:E
  | |- context [svc_writeFile ?xw ?xp ?xd] =>
      let E := fresh "Ewrite" in destruct (svc_writeFile xw xp xd) as [[[]|?e] ?w] eqn:E
  | |- context [svc_values_update ?xw ?xi ?xr ?xv] =>
      let E := fresh "Eupdate" in destruct (svc_values_update xw xi xr xv) as [[[]|?e] ?w] eqn:E
  | |- context [svc_add_sheet ?xw ?xi ?xt ?xf] =>
      let E := fresh "Eadd" in destruct (svc_add_sheet xw xi xt xf) as [[[]|?e] ?w] eqn:E
  | |- context [svc_values_append ?xw ?xi ?xr ?xv] =>
      let E := fresh "Eappend" in destruct (svc_values_append xw xi xr xv) as [[[]|?e] ?w] eqn:E
  | |- context [svc_now ?xw] =>
      let E := fresh "Enow" in destruct (svc_now xw) as [?t ?w] eqn:E
  end.

(** Case analysis on the next test of a string. *)
Ltac run_test :=
  match goal with
  | |- context [if nonempty ?xs then _ else _] =>
      let E := fresh "Enonempty" in destruct (nonempty xs) eqn:E
  end.

Ltac run_all := run_cbv; repeat (first [run_test | run_call]; run_cbv).

(** Case analysis on the next conversion of a payload value. *)
Ltac run_convert :=
  match goal with
  | |- context [or_empty_toString ?xv] =>
      let E := fresh "Econv" in destruct (or_empty_toString xv) as [?str|?e] eqn:E
  end.

Section MonadFacts.
Context `{rt : JsRuntime} {W : Type} `{svc : !Service W}.

Lemma outcome_prepend {A} evs (r : Run W A) : outcome (prepend evs r) = outcome r.
Proof. now destruct r. Qed.

Lemma events_prepend {A} evs (r : Run W A) : events (prepend evs r) = evs ++ events r.
Proof. now destruct r. Qed.

Lemma bind_returned {A B} (m : M W A) (k : A -> M W B) s a :
  outcome (m s) = Returned a ->
  bind m k s = prepend (events (m s)) (k a (final (m s))).
Proof. unfold bind. destruct (m s) as [[?|?] ? ?]; simpl; congruence. Qed.
End MonadFacts.

(** ** The resolver follows the fall-through of the specification *)

Section ResolverFacts.
Context `{rt : JsRuntime} {W : Type} `{svc : !Service W}.
Variable penv : ProcessEnv.
Variable sheets : SheetsClient.

Lemma or_else_resolved (m : M W (option string)) k s id :
  outcome (m s) = Returned (Some id) ->
  or_else m k s = mkRun (Returned id) (final (m s)) (events (m s)).
Proof.
  intros H. unfold or_else. rewrite (bind_returned _ _ _ _ H).
  unfold ret, prepend. now rewrite app_nil_r.
Qed.

Lemma or_else_fell (m : M W (option string)) k s :
  outcome (m s) = Returned None ->
  or_else m k s = prepend (events (m s)) (k (final (m s))).
Proof. intros H. unfold or_else. now rewrite (bind_returned _ _ _ _ H). Qed.

Lemma verify_env_tier s :
  exists o, outcome (verify_env penv sheets s) = Returned o /\
            config_tier penv (events (verify_env penv sheets s)) o.
Proof.
  destruct s as [[c cached client] w]. unfold verify_env. run_all;
    eexists; (split; [reflexivity|]); now constructor.
Qed.

Lemma verify_file_tier s :
  exists o, outcome (verify_file penv sheets s) = Returned o /\
            file_tier penv (events (verify_file penv sheets s)) o.
Proof.
  destruct s as [[c cached client] w]. unfold verify_file. run_all;
    eexists; (split; [reflexivity|]); now constructor.
Qed.

Lemma create_fallback_tier s :
  create_tier penv (events (create_fallback penv sheets s))
                   (outcome (create_fallback penv sheets s)).
Proof.
  destruct s as [[c cached client] w]. unfold create_fallback. run_all;
    constructor; simpl; now rewrite ?Enonempty.
Qed.

Lemma lower_tiers_fallthrough s :
  fallthrough penv (events (lower_tiers penv sheets s)) (outcome (lower_tiers penv sheets s)).
Proof.
  unfold lower_tiers.
  destruct (verify_env_tier s) as [[id|] [Ho Ht]].
  - rewrite (or_else_resolved _ _ _ _ Ho). simpl. now apply by_config.
  - rewrite (or_else_fell _ _ _ Ho), outcome_prepend, events_prepend.
    set (s2 := final (verify_env penv sheets s)).
    destruct (verify_file_tier s2) as [[id|] [Ho3 Ht3]].
    + rewrite (or_else_resolved _ _ _ _ Ho3). simpl. now apply by_file.
    + rewrite (or_else_fell _ _ _ Ho3), outcome_prepend, events_prepend.
      apply by_creation; auto using create_fallback_tier.
Qed.

(** The three ways of the first block. *)
Lemma verify_cached_run s :
  let cached := cachedSpreadsheetId (proc s) in
  (nonempty cached = false /\
   verify_cached sheets s = mkRun (Returned None) s [])
  \/ (nonempty cached = true /\ exists d w',
        svc_get (world s) cached None = (Returned d, w') /\
        verify_cached sheets s =
          mkRun (Returned (Some cached)) (mkSt (proc s) w')
                [EvGet cached None (Returned d)])
  \/ (nonempty cached = true /\ exists e w',
        svc_get (world s) cached None = (Thrown e, w') /\
        verify_cached sheets s =
          mkRun (Returned None) (mkSt (cleared (proc s)) w')
                [EvGet cached None (Thrown e); WARN_STALE e; EvSetCached ""]).
Proof.
  destruct s as [[c cached client] w]. unfold verify_cached, cleared. run_cbv.
  destruct (nonempty cached) eqn:Hc; run_cbv; [|now left].
  right. destruct (svc_get w cached None) as [[d|e] w'] eqn:Hget; run_cbv.
  - left. split; [reflexivity|]. now exists d, w'.
  - right. split; [reflexivity|]. now exists e, w'.
Qed.

Lemma ensureSpreadsheetId_unfold :
  ensureSpreadsheetId penv sheets = or_else (verify_cached sheets) (lower_tiers penv sheets).
Proof. reflexivity. Qed.

(** The events of a resolution and the way it ends are those the
    specification's algorithm allows. *)
Lemma ensureSpreadsheetId_resolution s :
  resolution penv (cachedSpreadsheetId (proc s))
    (events (ensureSpreadsheetId penv sheets s))
    (outcome (ensureSpreadsheetId penv sheets s)).
Proof.
  rewrite ensureSpreadsheetId_unfold.
  destruct (verify_cached_run s) as [[Hc Hr]|[[Hc (d & w' & Hget & Hr)]|[Hc (e & w' & Hget & Hr)]]].
  - rewrite or_else_fell by now rewrite Hr.
    rewrite outcome_prepend, events_prepend, Hr. simpl.
    apply memo_absent; auto using lower_tiers_fallthrough.
  - rewrite (or_else_resolved _ _ _ (cachedSpreadsheetId (proc s))) by now rewrite Hr.
    rewrite Hr. simpl. now apply memo_accessible.
  - rewrite or_else_fell by now rewrite Hr.
    rewrite outcome_prepend, events_prepend, Hr.
    apply (memo_stale penv _ e); auto using lower_tiers_fallthrough.
Qed.

(** The module variables after a resolution: only [cachedSpreadsheetId]
    may have changed, and its value is the last one assigned in the
    events. *)
Lemma ensureSpreadsheetId_proc s :
  proc (final (ensureSpreadsheetId penv sheets s)) =
  mkProc (credentials (proc s))
         (cached_after (events (ensureSpreadsheetId penv sheets s))
                       (cachedSpreadsheetId (proc s)))
         (sheetsClientPromise (proc s)).
Proof.
  destruct s as [[c cached client] w].
  unfold ensureSpreadsheetId, lower_tiers, or_else, verify_cached, verify_env, verify_file,
    create_fallback.
  run_all; reflexivity.
Qed.
End ResolverFacts.

(** ** Facts about the fall-through relations *)

Section FallthroughFacts.
Context `{rt : JsRuntime}.
Variable penv : ProcessEnv.

Lemma cached_after_app evs1 evs2 v :
  cached_after (evs1 ++ evs2) v = cached_after evs2 (cached_after evs1 v).
Proof.
  revert v. induction evs1 as [|e evs1 IH]; intros v; [reflexivity|].
  destruct e; simpl; apply IH.
Qed.

Lemma nonempty_false s : nonempty s = false -> s = "".
Proof. now destruct s. Qed.

(** A tier that falls through memoizes nothing and creates nothing; a
    tier that resolves memoizes what it resolves, after verifying it. *)
Lemma config_tier_None evs :
  config_tier penv evs None ->
  Forall (fun e => is_side_effect e = true -> exists id g x, e = EvGet id g (Thrown x)) evs.
Proof.
  inversion 1; subst; repeat first [apply Forall_nil_2 | apply Forall_cons_2]; simpl;
    first [discriminate | intros _; solve [repeat eexists]].
Qed.

Lemma file_tier_None evs :
  file_tier penv evs None ->
  Forall (fun e => is_side_effect e = true ->
                   (exists id g x, e = EvGet id g (Thrown x)) \/
                   (exists p x, e = EvReadFile p x)) evs.
Proof.
  inversion 1; subst; repeat first [apply Forall_nil_2 | apply Forall_cons_2]; simpl;
    first [discriminate
          | intros _; first [left; solve [repeat eexists] | right; solve [repeat eexists]]].
Qed.

Lemma config_tier_Some evs id :
  config_tier penv evs (Some id) ->
  nonempty id = true /\ exists d, evs = [EvGet id None (Returned d); EvSetCached id].
Proof. inversion 1; subst; eauto. Qed.

Lemma file_tier_Some evs id :
  file_tier penv evs (Some id) ->
  nonempty id = true /\
  exists stored d, evs = [EvReadFile (SHEET_ID_CACHE_PATH penv) (Returned stored);
                          EvGet id None (Returned d); EvSetCached id].
Proof. inversion 1; subst; eauto. Qed.

Lemma create_tier_Returned evs id :
  create_tier penv evs (Returned id) ->
  nonempty id = true /\
  evs = [WARN_CREATING; CREATE penv (Returned (Some id)); EvSetCached id;
         EvWriteFile (SHEET_ID_CACHE_PATH penv) id (Returned tt);
         WRITE_HEADER penv id (Returned tt);
         EvConsoleWarn [("Created fallback spreadsheet with ID " ++ id ++ ". Share this sheet with stakeholders as needed.")%string]].
Proof. inversion 1; subst; eauto. Qed.

Lemma config_tier_cached evs o v :
  config_tier penv evs o -> cached_after evs v = default v o.
Proof. inversion 1; subst; reflexivity. Qed.

Lemma file_tier_cached evs o v :
  file_tier penv evs o -> cached_after evs v = default v o.
Proof. inversion 1; subst; reflexivity. Qed.

(** What a resolution that returns leaves memoized: the identifier it
    returns, which is not empty. *)
Lemma fallthrough_Returned evs id v :
  fallthrough penv evs (Returned id) ->
  nonempty id = true /\ cached_after evs v = id.
Proof.
  inversion 1 as [? ? Hc|? ? ? Hc Hf|? ? ? ? Hc Hf Hn]; subst.
  - split; [now apply config_tier_Some in Hc|]. now rewrite (config_tier_cached _ _ _ Hc).
  - split; [now apply file_tier_Some in Hf|].
    now rewrite cached_after_app, (file_tier_cached _ _ _ Hf).
  - apply create_tier_Returned in Hn as [Hid ->]. split; [assumption|].
    now rewrite !cached_after_app.
Qed.

Lemma resolution_Returned cached evs id :
  resolution penv cached evs (Returned id) ->
  nonempty id = true /\ cached_after evs cached = id.
Proof.
  inversion 1 as [d Hc|? ? Hc Hf|e ? ? Hc Hf]; subst.
  - now split.
  - now apply fallthrough_Returned.
  - rewrite cached_after_app. now apply fallthrough_Returned.
Qed.

Lemma harmless_config evs : config_tier penv evs None -> Forall harmless evs.
Proof.
  intros H. eapply Forall_impl; [apply config_tier_None, H|].
  intros e He Hs. left. auto.
Qed.

Lemma harmless_file evs : file_tier penv evs None -> Forall harmless evs.
Proof.
  intros H. eapply Forall_impl; [apply file_tier_None, H|].
  intros e He Hs. destruct (He Hs); auto.
Qed.

Lemma harmless_not_create e : harmless e -> is_create e = false.
Proof.
  intros H. destruct e; try reflexivity.
  destruct H as [(?&?&?&H)|[(?&?&H)|H]]; [reflexivity|..]; discriminate.
Qed.

Lemma harmless_not_writeFile e : harmless e -> is_writeFile e = false.
Proof.
  intros H. destruct e; try reflexivity.
  destruct H as [(?&?&?&H)|[(?&?&H)|H]]; [reflexivity|..]; discriminate.
Qed.

Lemma harmless_cached evs v :
  Forall harmless evs -> nonempty v = false -> cached_after evs v = "".
Proof.
  intros H. revert v. induction H as [|e evs He _ IH]; intros v Hv.
  - now apply nonempty_false.
  - destruct e; simpl; try now apply IH.
    destruct He as [(?&?&?&H)|[(?&?&H)|H]]; [reflexivity|..]; try discriminate.
    injection H as ->. now apply IH.
Qed.

Lemma In_harmless_create evs t tab f r :
  Forall harmless evs -> ~ In (EvCreate t tab f r) evs.
Proof.
  intros H Hin. rewrite Forall_forall in H.
  apply list_elem_of_In in Hin.
  apply H, harmless_not_create in Hin. discriminate.
Qed.

(** Creation that returns no identifier ends the resolution: it is
    the last event, the error is the provisioning error, and what came
    before changed nothing. *)
Lemma create_tier_no_identifier evs r t tab f o :
  create_tier penv evs r ->
  In (EvCreate t tab f (Returned o)) evs ->
  no_identifier o = true ->
  r = Thrown (mkExn MSG_CREATE_FAILED) /\
  evs = [WARN_CREATING; EvCreate t tab f (Returned o)].
Proof.
  intros H Hin Ho.
  inversion H as [e|o' Ho'|id e Hid|id e Hid|id Hid]; subst;
    unfold CREATE, WARN_CREATING in *; simpl in Hin;
    repeat match goal with
      | H : _ \/ _ |- _ => destruct H
      | H : False |- _ => destruct H
      | H : _ = EvCreate _ _ _ _ |- _ => discriminate H
      | H : EvCreate _ _ _ _ = EvCreate _ _ _ _ |- _ => injection H as <- <- <- <-
      end;
    try (simpl in Ho; rewrite Hid in Ho; discriminate).
  now split.
Qed.

Lemma fallthrough_no_identifier evs r t tab f o :
  fallthrough penv evs r ->
  In (EvCreate t tab f (Returned o)) evs ->
  no_identifier o = true ->
  r = Thrown (mkExn MSG_CREATE_FAILED) /\
  exists pre, evs = pre ++ [EvCreate t tab f (Returned o)] /\ Forall harmless pre.
Proof.
  intros H Hin Ho.
  inversion H as [? ? Hc|? ? ? Hc Hf|evs2 evs3 evs4 ? Hc Hf Hn]; subst.
  - apply config_tier_Some in Hc as [_ [d ->]]. simpl in Hin.
    destruct Hin as [Hin|[Hin|[]]]; discriminate.
  - apply harmless_config in Hc. apply file_tier_Some in Hf as [_ (st & d & ->)].
    apply in_app_or in Hin as [Hin|Hin].
    + now apply In_harmless_create in Hin.
    + simpl in Hin. destruct Hin as [Hin|[Hin|[Hin|[]]]]; discriminate.
  - apply harmless_config in Hc. apply harmless_file in Hf.
    apply in_app_or in Hin as [Hin|Hin]; [now apply In_harmless_create in Hin|].
    apply in_app_or in Hin as [Hin|Hin]; [now apply In_harmless_create in Hin|].
    destruct (create_tier_no_identifier _ _ _ _ _ _ Hn Hin Ho) as [-> ->].
    split; [reflexivity|].
    exists (evs2 ++ evs3 ++ [WARN_CREATING]). split.
    + now rewrite <- !app_assoc.
    + rewrite !Forall_app. repeat split; auto.
      apply Forall_cons_2; [discriminate|apply Forall_nil_2].
Qed.

(** The cache file is written only with an identifier that creation
    has just returned. *)
Lemma create_tier_writeFile evs r p data x :
  create_tier penv evs r ->
  In (EvWriteFile p data x) evs ->
  p = SHEET_ID_CACHE_PATH penv /\ nonempty data = true /\
  exists post, evs = [WARN_CREATING; CREATE penv (Returned (Some data)); EvSetCached data;
                      EvWriteFile p data x] ++ post.
Proof.
  intros H Hin.
  inversion H as [e|o' Ho'|id e Hid|id e Hid|id Hid]; subst;
    unfold CREATE, WARN_CREATING, WRITE_HEADER in *; simpl in Hin;
    repeat match goal with
      | H : _ \/ _ |- _ => destruct H
      | H : False |- _ => destruct H
      | H : _ = EvWriteFile _ _ _ |- _ => discriminate H
      | H : EvWriteFile _ _ _ = EvWriteFile _ _ _ |- _ => injection H as <- <- <-
      end; (split; [reflexivity|split; [assumption|eexists; reflexivity]]).
Qed.

Lemma In_harmless_writeFile evs p data x :
  Forall harmless evs -> ~ In (EvWriteFile p data x) evs.
Proof.
  intros H Hin. rewrite Forall_forall in H.
  apply list_elem_of_In in Hin.
  apply H, harmless_not_writeFile in Hin. discriminate.
Qed.

Lemma fallthrough_writeFile evs r p data x :
  fallthrough penv evs r ->
  In (EvWriteFile p data x) evs ->
  p = SHEET_ID_CACHE_PATH penv /\ nonempty data = true /\
  exists pre post,
    evs = pre ++ [CREATE penv (Returned (Some data)); EvSetCached data;
                  EvWriteFile p data x] ++ post.
Proof.
  intros H Hin.
  inversion H as [? ? Hc|? ? ? Hc Hf|evs2 evs3 evs4 ? Hc Hf Hn]; subst.
  - apply config_tier_Some in Hc as [_ [d ->]]. simpl in Hin.
    destruct Hin as [Hin|[Hin|[]]]; discriminate.
  - apply harmless_config in Hc. apply file_tier_Some in Hf as [_ (st & d & ->)].
    apply in_app_or in Hin as [Hin|Hin].
    + now apply In_harmless_writeFile in Hin.
    + simpl in Hin. destruct Hin as [Hin|[Hin|[Hin|[]]]]; discriminate.
  - apply harmless_config in Hc. apply harmless_file in Hf.
    apply in_app_or in Hin as [Hin|Hin]; [now apply In_harmless_writeFile in Hin|].
    apply in_app_or in Hin as [Hin|Hin]; [now apply In_harmless_writeFile in Hin|].
    destruct (create_tier_writeFile _ _ _ _ _ Hn Hin) as (-> & Hd & post & ->).
    split; [reflexivity|]. split; [assumption|].
    exists (evs2 ++ evs3 ++ [WARN_CREATING]), post.
    now rewrite <- !app_assoc.
Qed.

Lemma stale_prefix_harmless cached e :
  Forall harmless [EvGet cached None (Thrown e); WARN_STALE e; EvSetCached ""].
Proof.
  repeat first [apply Forall_nil_2 | apply Forall_cons_2]; intros Hs;
    first [discriminate Hs | left; solve [repeat eexists] | right; right; reflexivity].
Qed.

Lemma resolution_no_identifier cached evs r t tab f o :
  resolution penv cached evs r ->
  In (EvCreate t tab f (Returned o)) evs ->
  no_identifier o = true ->
  r = Thrown (mkExn MSG_CREATE_FAILED) /\
  exists pre, evs = pre ++ [EvCreate t tab f (Returned o)] /\
              Forall harmless pre /\ cached_after pre cached = "".
Proof.
  intros Hres Hin Ho.
  inversion Hres as [d Hc|? ? Hc Hf|e evs' ? Hc Hf]; subst.
  - destruct Hin as [Hin|[]]. discriminate.
  - destruct (fallthrough_no_identifier _ _ _ _ _ _ Hf Hin Ho) as [-> (pre & -> & Hpre)].
    split; [reflexivity|]. exists pre. repeat split; auto.
    now apply harmless_cached.
  - apply in_app_or in Hin as [Hin|Hin].
    { simpl in Hin. destruct Hin as [Hin|[Hin|[Hin|[]]]]; discriminate. }
    destruct (fallthrough_no_identifier _ _ _ _ _ _ Hf Hin Ho) as [-> (pre & -> & Hpre)].
    split; [reflexivity|].
    exists ([EvGet cached None (Thrown e); WARN_STALE e; EvSetCached ""] ++ pre).
    split; [now rewrite <- app_assoc|]. split.
    + apply Forall_app. split; [apply stale_prefix_harmless|assumption].
    + rewrite cached_after_app. now apply harmless_cached.
Qed.

Lemma resolution_writeFile cached evs r p data x :
  resolution penv cached evs r ->
  In (EvWriteFile p data x) evs ->
  p = SHEET_ID_CACHE_PATH penv /\ nonempty data = true /\
  exists pre post,
    evs = pre ++ [CREATE penv (Returned (Some data)); EvSetCached data;
                  EvWriteFile p data x] ++ post.
Proof.
  intros Hres Hin.
  inversion Hres as [d Hc|? ? Hc Hf|e evs' ? Hc Hf]; subst.
  - destruct Hin as [Hin|[]]. discriminate.
  - now apply (fallthrough_writeFile _ _ _ _ _ Hf).
  - apply in_app_or in Hin as [Hin|Hin].
    { simpl in Hin. destruct Hin as [Hin|[Hin|[Hin|[]]]]; discriminate. }
    destruct (fallthrough_writeFile _ _ _ _ _ Hf Hin) as (-> & Hd & pre & post & ->).
    split; [reflexivity|]. split; [assumption|].
    exists ([EvGet cached None (Thrown e); WARN_STALE e; EvSetCached ""] ++ pre), post.
    now rewrite <- app_assoc.
Qed.

(** What a resolution returns was verified or created in its events. *)
Lemma fallthrough_justified evs id :
  fallthrough penv evs (Returned id) ->
  (exists d, In (EvGet id None (Returned d)) evs) \/
  In (CREATE penv (Returned (Some id))) evs.
Proof.
  inversion 1 as [? ? Hc|? ? ? Hc Hf|evs2 evs3 evs4 ? Hc Hf Hn]; subst.
  - apply config_tier_Some in Hc as [_ [d ->]]. left. exists d. now left.
  - apply file_tier_Some in Hf as [_ (st & d & ->)]. left. exists d.
    apply in_or_app. right. right. now left.
  - apply create_tier_Returned in Hn as [_ ->]. right.
    apply in_or_app. right. apply in_or_app. right. right. now left.
Qed.

(** Where a returned identifier comes from: the configuration or the
    cache file, with the check of it that passed, or the creation. *)
Lemma fallthrough_provenance evs id :
  fallthrough penv evs (Returned id) ->
  (id = ENV_SPREADSHEET_ID penv /\ exists d, In (EvGet id None (Returned d)) evs) \/
  (exists stored d,
     id = trim stored /\
     In (EvReadFile (SHEET_ID_CACHE_PATH penv) (Returned stored)) evs /\
     In (EvGet id None (Returned d)) evs) \/
  In (CREATE penv (Returned (Some id))) evs.
Proof.
  inversion 1 as [? ? Hc|evs2 evs3 ? Hc Hf|evs2 evs3 evs4 ? Hc Hf Hn]; subst.
  - left. inversion Hc; subst. split; [reflexivity|]. eexists. now left.
  - right. left. inversion Hf; subst. eexists. eexists.
    split; [reflexivity|]. split; apply in_or_app; right; [now left|right; now left].
  - right. right. apply create_tier_Returned in Hn as [_ ->].
    apply in_or_app. right. apply in_or_app. right. right. now left.
Qed.

Lemma evicts_on_failure_sound evs : forall v,
  evicts_on_failure v evs = true ->
  forall pre id g x post,
    evs = pre ++ EvGet id g (Thrown x) :: post ->
    cached_after (pre ++ EvGet id g (Thrown x) :: until_next_call post) v = "".
Proof.
  induction evs as [|e evs IH]; intros v Hv pre id g x post Heq.
  - now destruct pre.
  - simpl in Hv. apply andb_true_iff in Hv as [Hhere Hrest].
    destruct pre as [|e' pre]; simpl in Heq; injection Heq as -> ->.
    + simpl. apply nonempty_false. now apply negb_true_iff in Hhere.
    + change ((e' :: pre) ++ EvGet id g (Thrown x) :: until_next_call post)
        with ([e'] ++ (pre ++ EvGet id g (Thrown x) :: until_next_call post)).
      rewrite cached_after_app. now apply (IH _ Hrest).
Qed.
End FallthroughFacts.

(** ** The resolver *)

Section ResolverTheorems.
Context `{rt : JsRuntime} {W : Type} `{svc : !Service W}.
Variable penv : ProcessEnv.
Variable sheets : SheetsClient.

Local Abbreviation resolve := (ensureSpreadsheetId penv sheets).

(** The run of a resolution whose memoized identifier fails its check:
    the failed check, the warning and the clearing, then tiers 2 to 4. *)
Lemma stale_memo_run (s : St W) e w' :
  nonempty (cachedSpreadsheetId (proc s)) = true ->
  svc_get (world s) (cachedSpreadsheetId (proc s)) None = (Thrown e, w') ->
  resolve s =
    prepend [EvGet (cachedSpreadsheetId (proc s)) None (Thrown e); WARN_STALE e; EvSetCached ""]
            (lower_tiers penv sheets (mkSt (cleared (proc s)) w')).
Proof.
  intros Hc Hget. rewrite ensureSpreadsheetId_unfold.
  destruct (verify_cached_run sheets s)
    as [[Hc' _]|[[_ (d & w2 & Hget' & _)]|[_ (e' & w2 & Hget' & Hr)]]];
    [congruence|congruence|].
  rewrite Hget in Hget'. injection Hget' as <- <-.
  rewrite or_else_fell by now rewrite Hr. now rewrite Hr.
Qed.

Lemma resolve_returned (s : St W) id :
  outcome (resolve s) = Returned id ->
  nonempty id = true /\ cachedSpreadsheetId (proc (final (resolve s))) = id.
Proof.
  intros H. pose proof (ensureSpreadsheetId_resolution penv sheets s) as Hres.
  rewrite H in Hres. apply resolution_Returned in Hres as [Hid Hafter].
  split; [assumption|]. now rewrite ensureSpreadsheetId_proc.
Qed.

(** C2.  When the memoized identifier [X] exists and fails its
    verification, the resolver clears the memoized value at once and
    then goes through the remaining tiers in the order configuration
    value, cache file, creation ([fallthrough]), from the empty memo.
    What it returns is the configured identifier or the identifier of
    the cache file, after a check of it that passed after the failure,
    or an identifier that creation has just returned.  It is not
    compared with [X]. *)
Theorem stale_memo_falls_through (s : St W) e w' :
  let X := cachedSpreadsheetId (proc s) in
  nonempty X = true ->
  svc_get (world s) X None = (Thrown e, w') ->
  exists rest,
    events (resolve s) = [EvGet X None (Thrown e); WARN_STALE e; EvSetCached ""] ++ rest /\
    fallthrough penv rest (outcome (resolve s)) /\
    cachedSpreadsheetId (proc (final (resolve s))) = cached_after rest "" /\
    (forall id, outcome (resolve s) = Returned id ->
       (id = ENV_SPREADSHEET_ID penv /\ exists d, In (EvGet id None (Returned d)) rest) \/
       (exists stored d,
          id = trim stored /\
          In (EvReadFile (SHEET_ID_CACHE_PATH penv) (Returned stored)) rest /\
          In (EvGet id None (Returned d)) rest) \/
       In (CREATE penv (Returned (Some id))) rest).
Proof.
  intros X Hc Hget.
  pose proof (stale_memo_run s e w' Hc Hget) as Hrun. fold X in Hrun.
  set (s1 := mkSt (cleared (proc s)) w') in Hrun.
  exists (events (lower_tiers penv sheets s1)).
  pose proof (lower_tiers_fallthrough penv sheets s1) as Hft.
  assert (Hout : outcome (resolve s) = outcome (lower_tiers penv sheets s1))
    by (rewrite Hrun; apply outcome_prepend).
  assert (Hev : events (resolve s) =
                [EvGet X None (Thrown e); WARN_STALE e; EvSetCached ""]
                  ++ events (lower_tiers penv sheets s1))
    by (rewrite Hrun; apply events_prepend).
  rewrite Hout.
  repeat split; try assumption.
  - rewrite ensureSpreadsheetId_proc, Hev, cached_after_app. reflexivity.
  - intros id Hid. rewrite Hid in Hft. now apply fallthrough_provenance in Hft.
Qed.


(** C9.  When the creation tier is reached and creation returns no
    identifier, the resolution fails with the provisioning error; the
    creation call is its last event (nothing is tried after it), what
    came before changed nothing, the cache file is not written, and no
    identifier is memoized.  Part two: whenever the cache file is
    written, it is with a non-empty identifier that creation has just
    returned. *)
Theorem creation_without_identifier (s : St W) :
  (forall t tab f o,
     In (EvCreate t tab f (Returned o)) (events (resolve s)) ->
     no_identifier o = true ->
     outcome (resolve s) = Thrown (mkExn MSG_CREATE_FAILED) /\
     (exists pre, events (resolve s) = pre ++ [EvCreate t tab f (Returned o)] /\
                  Forall harmless pre) /\
     List.filter is_writeFile (events (resolve s)) = [] /\
     Forall (fun e => forall v, e = EvSetCached v -> v = "") (events (resolve s)) /\
     cachedSpreadsheetId (proc (final (resolve s))) = "") /\
  (forall p data x,
     In (EvWriteFile p data x) (events (resolve s)) ->
     p = SHEET_ID_CACHE_PATH penv /\ nonempty data = true /\
     exists pre post,
       events (resolve s) =
         pre ++ [CREATE penv (Returned (Some data)); EvSetCached data;
                 EvWriteFile p data x] ++ post).
Proof.
  pose proof (ensureSpreadsheetId_resolution penv sheets s) as Hres.
  pose proof (ensureSpreadsheetId_proc penv sheets s) as Hproc.
  split.
  - intros t tab f o Hin Ho.
    pose proof (resolution_no_identifier _ _ _ _ _ _ _ _ Hres Hin Ho) as Hmain.
    destruct Hmain as [Hthrown (pre & Hev & Hpre & Hmemo)].
    split; [assumption|]. split; [now exists pre|].
    rewrite Hproc, Hev. repeat split.
    + rewrite List.filter_app. simpl. rewrite app_nil_r.
      clear -Hpre. induction Hpre as [|e l He _ IH]; [reflexivity|].
      simpl. now rewrite (harmless_not_writeFile _ He).
    + apply Forall_app. split.
      * eapply Forall_impl; [exact Hpre|]. intros e He v ->.
        destruct He as [(?&?&?&H)|[(?&?&H)|H]]; [reflexivity|..]; try discriminate.
        now injection H.
      * apply Forall_cons_2; [discriminate|apply Forall_nil_2].
    + simpl. now rewrite cached_after_app.
  - intros p data x Hin. exact (resolution_writeFile _ _ _ _ _ _ _ Hres Hin).
Qed.

Lemma ensureSpreadsheetId_evicts (s : St W) :
  evicts_on_failure (cachedSpreadsheetId (proc s)) (events (resolve s)) = true.
Proof.
  destruct s as [[c cached client] w].
  unfold ensureSpreadsheetId, lower_tiers, or_else, verify_cached, verify_env, verify_file,
    create_fallback.
  run_all; simpl;
    repeat match goal with
      | H : nonempty cached = _ |- _ => rewrite H; clear H
      end; reflexivity.
Qed.

(** C1, as the code has it.  Memory: at every verification that fails
    during a resolution, whatever the candidate, nothing is memoized by
    the time the resolver makes its next call; a memoized identifier
    that fails is cleared at once.  Disk: a failure does not touch the
    cache file; the file is written only with a non-empty identifier
    that creation has just returned (which replaces what it held). *)
Theorem failed_candidate_eviction (s : St W) :
  let X := cachedSpreadsheetId (proc s) in
  (forall pre id g x post,
     events (resolve s) = pre ++ EvGet id g (Thrown x) :: post ->
     cached_after (pre ++ EvGet id g (Thrown x) :: until_next_call post) X = "") /\
  (forall e w',
     nonempty X = true ->
     svc_get (world s) X None = (Thrown e, w') ->
     exists rest,
       events (resolve s) = [EvGet X None (Thrown e); WARN_STALE e; EvSetCached ""] ++ rest) /\
  (forall p data x,
     In (EvWriteFile p data x) (events (resolve s)) ->
     nonempty data = true /\
     exists pre post,
       events (resolve s) =
         pre ++ [CREATE penv (Returned (Some data)); EvSetCached data;
                 EvWriteFile p data x] ++ post).
Proof.
  intros X. repeat split.
  - intros pre id g x post Hev.
    exact (evicts_on_failure_sound _ _ (ensureSpreadsheetId_evicts s) _ _ _ _ _ Hev).
  - intros e w' Hc Hget. rewrite (stale_memo_run s e w' Hc Hget), events_prepend.
    eexists. reflexivity.
  - pose proof (ensureSpreadsheetId_resolution penv sheets s) as Hres.
    now apply (resolution_writeFile _ _ _ _ _ _ _ Hres) in H.
  - pose proof (ensureSpreadsheetId_resolution penv sheets s) as Hres.
    now apply (resolution_writeFile _ _ _ _ _ _ _ Hres) in H.
Qed.
End ResolverTheorems.

(** ** The endpoint *)

Section EndpointTheorems.
Context `{rt : JsRuntime} {W : Type} `{svc : !Service W}.
Variable penv : ProcessEnv.

(** C10.  A body that is not JSON is taken as the empty object: the
    request is answered with the 400 validation error, and the run has
    no event at all and leaves the state as it was. *)
Theorem POST_unparseable_body (s : St W) :
  POST penv None s = mkRun (Returned BAD_REQUEST) s [].
Proof. reflexivity. Qed.

(** C3, as the code has it.  When the payload is not [null], its
    values convert to strings, and its [feedbackType], converted and
    trimmed, is not ["positive"] or ["negative"] (an absent one gives
    the empty string), the answer is the 400 validation error, and the
    run has no event at all and leaves the state as it was. *)
Theorem POST_invalid_feedbackType (s : St W) (payload : Json) :
  payload <> JNull ->
  convertible payload = true ->
  is_feedback_type (feedbackType_of payload) = false ->
  POST penv (Some payload) s = mkRun (Returned BAD_REQUEST) s [].
Proof.
  intros Hnull Hconv Hft.
  destruct payload as [|b|z num|str|items|fields]; try contradiction; try reflexivity.
  revert Hconv Hft.
  unfold convertible, converted, feedbackType_of, POST. simpl forallb. run_cbv.
  repeat (run_convert; run_cbv; simpl is_returned; simpl andb);
    try discriminate.
  intros _ ->. now rewrite orb_true_r.
Qed.

Lemma getSheetsClient_unconfigured (s : St W) :
  sheetsClientPromise (proc s) = None ->
  not_credentials (credentials (proc s)) = true ->
  getSheetsClient s = mkRun (Thrown (mkExn MSG_CREDENTIALS)) s [].
Proof.
  destruct s as [[c cached client] w]. simpl. intros -> Hc.
  unfold getSheetsClient. run_cbv. now rewrite Hc.
Qed.

Lemma feedback_type_nonempty (x : string) :
  is_feedback_type x = true -> nonempty x = true.
Proof. now destruct x. Qed.

(** Only an object can carry a valid [feedbackType]. *)
Lemma valid_payload_object (payload : Json) :
  is_feedback_type (feedbackType_of payload) = true ->
  exists fields, payload = JObject fields.
Proof. destruct payload; try discriminate. eauto. Qed.

Lemma load_unconfigured :
  credentials_absent penv \/ credentials_malformed penv ->
  exists warnings,
    module_load penv = (mkProc None (str_or (ENV_SPREADSHEET_ID penv) "") None, warnings) /\
    warnings <> [] /\ forallb is_warning warnings = true.
Proof.
  unfold credentials_absent, credentials_malformed, module_load, load_credentials.
  intros [Habs|(text & e & Htext & Hparse)].
  - destruct (GOOGLE_SHEETS_CREDENTIALS penv) as [text|]; simpl in *.
    + destruct (nonempty text) eqn:Et; [simpl in Habs; congruence|].
      simpl. eexists. now repeat split.
    + eexists. now repeat split.
  - rewrite Htext, Hparse. destruct (nonempty text); simpl; eexists; now repeat split.
Qed.

(** C8.  With credentials absent or malformed, loading the module
    throws nothing and logs warnings only, leaving the process without
    credentials and without client.  From then on every submission that
    passes validation and timestamp normalization is answered with a
    500 whose message names the missing credentials
    ([GOOGLE_SHEETS_CREDENTIALS]); the run makes no external call and no
    assignment, and the module variables stay as loaded (so the same
    holds for the next submission). *)
Theorem missing_credentials (s : St W) (payload : Json) :
  credentials_absent penv \/ credentials_malformed penv ->
  (exists warnings,
     module_load penv = (mkProc None (str_or (ENV_SPREADSHEET_ID penv) "") None, warnings) /\
     warnings <> [] /\ forallb is_warning warnings = true) /\
  (proc s = fst (module_load penv) ->
   reaches_store payload ->
   outcome (POST penv (Some payload) s) = Returned (SERVER_ERROR MSG_CREDENTIALS) /\
   List.filter is_side_effect (events (POST penv (Some payload) s)) = [] /\
   List.filter is_external (events (POST penv (Some payload) s)) = [] /\
   proc (final (POST penv (Some payload) s)) = proc s).
Proof.
  intros Hcred. destruct (load_unconfigured Hcred) as (warnings & Hload & Hne & Hall).
  split; [now exists warnings|].
  rewrite Hload. simpl. intros Hproc (Hnull & Hconv & Hft & Hts).
  destruct (valid_payload_object _ Hft) as [fields ->].
  destruct s as [p w]. simpl in Hproc. subst p.
  revert Hconv Hft Hts.
  unfold convertible, converted, feedbackType_of, providedTimestamp_of, POST.
  simpl forallb. run_cbv.
  repeat (run_convert; run_cbv; simpl is_returned; simpl andb); try discriminate.
  intros _ Hft Hts. rewrite Hft, (feedback_type_nonempty _ Hft).
  cbv beta iota delta [negb orb].
  run_test.
  - destruct (Hts eq_refl) as [t Ht]. unfold parse_toISOString. rewrite Ht. run_cbv.
    rewrite getSheetsClient_unconfigured by reflexivity. now repeat split.
  - run_call. run_cbv.
    rewrite getSheetsClient_unconfigured by reflexivity. now repeat split.
Qed.

(** *** The stages before the append make no append *)

Lemma getSheetsClient_no_append (s : St W) :
  List.filter is_append (events (getSheetsClient s)) = [].
Proof.
  destruct s as [[c cached [client|]] w]; unfold getSheetsClient; run_cbv;
    [reflexivity|]. now destruct (not_credentials c).
Qed.

Lemma ensureSpreadsheetId_no_append sheets (s : St W) :
  List.filter is_append (events (ensureSpreadsheetId penv sheets s)) = [].
Proof.
  destruct s as [[c cached client] w].
  unfold ensureSpreadsheetId, lower_tiers, or_else, verify_cached, verify_env, verify_file,
    create_fallback.
  run_all; reflexivity.
Qed.

Lemma ensureSheetTab_no_append sheets id (s : St W) :
  List.filter is_append (events (ensureSheetTab penv sheets id s)) = [].
Proof.
  destruct s as [p w]. unfold ensureSheetTab. run_cbv. run_call; run_cbv;
    [|reflexivity].
  destruct (existsb _ _); run_cbv; [reflexivity|].
  repeat (run_call; run_cbv); reflexivity.
Qed.

(** Case analysis on the run of a stage, with what is known of its
    events. *)
Ltac run_stage_facts :=
  match goal with
  | |- context [getSheetsClient ?st] =>
      let E := fresh "Eclient" in let F := fresh "Fclient" in
      pose proof (getSheetsClient_no_append st) as F;
      destruct (getSheetsClient st) as [[?sheets|?e] ?s ?evs] eqn:E; simpl in F
  | |- context [ensureSpreadsheetId ?p ?c ?st] =>
      let E := fresh "Eresolve" in let F := fresh "Fresolve" in
      pose proof (ensureSpreadsheetId_no_append c st) as F;
      destruct (ensureSpreadsheetId p c st) as [[?id|?e] ?s ?evs] eqn:E; simpl in F
  | |- context [ensureSheetTab ?p ?c ?i ?st] =>
      let E := fresh "Etab" in let F := fresh "Ftab" in
      pose proof (ensureSheetTab_no_append c i st) as F;
      destruct (ensureSheetTab p c i st) as [[[]|?e] ?s ?evs] eqn:E; simpl in F
  end.

(** The append events of a request: none, or exactly one, whose single
    row is the record in header order; the answer is 200 exactly when
    that append was accepted. *)
Lemma POST_appends (s : St W) (payload : Json) :
  let r := POST penv (Some payload) s in
  (List.filter is_append (events r) = [] /\
   forall resp, outcome r = Returned resp -> status resp <> 200)
  \/ (exists t id x,
        List.filter is_append (events r) =
          [EvValuesAppend id (RANGE penv) [List.map snd (columns (toISOString t) payload)] x] /\
        timestamp_source s payload t /\
        convertible payload = true /\
        is_feedback_type (feedbackType_of payload) = true /\
        (forall resp, outcome r = Returned resp -> status resp = 200 ->
                      x = Returned tt /\ resp = OK)).
Proof.
  unfold columns, timestamp_source, RANGE, convertible, converted.
  unfold providedTimestamp_of, feedbackType_of, userComment_of, lastQuestion_of,
    lastResponse_of, sessionId_of, typeLabel_of, fullConversation_of.
  destruct s as [p w].
  destruct payload as [|b|z num|str|items|fields]; unfold POST; run_cbv_stages;
    try (left; split; [reflexivity|intros resp [= <-]; discriminate]).
  simpl forallb.
  repeat (run_convert; run_cbv_stages; simpl is_returned; simpl andb);
    try (left; split; [reflexivity|intros resp [= <-]; discriminate]).
  match goal with
  | |- context [is_feedback_type ?x] => destruct (is_feedback_type x) eqn:Hft
  end;
    [rewrite (feedback_type_nonempty _ Hft)|rewrite orb_true_r];
    cbv beta iota delta [negb orb];
    [|left; split; [reflexivity|intros resp [= <-]; discriminate]].
  run_test.
  - unfold parse_toISOString.
    match goal with
    | |- context [Date_parse ?x] => destruct (Date_parse x) as [t|] eqn:Ht
    end; run_cbv_stages;
      [|left; split; [reflexivity|intros resp [= <-]; discriminate]].
    repeat (run_stage_facts; run_cbv_stages);
      try (left; split;
           [simpl; rewrite ?List.filter_app;
            repeat match goal with H : List.filter is_append _ = [] |- _ => rewrite H; clear H end;
            reflexivity
           |intros resp [= <-]; discriminate]).
    run_call; run_cbv_stages; right; exists t; eexists; eexists;
      (split; [simpl; rewrite ?List.filter_app;
               repeat match goal with H : List.filter is_append _ = [] |- _ => rewrite H; clear H end;
               reflexivity|]);
      (split; [reflexivity|split; [reflexivity|split; [reflexivity|]]]);
      intros resp [= <-]; (discriminate || (intros _; now split)).
  - run_call. run_cbv_stages.
    repeat (run_stage_facts; run_cbv_stages);
      try (left; split;
           [simpl; rewrite ?List.filter_app;
            repeat match goal with H : List.filter is_append _ = [] |- _ => rewrite H; clear H end;
            reflexivity
           |intros resp [= <-]; discriminate]).
    run_call; run_cbv_stages; right; exists t; eexists; eexists;
      (split; [simpl; rewrite ?List.filter_app;
               repeat match goal with H : List.filter is_append _ = [] |- _ => rewrite H; clear H end;
               reflexivity|]);
      (split; [reflexivity|split; [reflexivity|split; [reflexivity|]]]);
      intros resp [= <-]; (discriminate || (intros _; now split)).
Qed.


(** C6.  When a request is answered with 200, its run has exactly one
    append event, accepted by the service, and that event carries
    exactly one row: the eight columns timestamp, feedbackType,
    userComment, lastQuestion, lastResponse, serialized
    fullConversation, sessionId and type label of the record, which is
    the order of the header. *)
Theorem successful_append_row (s : St W) (req : option Json) (resp : Response) :
  outcome (POST penv req s) = Returned resp ->
  status resp = 200 ->
  exists payload t id,
    req = Some payload /\ resp = OK /\ convertible payload = true /\
    List.filter is_append (events (POST penv req s)) =
      [EvValuesAppend id (RANGE penv) [List.map snd (columns (toISOString t) payload)]
                      (Returned tt)] /\
    List.map snd (columns (toISOString t) payload) =
      [toISOString t; feedbackType_of payload; userComment_of payload;
       lastQuestion_of payload; lastResponse_of payload; fullConversation_of payload;
       sessionId_of payload; typeLabel_of payload] /\
    List.map fst (columns (toISOString t) payload) = HEADER /\
    length (List.map snd (columns (toISOString t) payload)) = 8 /\
    timestamp_source s payload t.
Proof.
  intros Hout Hstatus. destruct req as [payload|].
  - destruct (POST_appends s payload) as [[_ Hno]|(t & id & x & Hev & Hts & Hconv & _ & Hok)].
    + now apply Hno in Hout.
    + destruct (Hok resp Hout Hstatus) as [-> ->].
      exists payload, t, id. now repeat split.
  - assert (H400 : outcome (POST penv None s) = Returned BAD_REQUEST) by reflexivity.
    rewrite H400 in Hout. injection Hout as <-. discriminate.
Qed.

(** A valid submission gets to the store with the record whose
    timestamp is the ISO rendering of [t]: from the state of the
    request, when [t] is the parsed value of the supplied timestamp;
    after the reading [t] of the clock otherwise. *)
Lemma POST_stores_row (s : St W) (payload : Json) (t : Instant) :
  convertible payload = true ->
  is_feedback_type (feedbackType_of payload) = true ->
  let r := POST penv (Some payload) s in
  let row := List.map snd (columns (toISOString t) payload) in
  (nonempty (providedTimestamp_of payload) = true ->
   Date_parse (providedTimestamp_of payload) = Some t ->
   stores_row penv s [] row r) /\
  (nonempty (providedTimestamp_of payload) = false ->
   t = fst (svc_now (world s)) ->
   (exists rest, events r = EvNow t :: rest) /\
   stores_row penv (mkSt (proc s) (snd (svc_now (world s)))) [EvNow t] row r).
Proof.
  intros Hconv Hft. destruct (valid_payload_object _ Hft) as [fields ->].
  destruct s as [p w]. revert Hconv Hft.
  unfold stores_row, columns, RANGE, LOGGED, convertible, converted.
  unfold providedTimestamp_of, feedbackType_of, userComment_of, lastQuestion_of,
    lastResponse_of, sessionId_of, typeLabel_of, fullConversation_of.
  unfold POST. simpl forallb. run_cbv_stages.
  repeat (run_convert; run_cbv_stages; simpl is_returned; simpl andb); try discriminate.
  intros _ Hft. rewrite Hft, (feedback_type_nonempty _ Hft).
  cbv beta iota delta [negb orb]. split.
  - intros Hne Hparse. rewrite Hne. unfold parse_toISOString. rewrite Hparse.
    run_cbv_stages. intros c id s1 s2 s3 e1 e2 e3 Hc Hr Ht.
    rewrite Hc. run_cbv_stages. rewrite Hr. run_cbv_stages. rewrite Ht. run_cbv_stages.
    cbn [List.map snd].
    run_call; run_cbv_stages; eexists; eexists;
      (split; [reflexivity|]); split; try reflexivity;
      simpl; now rewrite <- ?app_assoc.
  - intros Hne ->. rewrite Hne. run_cbv_stages.
    destruct (svc_now w) as [t w1] eqn:Enow. cbn [fst snd]. run_cbv_stages.
    assert (Hhead : forall (x : Run W Response),
              exists rest, events (prepend [EvNow t] x) = EvNow t :: rest)
      by (intros [o f evs]; simpl; eauto).
    split.
    + run_stage_facts; run_cbv_stages; [|simpl; eauto].
      run_stage_facts; run_cbv_stages; [|simpl; eauto].
      run_stage_facts; run_cbv_stages; [|simpl; eauto].
      run_call; run_cbv_stages; simpl; eauto.
    + intros c id s1 s2 s3 e1 e2 e3 Hc Hr Ht. simpl in Hc.
      rewrite Hc. run_cbv_stages. rewrite Hr. run_cbv_stages. rewrite Ht. run_cbv_stages.
      cbn [List.map snd].
      run_call; run_cbv_stages; eexists; eexists;
        (split; [reflexivity|]); split; try reflexivity;
        simpl; now rewrite <- ?app_assoc.
Qed.

(** C5.  For a valid submission (its values convert and its
    [feedbackType] is one of the two).  With no timestamp supplied
    (absent, falsy, or empty once trimmed) the clock is read first and
    the request gets to the store with the ISO rendering of that
    reading.  With a supplied timestamp that parses to [t], it gets to
    the store with the ISO rendering of [t], whatever the spelling
    supplied.  With one that does not parse, it is answered 500 before
    any call.  In every case an append carries the one record whose
    timestamp is the rendering of an instant [t] of that source, which
    reads back as [t]. *)
Theorem timestamp_normalized (s : St W) (payload : Json) :
  convertible payload = true ->
  is_feedback_type (feedbackType_of payload) = true ->
  let r := POST penv (Some payload) s in
  let supplied := providedTimestamp_of payload in
  let row := fun t => List.map snd (columns (toISOString t) payload) in
  (nonempty supplied = false ->
   let t := fst (svc_now (world s)) in
   (exists rest, events r = EvNow t :: rest) /\
   stores_row penv (mkSt (proc s) (snd (svc_now (world s)))) [EvNow t] (row t) r) /\
  (forall t, nonempty supplied = true -> Date_parse supplied = Some t ->
     stores_row penv s [] (row t) r) /\
  (nonempty supplied = true -> Date_parse supplied = None ->
     r = mkRun (Returned (SERVER_ERROR "Invalid time value")) s
               [LOGGED (mkExn "Invalid time value")]) /\
  (forall id range values x,
     In (EvValuesAppend id range values x) (events r) ->
     exists t,
       values = [row t] /\
       hd "" (row t) = toISOString t /\
       Date_parse (toISOString t) = Some t /\
       timestamp_source s payload t).
Proof.
  intros Hconv Hft r supplied row.
  split; [|split; [|split]].
  - intros Hne t. now apply (POST_stores_row s payload t Hconv Hft).
  - intros t Hne Hparse. now apply (POST_stores_row s payload t Hconv Hft).
  - intros Hne Hparse. subst r supplied.
    destruct (valid_payload_object _ Hft) as [fields ->].
    destruct s as [p w]. revert Hconv Hft Hne Hparse.
    unfold LOGGED, convertible, converted, providedTimestamp_of, feedbackType_of, POST.
    simpl forallb. run_cbv.
    repeat (run_convert; run_cbv; simpl is_returned; simpl andb); try discriminate.
    intros _ Hft Hne Hparse. rewrite Hft, (feedback_type_nonempty _ Hft).
    cbv beta iota delta [negb orb]. rewrite Hne. unfold parse_toISOString.
    rewrite Hparse. reflexivity.
  - intros id range values x Hin.
    assert (Hf : In (EvValuesAppend id range values x) (List.filter is_append (events r)))
      by (apply List.filter_In; now split).
    destruct (POST_appends s payload) as [[Hno _]|(t & id' & x' & Hev & Hts & _)];
      fold r in Hno || fold r in Hev.
    + rewrite Hno in Hf. destruct Hf.
    + rewrite Hev in Hf. destruct Hf as [Heq|[]]. injection Heq as <- <- <- <-.
      exists t. repeat split; auto using toISOString_parses.
Qed.

(** *** The tab *)

Lemma ensureSheetTab_present sheets id (s : St W) d w' :
  svc_get (world s) id (Some false) = (Returned d, w') ->
  lists_tab penv d = true ->
  ensureSheetTab penv sheets id s =
    mkRun (Returned tt) (mkSt (proc s) w') [EvGet id (Some false) (Returned d)].
Proof.
  destruct s as [p w]. simpl. intros Hget Htab.
  unfold ensureSheetTab. run_cbv. rewrite Hget. run_cbv.
  unfold lists_tab in Htab. now rewrite Htab.
Qed.

Lemma ensureSheetTab_counts sheets id (s : St W) :
  let evs := events (ensureSheetTab penv sheets id s) in
  length (List.filter is_tab_created evs) <= 1 /\
  length (List.filter is_values_update evs) <= 1 /\
  (found_or_created penv evs = false ->
   List.filter is_tab_created evs = [] /\ List.filter is_values_update evs = []).
Proof.
  destruct s as [p w]. unfold ensureSheetTab, found_or_created, is_tab_found, lists_tab.
  run_cbv. run_call; run_cbv; [|simpl; auto].
  destruct (existsb _ _) eqn:Htab; run_cbv; [simpl; rewrite ?Htab; auto|].
  repeat (run_call; run_cbv); simpl; rewrite ?Htab; simpl; repeat split; auto;
    discriminate.
Qed.

(** C7.  If the listing shows the tab, [ensureSheetTab] does nothing
    beyond that listing.  And for two calls in a row, where the tab that
    the first call found or created is still listed when the second one
    asks: the two runs together hold at most one accepted tab creation
    and at most one header write. *)
Theorem ensureSheetTab_idempotent sheets id (s : St W) :
  let r1 := ensureSheetTab penv sheets id s in
  let r2 := ensureSheetTab penv sheets id (final r1) in
  (forall d w',
     svc_get (world s) id (Some false) = (Returned d, w') ->
     lists_tab penv d = true ->
     r1 = mkRun (Returned tt) (mkSt (proc s) w') [EvGet id (Some false) (Returned d)]) /\
  ((found_or_created penv (events r1) = true ->
    exists d w', svc_get (world (final r1)) id (Some false) = (Returned d, w') /\
                 lists_tab penv d = true) ->
   length (List.filter is_tab_created (events r1 ++ events r2)) <= 1 /\
   length (List.filter is_values_update (events r1 ++ events r2)) <= 1 /\
   (found_or_created penv (events r1) = true ->
    outcome r2 = Returned tt /\
    List.filter is_add_sheet (events r2) = [] /\
    List.filter is_values_update (events r2) = [])).
Proof.
  intros r1 r2. split.
  - intros d w' Hget Htab. now apply ensureSheetTab_present.
  - intros Hstill.
    destruct (ensureSheetTab_counts sheets id s) as (Hc1 & Hu1 & Hnone1).
    destruct (ensureSheetTab_counts sheets id (final r1)) as (Hc2 & Hu2 & _).
    fold r1 in Hc1, Hu1, Hnone1. fold r2 in Hc2, Hu2.
    rewrite !List.filter_app, !length_app.
    destruct (found_or_created penv (events r1)) eqn:Hfound.
    + destruct (Hstill eq_refl) as (d & w' & Hget & Htab).
      assert (Hr2 : r2 = mkRun (Returned tt) (mkSt (proc (final r1)) w')
                               [EvGet id (Some false) (Returned d)])
        by now apply ensureSheetTab_present.
      rewrite Hr2. simpl. repeat split; auto; lia.
    + destruct (Hnone1 eq_refl) as [-> ->]. simpl. repeat split; auto; discriminate.
Qed.
End EndpointTheorems.

(** * Runs in the reference environment *)

Module Scenarios.
Import Ref Cases Outage.

(** The first scenario of the specification: one spreadsheet created,
    its header written, one row appended. *)
Example cold_start_submission :
  let r := POST pe0 (Some negative_feedback) s_cold in
  outcome r = Returned OK /\
  List.filter is_external (events r) =
    [EvReadFile CACHE (Thrown (mkExn "ENOENT: no such file or directory"));
     EvCreate "GIKI Chatbot Feedback" "Feedback" 1 (Returned (Some "sheet-1"));
     EvWriteFile CACHE "sheet-1" (Returned tt);
     EvValuesUpdate "sheet-1" "Feedback!A1:H1" [HEADER] (Returned tt);
     EvGet "sheet-1" (Some false) (Returned LISTING);
     EvValuesAppend "sheet-1" "Feedback!A:H"
       [["7"; "negative"; "too vague"; "fees?"; "..."; "[]"; "s1"; ""]] (Returned tt)] /\
  books (world (final r)) !! "sheet-1" =
    Some [("Feedback",
           [HEADER; ["7"; "negative"; "too vague"; "fees?"; "..."; "[]"; "s1"; ""]])].
Proof. vm_compute. repeat split. Qed.

(** The second scenario: the next submission creates nothing and
    appends once. *)
Example warm_submission :
  let s1 := final (POST pe0 (Some negative_feedback) s_cold) in
  let r := POST pe0 (Some negative_feedback) s1 in
  outcome r = Returned OK /\
  List.filter is_create (events r) = [] /\
  length (List.filter is_append (events r)) = 1.
Proof. vm_compute. repeat split. Qed.

(** A payload that is [null] is answered with a 500, and so is one with
    a value that does not convert to a string, whatever its
    [feedbackType]. *)
Example null_payload :
  outcome (POST pe0 (Some JNull) s_cold) =
  Returned (SERVER_ERROR "Cannot read properties of null (reading 'feedbackType')").
Proof. reflexivity. Qed.

Example unconvertible_payload :
  convertible unconvertible_feedback = false /\
  outcome (POST pe0 (Some unconvertible_feedback) s_cold) =
  Returned (SERVER_ERROR (message NOT_A_FUNCTION)).
Proof. split; reflexivity. Qed.

(** *** C1 *)

(** The first resolution of that process. *)
Example first_resolution :
  let r := ensureSpreadsheetId peE CLIENT s_first in
  outcome r = Returned "sheet-old" /\
  cachedSpreadsheetId (proc (final r)) = "sheet-old" /\
  files (world (final r)) !! CACHE = Some "sheet-old".
Proof. vm_compute. repeat split. Qed.

(** C1 fails on the disk tier: the memoized ["sheet-old"] fails its
    verification and the resolution goes on to resolve and return
    ["sheet-env"], while the cache file still holds ["sheet-old"]. *)
Lemma stale_identifier_stays_on_disk :
  let r := ensureSpreadsheetId peE CLIENT s_stale in
  cachedSpreadsheetId (proc s_stale) = "sheet-old" /\
  In (EvGet "sheet-old" None (Thrown NOT_FOUND)) (events r) /\
  outcome r = Returned "sheet-env" /\
  SHEET_ID_CACHE_PATH peE = CACHE /\
  files (world (final r)) !! CACHE = Some "sheet-old".
Proof. vm_compute. repeat split. now left. Qed.

(** In the resolution from [s_stale] the failed memo is cleared before
    the configured identifier is tried; in the one from [s_first] the
    file is written with the identifier just created. *)
Lemma failed_candidate_eviction_witness :
  cached_after
    ([] ++ EvGet "sheet-old" None (Thrown NOT_FOUND)
        :: until_next_call [WARN_STALE NOT_FOUND; EvSetCached "";
                            EvGet "sheet-env" None (Returned LISTING);
                            EvSetCached "sheet-env"])
    (cachedSpreadsheetId (proc s_stale)) = "" /\
  (exists rest,
     events (ensureSpreadsheetId peE CLIENT s_stale) =
       [EvGet (cachedSpreadsheetId (proc s_stale)) None (Thrown NOT_FOUND);
        WARN_STALE NOT_FOUND; EvSetCached ""] ++ rest) /\
  (nonempty "sheet-old" = true /\
   exists pre post,
     events (ensureSpreadsheetId peE CLIENT s_first) =
       pre ++ [CREATE peE (Returned (Some "sheet-old")); EvSetCached "sheet-old";
               EvWriteFile CACHE "sheet-old" (Returned tt)] ++ post).
Proof.
  split; [|split].
  - apply (proj1 (failed_candidate_eviction peE CLIENT s_stale)). vm_compute. reflexivity.
  - apply (proj1 (proj2 (failed_candidate_eviction peE CLIENT s_stale))
             NOT_FOUND (world s_stale)); vm_compute; reflexivity.
  - apply (proj2 (proj2 (failed_candidate_eviction peE CLIENT s_first))).
    vm_compute. do 9 right. now left.
Defined.

(** *** C2 *)

(** The calls of the resolution from [s_fall]. *)
Example fall_to_file :
  let r := ensureSpreadsheetId peE CLIENT s_fall in
  outcome r = Returned "sheet-file" /\
  List.filter is_external (events r) =
    [EvGet "sheet-old" None (Thrown NOT_FOUND);
     EvGet "sheet-env" None (Thrown NOT_FOUND);
     EvReadFile CACHE (Returned "  sheet-file ");
     EvGet "sheet-file" None (Returned LISTING)].
Proof. vm_compute. repeat split. Qed.

(** C2 fails on its last part: after an outage of one call the
    configured identifier, memoized when the module was loaded, fails
    its check as the memoized value, is cleared, is checked again as the
    configured value, passes, and is returned. *)
Lemma stale_identifier_returned :
  let r := ensureSpreadsheetId peE CLIENT s_outage in
  cachedSpreadsheetId (proc s_outage) = "sheet-env" /\
  events r = [EvGet "sheet-env" None (Thrown TRANSIENT);
              WARN_STALE TRANSIENT; EvSetCached "";
              EvGet "sheet-env" None (Returned LISTING); EvSetCached "sheet-env"] /\
  outcome r = Returned "sheet-env" /\
  cachedSpreadsheetId (proc (final r)) = "sheet-env".
Proof. vm_compute. repeat split. Qed.

(** The stale memo of [s_fall]: the fall-through goes by the cache
    file, whose identifier is returned after its check. *)
Lemma stale_memo_falls_through_witness :
  let r := ensureSpreadsheetId peE CLIENT s_fall in
  let rest := [EvGet "sheet-env" None (Thrown NOT_FOUND);
               EvConsoleError ["Environment spreadsheet ID is not accessible:";
                               message NOT_FOUND];
               EvReadFile CACHE (Returned "  sheet-file ");
               EvGet "sheet-file" None (Returned LISTING);
               EvSetCached "sheet-file"] in
  events r = [EvGet "sheet-old" None (Thrown NOT_FOUND); WARN_STALE NOT_FOUND;
              EvSetCached ""] ++ rest /\
  fallthrough peE rest (outcome r) /\
  cachedSpreadsheetId (proc (final r)) = cached_after rest "" /\
  (("sheet-file" = ENV_SPREADSHEET_ID peE /\
    exists d, In (EvGet "sheet-file" None (Returned d)) rest) \/
   (exists stored d,
      "sheet-file" = trim stored /\
      In (EvReadFile (SHEET_ID_CACHE_PATH peE) (Returned stored)) rest /\
      In (EvGet "sheet-file" None (Returned d)) rest) \/
   In (CREATE peE (Returned (Some "sheet-file"))) rest).
Proof.
  intros r rest.
  destruct (stale_memo_falls_through peE CLIENT s_fall NOT_FOUND (world s_fall))
    as (rest' & Hev & Hft & Hmemo & Hfrom); [reflexivity|reflexivity|].
  assert (Hrest : rest' = rest).
  { apply (app_inv_head [EvGet "sheet-old" None (Thrown NOT_FOUND); WARN_STALE NOT_FOUND;
                         EvSetCached ""]).
    transitivity (events r); [symmetry; exact Hev|]. vm_compute. reflexivity. }
  subst rest'. repeat split; try assumption.
  apply Hfrom. vm_compute. reflexivity.
Defined.

(** *** C3 *)

(** C3 fails on a [feedbackType] that is not one of the two strings
    but becomes one once trimmed: the submission is accepted, calls the
    service and appends a row. *)
Lemma padded_feedbackType_accepted :
  let r := POST pe0 (Some padded_feedback) s_cold in
  field padded_feedback "feedbackType" = Some (JString " positive ") /\
  " positive " <> "positive" /\ " positive " <> "negative" /\
  outcome r = Returned OK /\
  List.filter is_external (events r) <> [] /\
  List.filter is_append (events r) =
    [EvValuesAppend "sheet-1" "Feedback!A:H"
       [["7"; "positive"; ""; ""; ""; "[]"; ""; ""]] (Returned tt)].
Proof. vm_compute. repeat split; discriminate. Qed.

(** A [feedbackType] that is neither. *)
Lemma POST_invalid_feedbackType_witness :
  POST pe0 (Some (JObject [("feedbackType", JString "neutral")])) s_cold =
  mkRun (Returned BAD_REQUEST) s_cold [].
Proof.
  apply (POST_invalid_feedbackType pe0 s_cold); [discriminate|reflexivity|reflexivity].
Defined.

(** *** C4 *)


(** *** C5 and C6 *)

(** A submission at the cold start that supplies its timestamp as
    [" 05 "]: the row is stamped ["5"], and the clock is not read.  The
    same without a timestamp is stamped with the clock, ["7"]. *)
Lemma timestamp_normalized_witness :
  let r := POST pe0 (Some stamped_feedback) s_cold in
  let c := mkClient (Some (JObject [])) ["https://www.googleapis.com/auth/spreadsheets"] in
  let s1 := final (getSheetsClient s_cold) in
  let s2 := final (ensureSpreadsheetId pe0 c s1) in
  let s3 := final (ensureSheetTab pe0 c "sheet-1" s2) in
  providedTimestamp_of stamped_feedback = "05" /\
  Date_parse "05" = Some 5 /\
  (exists x w4,
     svc_values_append (world s3) "sheet-1" (RANGE pe0) [STAMPED_ROW] = (x, w4) /\
     events r =
       [] ++ events (getSheetsClient s_cold) ++ events (ensureSpreadsheetId pe0 c s1) ++
       events (ensureSheetTab pe0 c "sheet-1" s2) ++
       EvValuesAppend "sheet-1" (RANGE pe0) [STAMPED_ROW] x ::
       match x with Returned _ => [] | Thrown e => [LOGGED e] end /\
     outcome r =
       Returned (match x with
                 | Returned _ => OK
                 | Thrown e => SERVER_ERROR (str_or (message e) MSG_DEFAULT)
                 end)) /\
  List.filter is_now (events r) = [] /\
  (exists rest, events (POST pe0 (Some negative_feedback) s_cold) = EvNow 7 :: rest).
Proof.
  intros r c s1 s2 s3.
  destruct (timestamp_normalized pe0 s_cold stamped_feedback eq_refl eq_refl)
    as (_ & Hsupplied & _).
  destruct (timestamp_normalized pe0 s_cold negative_feedback eq_refl eq_refl)
    as (Hclock & _).
  split; [reflexivity|]. split; [reflexivity|]. split; [|split].
  - apply (Hsupplied 5 eq_refl eq_refl c "sheet-1" s1 s2 s3); reflexivity.
  - vm_compute. reflexivity.
  - apply (Hclock eq_refl).
Defined.

(** The same submission, seen from its answer. *)
Lemma successful_append_row_witness :
  exists payload t id,
    Some negative_feedback = Some payload /\ OK = OK /\ convertible payload = true /\
    List.filter is_append (events (POST pe0 (Some negative_feedback) s_cold)) =
      [EvValuesAppend id (RANGE pe0) [List.map snd (columns (toISOString t) payload)]
                      (Returned tt)] /\
    List.map snd (columns (toISOString t) payload) =
      [toISOString t; feedbackType_of payload; userComment_of payload;
       lastQuestion_of payload; lastResponse_of payload; fullConversation_of payload;
       sessionId_of payload; typeLabel_of payload] /\
    List.map fst (columns (toISOString t) payload) = HEADER /\
    length (List.map snd (columns (toISOString t) payload)) = 8 /\
    timestamp_source s_cold payload t.
Proof.
  apply (successful_append_row pe0 s_cold (Some negative_feedback) OK);
    vm_compute; reflexivity.
Defined.

(** *** C7 *)

(** The calls of two provisionings in a row. *)
Example tab_created_once :
  let r1 := ensureSheetTab pe0 CLIENT "sheet-1" s_no_tab in
  let r2 := ensureSheetTab pe0 CLIENT "sheet-1" (final r1) in
  List.filter is_external (events r1) =
    [EvGet "sheet-1" (Some false) (Returned (mkSpreadsheet (Some [mkSheet (Some "Sheet1")])));
     EvAddSheet "sheet-1" "Feedback" 1 (Returned tt);
     EvValuesUpdate "sheet-1" "Feedback!A1:H1" [HEADER] (Returned tt)] /\
  List.filter is_external (events r2) =
    [EvGet "sheet-1" (Some false)
       (Returned (mkSpreadsheet (Some [mkSheet (Some "Sheet1"); mkSheet (Some "Feedback")])))].
Proof. vm_compute. repeat split. Qed.

(** On [s_no_tab] the first call creates the tab and writes the header;
    the second finds the tab and does nothing more. *)
Lemma ensureSheetTab_idempotent_witness :
  let r1 := ensureSheetTab pe0 CLIENT "sheet-1" s_no_tab in
  let r2 := ensureSheetTab pe0 CLIENT "sheet-1" (final r1) in
  r2 = mkRun (Returned tt) (final r1)
         [EvGet "sheet-1" (Some false)
            (Returned (mkSpreadsheet (Some [mkSheet (Some "Sheet1"); mkSheet (Some "Feedback")])))] /\
  length (List.filter is_tab_created (events r1 ++ events r2)) <= 1 /\
  length (List.filter is_values_update (events r1 ++ events r2)) <= 1 /\
  outcome r2 = Returned tt /\
  List.filter is_add_sheet (events r2) = [] /\
  List.filter is_values_update (events r2) = [].
Proof.
  intros r1 r2. split.
  - apply (proj1 (ensureSheetTab_idempotent pe0 CLIENT "sheet-1" (final r1)));
      vm_compute; reflexivity.
  - destruct (proj2 (ensureSheetTab_idempotent pe0 CLIENT "sheet-1" s_no_tab))
      as (Hc & Hu & Hnoop).
    + intros _. eexists. eexists. split; vm_compute; reflexivity.
    + destruct (Hnoop eq_refl) as (Ho & Ha & Hv). now repeat split.
Defined.

(** *** C8 *)

(** The submission of [negative_feedback] to a process without
    credentials. *)
Lemma missing_credentials_witness :
  let r := POST pe_unconfigured (Some negative_feedback) s_unconfigured in
  (exists warnings,
     module_load pe_unconfigured =
       (mkProc None (str_or (ENV_SPREADSHEET_ID pe_unconfigured) "") None, warnings) /\
     warnings <> [] /\ forallb is_warning warnings = true) /\
  outcome r = Returned (SERVER_ERROR MSG_CREDENTIALS) /\
  List.filter is_side_effect (events r) = [] /\
  List.filter is_external (events r) = [] /\
  proc (final r) = proc s_unconfigured.
Proof.
  assert (Hcred : credentials_absent pe_unconfigured \/ credentials_malformed pe_unconfigured)
    by (left; reflexivity).
  split.
  - exact (proj1 (missing_credentials pe_unconfigured s_unconfigured negative_feedback Hcred)).
  - apply (proj2 (missing_credentials pe_unconfigured s_unconfigured negative_feedback Hcred)).
    + reflexivity.
    + split; [discriminate|]. split; [reflexivity|]. split; [reflexivity|]. discriminate.
Defined.

(** *** C9 *)

(** Creation without identifier from [s_barren], and the write of the
    cache file at the cold start. *)
Lemma creation_without_identifier_witness :
  let r := ensureSpreadsheetId pe0 CLIENT s_barren in
  (outcome r = Thrown (mkExn MSG_CREATE_FAILED) /\
   (exists pre, events r = pre ++ [EvCreate "GIKI Chatbot Feedback" "Feedback" 1 (Returned None)] /\
                Forall harmless pre) /\
   List.filter is_writeFile (events r) = [] /\
   Forall (fun e => forall v, e = EvSetCached v -> v = "") (events r) /\
   cachedSpreadsheetId (proc (final r)) = "") /\
  (SHEET_ID_CACHE_PATH pe0 = SHEET_ID_CACHE_PATH pe0 /\ nonempty "sheet-1" = true /\
   exists pre post,
     events (ensureSpreadsheetId pe0 CLIENT s_cold) =
       pre ++ [CREATE pe0 (Returned (Some "sheet-1")); EvSetCached "sheet-1";
               EvWriteFile (SHEET_ID_CACHE_PATH pe0) "sheet-1" (Returned tt)] ++ post).
Proof.
  split.
  - apply (proj1 (creation_without_identifier pe0 CLIENT s_barren)
             "GIKI Chatbot Feedback" "Feedback" 1 None); [|reflexivity].
    vm_compute. do 2 right. now left.
  - apply (proj2 (creation_without_identifier pe0 CLIENT s_cold)).
    vm_compute. do 4 right. now left.
Defined.
End Scenarios.

(** * More of the feedback route *)

(** ** The client, the tiers and the tab *)

Section RouteFacts.
Context `{rt : JsRuntime} {W : Type} `{svc : !Service W}.
Variable penv : ProcessEnv.


Lemma getSheetsClient_proc (s : St W) c :
  outcome (getSheetsClient s) = Returned c ->
  proc (final (getSheetsClient s)) =
    mkProc (credentials (proc s)) (cachedSpreadsheetId (proc s)) (Some c).
Proof.
  destruct s as [[cr cached [client|]] w]; unfold getSheetsClient; run_cbv.
  - now intros [= ->].
  - destruct (not_credentials cr); run_cbv; [discriminate|]. now intros [= <-].
Qed.

(** X1.  The client is built once per process: when [getSheetsClient]
    returns a client, the same call made again returns that client with
    no event at all; no call ever leaves the process; and when no client
    was kept before, the client returned is the one built from the
    credentials of the module, which are truthy, and its being kept is
    the only event. *)
Theorem getSheetsClient_memoized (s : St W) c :
  outcome (getSheetsClient s) = Returned c ->
  let s1 := final (getSheetsClient s) in
  getSheetsClient s1 = mkRun (Returned c) s1 [] /\
  List.filter is_external (events (getSheetsClient s)) = [] /\
  (sheetsClientPromise (proc s) = None ->
   not_credentials (credentials (proc s)) = false /\
   auth_credentials c = credentials (proc s) /\
   events (getSheetsClient s) = [EvSetClient c]).
Proof.
  intros H s1. pose proof (getSheetsClient_proc s c H) as Hp. fold s1 in Hp.
  split; [|split].
  - destruct s1 as [p1 w1]. simpl in Hp. subst p1. reflexivity.
  - revert H. destruct s as [[cr cached [client|]] w]; unfold getSheetsClient; run_cbv;
      [reflexivity|]. destruct (not_credentials cr); run_cbv; [discriminate|reflexivity].
  - revert H. destruct s as [[cr cached [client|]] w]; simpl; [discriminate|].
    unfold getSheetsClient; run_cbv. destruct (not_credentials cr); run_cbv; [discriminate|].
    intros [= <-] _. now repeat split.
Qed.

Lemma config_tier_unusable evs : config_tier penv evs None -> config_unusable penv evs.
Proof.
  inversion 1; subst; [now left|]. right. eexists. now left.
Qed.

Lemma file_tier_unusable evs : file_tier penv evs None -> file_unusable penv evs.
Proof.
  inversion 1; subst.
  - left. eexists. now left.
  - right. eexists. split; [now left|now left].
  - right. eexists. split; [now left|]. right. eexists. right. now left.
Qed.

Lemma config_unusable_app evs1 evs2 evs3 :
  config_unusable penv evs2 -> config_unusable penv (evs1 ++ evs2 ++ evs3).
Proof.
  intros [H|[e H]]; [now left|]. right. exists e.
  apply in_or_app. right. apply in_or_app. now left.
Qed.

Lemma file_unusable_app evs1 evs2 evs3 :
  file_unusable penv evs2 -> file_unusable penv (evs1 ++ evs2 ++ evs3).
Proof.
  assert (Hin : forall x, In x evs2 -> In x (evs1 ++ evs2 ++ evs3)).
  { intros x Hx. apply in_or_app. right. apply in_or_app. now left. }
  intros [[e H]|(stored & H & [Hb|[e He]])].
  - left. exists e. auto.
  - right. exists stored. split; auto.
  - right. exists stored. split; auto. right. exists e. auto.
Qed.

Lemma create_tier_one evs r :
  create_tier penv evs r -> length (List.filter is_create evs) = 1.
Proof. inversion 1; reflexivity. Qed.

Lemma harmless_no_create evs : Forall harmless evs -> List.filter is_create evs = [].
Proof.
  induction 1 as [|e l He _ IH]; [reflexivity|].
  simpl. now rewrite (harmless_not_create _ He).
Qed.

(** A fall-through in which a creation call occurs went through all
    three tiers. *)
Lemma fallthrough_created evs r t tab f x :
  fallthrough penv evs r ->
  In (EvCreate t tab f x) evs ->
  exists evs2 evs3 evs4,
    evs = evs2 ++ evs3 ++ evs4 /\
    config_tier penv evs2 None /\ file_tier penv evs3 None /\ create_tier penv evs4 r.
Proof.
  intros H Hin.
  inversion H as [? ? Hc|? ? ? Hc Hf|evs2 evs3 evs4 ? Hc Hf Hn]; subst.
  - apply config_tier_Some in Hc as [_ [d ->]]. simpl in Hin.
    destruct Hin as [Hin|[Hin|[]]]; discriminate.
  - apply harmless_config in Hc. apply file_tier_Some in Hf as [_ (st & d & ->)].
    apply in_app_or in Hin as [Hin|Hin].
    + now apply In_harmless_create in Hin.
    + simpl in Hin. destruct Hin as [Hin|[Hin|[Hin|[]]]]; discriminate.
  - now exists evs2, evs3, evs4.
Qed.

Lemma resolution_created cached evs r t tab f x :
  resolution penv cached evs r ->
  In (EvCreate t tab f x) evs ->
  memo_unusable evs cached /\ config_unusable penv evs /\ file_unusable penv evs /\
  length (List.filter is_create evs) = 1.
Proof.
  intros Hres Hin.
  inversion Hres as [d Hc|? ? Hc Hf|e evs' ? Hc Hf]; subst.
  - destruct Hin as [Hin|[]]. discriminate.
  - destruct (fallthrough_created _ _ _ _ _ _ Hf Hin) as (e2 & e3 & e4 & -> & H2 & H3 & H4).
    split; [now left|].
    split; [apply (config_unusable_app [] e2 _), config_tier_unusable, H2|].
    split; [apply file_unusable_app, file_tier_unusable, H3|].
    rewrite !List.filter_app, !length_app.
    rewrite (harmless_no_create _ (harmless_config _ _ H2)),
            (harmless_no_create _ (harmless_file _ _ H3)).
    simpl. now apply create_tier_one in H4.
  - apply in_app_or in Hin as [Hin|Hin].
    { simpl in Hin. destruct Hin as [Hin|[Hin|[Hin|[]]]]; discriminate. }
    destruct (fallthrough_created _ _ _ _ _ _ Hf Hin) as (e2 & e3 & e4 & -> & H2 & H3 & H4).
    split; [right; exists e; now left|].
    split; [|split].
    + destruct (config_tier_unusable _ H2) as [Hn|[e' He']]; [now left|].
      right. exists e'. apply in_or_app. right. apply in_or_app. now left.
    + destruct (file_unusable_app e2 e3 e4 (file_tier_unusable _ H3)) as [[e' H]|(st & H & Hr)].
      * left. exists e'. apply in_or_app. now right.
      * right. exists st. split; [apply in_or_app; now right|].
        destruct Hr as [Hb|[e' He']]; [now left|]. right. exists e'. apply in_or_app. now right.
    + rewrite !List.filter_app, !length_app.
      rewrite (harmless_no_create _ (harmless_config _ _ H2)),
              (harmless_no_create _ (harmless_file _ _ H3)).
      simpl. now apply create_tier_one in H4.
Qed.

(** X2.  Creation is the last resort: when a resolution calls
    [spreadsheets.create], then in that same resolution the memoized
    identifier was empty or failed its check, the configured identifier
    was empty or failed its check, and the cache file could not be read,
    or was blank, or named an identifier that failed its check; and the
    resolution makes that one creation call only. *)
Theorem creation_is_last_resort sheets (s : St W) t tab f x :
  let evs := events (ensureSpreadsheetId penv sheets s) in
  In (EvCreate t tab f x) evs ->
  memo_unusable evs (cachedSpreadsheetId (proc s)) /\
  config_unusable penv evs /\
  file_unusable penv evs /\
  length (List.filter is_create evs) = 1.
Proof.
  intros evs Hin.
  exact (resolution_created _ _ _ _ _ _ _ (ensureSpreadsheetId_resolution penv sheets s) Hin).
Qed.

Lemma create_tier_created evs r id v :
  create_tier penv evs r ->
  In (CREATE penv (Returned (Some id))) evs ->
  nonempty id = true ->
  cached_after evs v = id /\
  (r = Returned id \/
   exists e, r = Thrown e /\
     (In (EvWriteFile (SHEET_ID_CACHE_PATH penv) id (Thrown e)) evs \/
      In (WRITE_HEADER penv id (Thrown e)) evs)).
Proof.
  intros H Hin Hid.
  inversion H as [e|o' Ho'|id' e Hid'|id' e Hid'|id' Hid']; subst;
    unfold CREATE, WARN_CREATING, WRITE_HEADER in *; simpl in Hin;
    repeat match goal with
      | H : _ \/ _ |- _ => destruct H
      | H : False |- _ => destruct H
      | H : _ = EvCreate _ _ _ _ |- _ => discriminate H
      | H : EvCreate _ _ _ _ = EvCreate _ _ _ _ |- _ => injection H as ->
      end.
  - simpl in Ho'. rewrite Hid in Ho'. discriminate.
  - split; [reflexivity|]. right. exists e. split; [reflexivity|]. left. simpl. auto.
  - split; [reflexivity|]. right. exists e. split; [reflexivity|]. right. simpl. auto 6.
  - split; [reflexivity|]. now left.
Qed.

Lemma resolution_created_id cached evs r id :
  resolution penv cached evs r ->
  In (CREATE penv (Returned (Some id))) evs ->
  nonempty id = true ->
  cached_after evs cached = id /\
  (r = Returned id \/
   exists e, r = Thrown e /\
     (In (EvWriteFile (SHEET_ID_CACHE_PATH penv) id (Thrown e)) evs \/
      In (WRITE_HEADER penv id (Thrown e)) evs)).
Proof.
  intros Hres Hin Hid.
  assert (Hft : forall evs', fallthrough penv evs' r ->
            In (CREATE penv (Returned (Some id))) evs' ->
            forall v, cached_after evs' v = id /\
            (r = Returned id \/
             exists e, r = Thrown e /\
               (In (EvWriteFile (SHEET_ID_CACHE_PATH penv) id (Thrown e)) evs' \/
                In (WRITE_HEADER penv id (Thrown e)) evs'))).
  { intros evs' Hf Hin' v.
    destruct (fallthrough_created _ _ _ _ _ _ Hf Hin') as (e2 & e3 & e4 & -> & H2 & H3 & H4).
    apply in_app_or in Hin' as [Hin'|Hin'];
      [exfalso; exact (In_harmless_create _ _ _ _ _ (harmless_config _ _ H2) Hin')|].
    apply in_app_or in Hin' as [Hin'|Hin'];
      [exfalso; exact (In_harmless_create _ _ _ _ _ (harmless_file _ _ H3) Hin')|].
    destruct (create_tier_created _ _ _ (cached_after e3 (cached_after e2 v)) H4 Hin' Hid)
      as [Hc Hr].
    split; [now rewrite !cached_after_app|].
    destruct Hr as [Hr|(e & Hr & Hw)]; [now left|]. right. exists e. split; [assumption|].
    destruct Hw as [Hw|Hw]; [left|right]; apply in_or_app; right; apply in_or_app; now right. }
  inversion Hres as [d Hc|? ? Hc Hf|e evs' ? Hc Hf]; subst.
  - destruct Hin as [Hin|[]]. discriminate.
  - now apply Hft.
  - apply in_app_or in Hin as [Hin|Hin].
    { simpl in Hin. destruct Hin as [Hin|[Hin|[Hin|[]]]]; discriminate. }
    destruct (Hft _ Hf Hin "") as [Hc' Hr]. split.
    + rewrite cached_after_app. exact Hc'.
    + destruct Hr as [Hr|(e' & Hr & Hw)]; [now left|]. right. exists e'. split; [assumption|].
      destruct Hw as [Hw|Hw]; [left|right]; apply in_or_app; now right.
Qed.

(** X3.  Provisioning that stops half-way keeps its identifier: when
    [spreadsheets.create] has returned a non-empty identifier, that
    identifier is memoized when the resolution ends, whether the
    resolution returns it or throws because the write of the cache file
    or of the header row was rejected (it then throws that very error).
    So the next resolution of the process, if the identifier passes its
    check, returns it after that one check, without the file or the
    header having been written. *)
Theorem created_identifier_stays_memoized sheets (s : St W) id :
  let r := ensureSpreadsheetId penv sheets s in
  In (CREATE penv (Returned (Some id))) (events r) ->
  nonempty id = true ->
  cachedSpreadsheetId (proc (final r)) = id /\
  (outcome r = Returned id \/
   exists e, outcome r = Thrown e /\
     (In (EvWriteFile (SHEET_ID_CACHE_PATH penv) id (Thrown e)) (events r) \/
      In (WRITE_HEADER penv id (Thrown e)) (events r))) /\
  (forall d w2,
     svc_get (world (final r)) id None = (Returned d, w2) ->
     ensureSpreadsheetId penv sheets (final r) =
       mkRun (Returned id) (mkSt (proc (final r)) w2) [EvGet id None (Returned d)]).
Proof.
  intros r Hin Hid.
  destruct (resolution_created_id _ _ _ _ (ensureSpreadsheetId_resolution penv sheets s) Hin Hid)
    as [Hc Hr].
  assert (Hmemo : cachedSpreadsheetId (proc (final r)) = id)
    by (unfold r; now rewrite ensureSpreadsheetId_proc).
  split; [assumption|]. split; [assumption|].
  intros d w2 Hget. rewrite ensureSpreadsheetId_unfold.
  destruct (verify_cached_run sheets (final r))
    as [[Hc' _]|[[_ (d' & w' & Hget' & Hr')]|[_ (e' & w' & Hget' & _)]]];
    rewrite Hmemo in *; [congruence| |congruence].
  rewrite Hget in Hget'. injection Hget' as <- <-.
  rewrite (or_else_resolved _ _ _ id) by now rewrite Hr'.
  now rewrite Hr'.
Qed.

Lemma resolution_justified cached evs id :
  resolution penv cached evs (Returned id) ->
  (exists d, In (EvGet id None (Returned d)) evs) \/
  In (CREATE penv (Returned (Some id))) evs.
Proof.
  intros Hres.
  inversion Hres as [d Hc|? ? Hc Hf|e evs' ? Hc Hf]; subst.
  - left. exists d. now left.
  - now apply fallthrough_justified.
  - destruct (fallthrough_justified _ _ _ Hf) as [[d Hd]|Hd].
    + left. exists d. apply in_or_app. now right.
    + right. apply in_or_app. now right.
Qed.

(** X4.  Whatever a resolution returns is a non-empty identifier that
    is memoized when the call ends, and that this very call has seen
    accessible (a [spreadsheets.get] of it succeeded) or has created. *)
Theorem resolution_returns_verified sheets (s : St W) id :
  let r := ensureSpreadsheetId penv sheets s in
  outcome r = Returned id ->
  nonempty id = true /\
  cachedSpreadsheetId (proc (final r)) = id /\
  ((exists d, In (EvGet id None (Returned d)) (events r)) \/
   In (CREATE penv (Returned (Some id))) (events r)).
Proof.
  intros r Hout.
  pose proof (ensureSpreadsheetId_resolution penv sheets s) as Hres.
  fold r in Hres. rewrite Hout in Hres.
  destruct (resolution_Returned _ _ _ _ Hres) as [Hid Hafter].
  split; [assumption|]. split; [unfold r; now rewrite ensureSpreadsheetId_proc|].
  now apply (resolution_justified _ _ _ Hres).
Qed.

(** X5.  A process that has just loaded the module memoizes the
    configured identifier without checking it.  So, when that identifier
    is not accessible, the first resolution checks it twice in a row:
    once as the memoized identifier (which is then cleared) and once more
    as the configured one, before anything else is tried. *)
Theorem configured_identifier_checked_twice sheets (s : St W) e w' :
  proc s = fst (module_load penv) ->
  nonempty (ENV_SPREADSHEET_ID penv) = true ->
  svc_get (world s) (ENV_SPREADSHEET_ID penv) None = (Thrown e, w') ->
  exists x rest,
    events (ensureSpreadsheetId penv sheets s) =
      [EvGet (ENV_SPREADSHEET_ID penv) None (Thrown e); WARN_STALE e; EvSetCached "";
       EvGet (ENV_SPREADSHEET_ID penv) None x] ++ rest /\
    fst (svc_get w' (ENV_SPREADSHEET_ID penv) None) = x.
Proof.
  destruct s as [p w]. simpl. intros -> Henv Hget.
  unfold module_load. destruct (load_credentials penv) as [c warnings]. simpl.
  unfold str_or. rewrite Henv.
  unfold ensureSpreadsheetId, lower_tiers, or_else, verify_cached, verify_env.
  run_cbv_stages. rewrite Henv. run_cbv_stages. rewrite Hget. run_cbv_stages.
  destruct (svc_get w' (ENV_SPREADSHEET_ID penv) None) as [[d|e'] w''] eqn:Hget2; run_cbv_stages.
  - eexists. eexists. split; reflexivity.
  - match goal with
    | |- context [verify_file ?p ?c ?st] => destruct (verify_file p c st) as [[[i|]|?] ? ?]
    end; run_cbv_stages.
    + eexists. eexists. split; reflexivity.
    + match goal with
      | |- context [create_fallback ?p ?c ?st] => destruct (create_fallback p c st) as [? ? ?]
      end; run_cbv_stages.
      eexists. eexists. split; reflexivity.
    + eexists. eexists. split; reflexivity.
Qed.

(** X6.  [ensureSheetTab] writes the header row only into a tab it has
    just created: a [values.update] among its events means that the
    listing did not show the tab, that the [addSheet] request was
    accepted, and that the update is the write of the header row to the
    spreadsheet the function was called for; it is the last call, its
    reply is how the function ends, and the module variables are left
    alone. *)
Theorem header_written_after_tab_creation sheets id (s : St W) sid range values x :
  let r := ensureSheetTab penv sheets id s in
  In (EvValuesUpdate sid range values x) (events r) ->
  exists d,
    lists_tab penv d = false /\
    events r = [EvGet id (Some false) (Returned d);
                EvAddSheet id (TAB_NAME penv) 1 (Returned tt);
                WRITE_HEADER penv id x] /\
    EvValuesUpdate sid range values x = WRITE_HEADER penv id x /\
    outcome r = x /\
    proc (final r) = proc s.
Proof.
  destruct s as [p w]. unfold ensureSheetTab, lists_tab, WRITE_HEADER. run_cbv.
  run_call; run_cbv; [|intros [H|[]]; discriminate].
  destruct (existsb _ _) eqn:Htab; run_cbv; [intros [H|[]]; discriminate|].
  run_call; run_cbv; [|intros [H|[H|[]]]; discriminate].
  run_call; run_cbv; (intros [H|[H|[H|[]]]]; try discriminate);
    injection H as <- <- <- <-; exists d; now repeat split.
Qed.

(** X7.  When [ensureSheetTab] throws, the error is that of the call
    that was rejected, which is the last call made: the listing; or,
    after a listing without the tab, the [addSheet] request (no header
    is written then); or, after an accepted [addSheet], the write of the
    header.  The module variables are left alone. *)
Theorem ensureSheetTab_rejected sheets id (s : St W) e :
  let r := ensureSheetTab penv sheets id s in
  outcome r = Thrown e ->
  proc (final r) = proc s /\
  (events r = [EvGet id (Some false) (Thrown e)] \/
   exists d, lists_tab penv d = false /\
     (events r = [EvGet id (Some false) (Returned d);
                  EvAddSheet id (TAB_NAME penv) 1 (Thrown e)] \/
      events r = [EvGet id (Some false) (Returned d);
                  EvAddSheet id (TAB_NAME penv) 1 (Returned tt);
                  WRITE_HEADER penv id (Thrown e)])).
Proof.
  destruct s as [p w]. unfold ensureSheetTab, lists_tab, WRITE_HEADER. run_cbv.
  run_call; run_cbv; [|intros [= <-]; split; [reflexivity|now left]].
  destruct (existsb _ _) eqn:Htab; run_cbv; [discriminate|].
  run_call; run_cbv;
    [|intros [= <-]; split; [reflexivity|right; exists d; split; [assumption|now left]]].
  run_call; run_cbv; [discriminate|].
  intros [= <-]. split; [reflexivity|]. right. exists d. split; [assumption|now right].
Qed.
End RouteFacts.

(** ** The answers of the endpoint *)

Section AnswerFacts.
Context `{rt : JsRuntime} {W : Type} `{svc : !Service W}.
Variable penv : ProcessEnv.

Lemma ends_with_app pre evs e : ends_with evs e -> ends_with (pre ++ evs) e.
Proof. intros [p ->]. exists (pre ++ p). now rewrite app_assoc. Qed.

Lemma ends_with_one e : ends_with [e] e.
Proof. now exists []. Qed.

Lemma no_append_none_accepted evs :
  List.filter is_append evs = [] -> List.filter is_accepted_append evs = [].
Proof.
  induction evs as [|e evs IH]; [reflexivity|]. simpl.
  destruct e; simpl; try exact IH; discriminate.
Qed.

Lemma getSheetsClient_accepts_nothing (s : St W) :
  List.filter is_accepted_append (events (getSheetsClient s)) = [].
Proof. apply no_append_none_accepted, getSheetsClient_no_append. Qed.

Lemma ensureSpreadsheetId_accepts_nothing sheets (s : St W) :
  List.filter is_accepted_append (events (ensureSpreadsheetId penv sheets s)) = [].
Proof. apply no_append_none_accepted, ensureSpreadsheetId_no_append. Qed.

Lemma ensureSheetTab_accepts_nothing sheets id (s : St W) :
  List.filter is_accepted_append (events (ensureSheetTab penv sheets id s)) = [].
Proof. apply no_append_none_accepted, ensureSheetTab_no_append. Qed.

Lemma ensureSheetTab_returned sheets id (s : St W) :
  let r := ensureSheetTab penv sheets id s in
  outcome r = Returned tt ->
  proc (final r) = proc s /\
  exists d rest, events r = EvGet id (Some false) (Returned d) :: rest /\
    found_or_created penv (events r) = true.
Proof.
  destruct s as [p w]. unfold ensureSheetTab, found_or_created, is_tab_found, lists_tab.
  run_cbv. run_call; run_cbv; [|discriminate].
  destruct (existsb _ _) eqn:Htab; run_cbv.
  - intros _. split; [reflexivity|]. exists d, []. split; [reflexivity|]. simpl. now rewrite Htab.
  - run_call; run_cbv; [|discriminate]. run_call; run_cbv; [|discriminate].
    intros _. split; [reflexivity|]. eexists. eexists. split; [reflexivity|].
    simpl. now rewrite orb_true_r.
Qed.

(** Case analysis on the run of a stage, with what it leaves. *)
Ltac run_stage :=
  match goal with
  | |- context [getSheetsClient ?st] =>
      let E := fresh "Eclient" in let F := fresh "Fclient" in let P := fresh "Pclient" in
      pose proof (getSheetsClient_accepts_nothing st) as F;
      pose proof (getSheetsClient_proc st) as P;
      destruct (getSheetsClient st) as [[?sheets|?e] ?s ?evs] eqn:E;
      simpl in F, P; try specialize (P _ eq_refl)
  | |- context [ensureSpreadsheetId ?p ?c ?st] =>
      let E := fresh "Eresolve" in let F := fresh "Fresolve" in
      let P := fresh "Presolve" in let Q := fresh "Qresolve" in
      pose proof (ensureSpreadsheetId_accepts_nothing c st) as F;
      pose proof (resolve_returned p c st) as P;
      pose proof (ensureSpreadsheetId_proc p c st) as Q;
      destruct (ensureSpreadsheetId p c st) as [[?id|?e] ?s ?evs] eqn:E;
      simpl in F, P, Q; try specialize (P _ eq_refl)
  | |- context [ensureSheetTab ?p ?c ?i ?st] =>
      let E := fresh "Etab" in let F := fresh "Ftab" in let P := fresh "Ptab" in
      pose proof (ensureSheetTab_accepts_nothing c i st) as F;
      pose proof (ensureSheetTab_returned c i st) as P;
      destruct (ensureSheetTab p c i st) as [[[]|?e] ?s ?evs] eqn:E;
      simpl in F, P; try specialize (P eq_refl)
  end.

(** A run that ended in the handler. *)
Ltac close_failed :=
  right; right; eexists; split; [reflexivity|]; split;
  [repeat first [apply ends_with_one | apply ends_with_app]
  |simpl; rewrite ?List.filter_app;
   repeat match goal with
     | H : List.filter is_accepted_append _ = [] |- _ => rewrite H; clear H
     end; reflexivity].

(** A run that got through its append; [pfx] is what came before the
    stages. *)
Ltac close_stored pfx :=
  match goal with
  | Pc : proc ?s1 = mkProc _ _ (Some ?c),
    Pr : nonempty ?id = true /\ _,
    Qr : proc ?s2 = mkProc _ (cached_after ?e2 _) _,
    Pt : proc ?s3 = proc ?s2 /\ _,
    Fc : List.filter is_accepted_append ?e1 = [],
    Fr : List.filter is_accepted_append ?e2 = [],
    Ft : List.filter is_accepted_append ?e3 = [] |- _ =>
      let Hid := fresh "Hid" in let Hmemo := fresh "Hmemo" in
      let Hp := fresh "Hp" in let d := fresh "d" in let rest := fresh "rest" in
      let Hev := fresh "Hev" in let Hfound := fresh "Hfound" in
      destruct Pr as [Hid Hmemo]; destruct Pt as [Hp (d & rest & Hev & Hfound)];
      right; left; exists c, id, (pfx ++ e1 ++ e2 ++ e3), d; eexists;
      (split; [reflexivity|]);
      (split; [simpl; now rewrite <- !app_assoc|]);
      (split; [rewrite !List.filter_app, Fc, Fr, Ft; reflexivity|]);
      (split; [transitivity (proc s3); [reflexivity|];
               rewrite Hp, Qr; rewrite Qr in Hmemo; simpl in Hmemo;
               rewrite Hmemo, Pc; reflexivity|]);
      (split; [assumption|]);
      (split; [apply in_or_app; right; apply in_or_app; right; apply in_or_app; right;
               rewrite Hev; now left|]);
      unfold found_or_created in *; rewrite !existsb_app, Hfound, !orb_true_r; reflexivity
  end.

(** The three ways a request ends. *)
Lemma POST_runs (req : option Json) (s : St W) :
  let r := POST penv req s in
  rejected req s r \/ stored penv s r \/ failed r.
Proof.
  destruct req as [payload|]; [|left; now split].
  unfold rejected, stored, failed, LOGGED, feedbackType_of.
  destruct s as [p w].
  destruct payload as [|b|z num|str|items|fields]; unfold POST; run_cbv_stages;
    try (left; split; reflexivity); try close_failed.
  repeat (run_convert; run_cbv_stages); try close_failed.
  match goal with
  | |- context [is_feedback_type ?x] => destruct (is_feedback_type x) eqn:Hft
  end;
    [rewrite (feedback_type_nonempty _ Hft)|rewrite orb_true_r];
    cbv beta iota delta [negb orb];
    [|left; split; reflexivity].
  run_test.
  - unfold parse_toISOString.
    match goal with
    | |- context [Date_parse ?x] => destruct (Date_parse x) as [t|] eqn:Ht
    end; run_cbv_stages; [|close_failed].
    repeat (run_stage; run_cbv_stages); try close_failed.
    run_call; run_cbv_stages; [|close_failed].
    close_stored (@nil Event).
  - run_call. run_cbv_stages.
    repeat (run_stage; run_cbv_stages); try close_failed.
    run_call; run_cbv_stages; [|close_failed].
    close_stored [EvNow t].
Qed.


(** X9.  What a 200 leaves behind: the accepted append of one row is
    the last event of the request and its only accepted append; it went
    to a non-empty identifier whose listing the request had read and
    whose tab it had found or created; and when the request ends that
    identifier is the memoized one and a client is kept, the credentials
    being as before. *)
Theorem POST_success_state (req : option Json) (s : St W) (resp : Response) :
  let r := POST penv req s in
  outcome r = Returned resp ->
  status resp = 200 ->
  exists c id pre d row,
    events r = pre ++ [EvValuesAppend id (RANGE penv) [row] (Returned tt)] /\
    List.filter is_accepted_append pre = [] /\
    In (EvGet id (Some false) (Returned d)) pre /\
    found_or_created penv pre = true /\
    nonempty id = true /\
    proc (final r) = mkProc (credentials (proc s)) id (Some c).
Proof.
  intros r Hout Hstatus. destruct (POST_runs req s) as [[H _]|[H|H]]; fold r in H.
  - rewrite H in Hout. injection Hout as <-. discriminate.
  - destruct H as (c & id & pre & d & row & _ & Hev & Hnone & Hproc & Hid & Hin & Hfound).
    now exists c, id, pre, d, row.
  - destruct H as (e & Hout' & _). rewrite Hout' in Hout. injection Hout as <-. discriminate.
Qed.
End AnswerFacts.

(** ** More runs in the reference environment *)

Module RouteRuns.
Import Ref Cases ReadOnly.

(** The first request of a process builds the client from the
    credentials [{}] and keeps it. *)
Lemma getSheetsClient_memoized_witness :
  let c := mkClient (Some (JObject [])) ["https://www.googleapis.com/auth/spreadsheets"] in
  let s1 := final (getSheetsClient s_cold) in
  getSheetsClient s1 = mkRun (Returned c) s1 [] /\
  List.filter is_external (events (getSheetsClient s_cold)) = [] /\
  not_credentials (credentials (proc s_cold)) = false /\
  auth_credentials c = credentials (proc s_cold) /\
  events (getSheetsClient s_cold) = [EvSetClient c].
Proof.
  intros c.
  destruct (getSheetsClient_memoized s_cold c) as (H1 & H2 & H3); [reflexivity|].
  split; [exact H1|]. split; [exact H2|]. apply H3. reflexivity.
Defined.

(** The creation of [s_first]: the memoized and configured identifier
    ["sheet-env"] failed its checks and there was no cache file. *)
Lemma creation_is_last_resort_witness :
  let evs := events (ensureSpreadsheetId peE CLIENT s_first) in
  memo_unusable evs "sheet-env" /\
  config_unusable peE evs /\
  file_unusable peE evs /\
  length (List.filter is_create evs) = 1.
Proof.
  apply (creation_is_last_resort peE CLIENT s_first "GIKI Chatbot Feedback" "Feedback" 1
           (Returned (Some "sheet-old"))).
  vm_compute. do 7 right. now left.
Defined.

(** A cold start on a read-only file system: the spreadsheet is
    created, the write of the cache file is rejected, and the resolution
    throws. *)
Example read_only_cold_start :
  let r := ensureSpreadsheetId pe0 CLIENT s_sealed in
  outcome r = Thrown EROFS /\
  List.filter is_external (events r) =
    [EvReadFile CACHE (Thrown (mkExn "ENOENT: no such file or directory"));
     EvCreate "GIKI Chatbot Feedback" "Feedback" 1 (Returned (Some "sheet-1"));
     EvWriteFile CACHE "sheet-1" (Thrown EROFS)].
Proof. vm_compute. repeat split. Qed.

(** There, ["sheet-1"] stays memoized, and the next resolution returns
    it after one check. *)
Lemma created_identifier_stays_memoized_witness :
  let r := ensureSpreadsheetId pe0 CLIENT s_sealed in
  cachedSpreadsheetId (proc (final r)) = "sheet-1" /\
  (outcome r = Returned "sheet-1" \/
   exists e, outcome r = Thrown e /\
     (In (EvWriteFile (SHEET_ID_CACHE_PATH pe0) "sheet-1" (Thrown e)) (events r) \/
      In (WRITE_HEADER pe0 "sheet-1" (Thrown e)) (events r))) /\
  ensureSpreadsheetId pe0 CLIENT (final r) =
    mkRun (Returned "sheet-1") (final r) [EvGet "sheet-1" None (Returned LISTING)].
Proof.
  intros r.
  destruct (created_identifier_stays_memoized pe0 CLIENT s_sealed "sheet-1")
    as (H1 & H2 & H3).
  - vm_compute. do 2 right. now left.
  - reflexivity.
  - split; [exact H1|]. split; [exact H2|].
    apply (H3 LISTING (world (final r))).
    vm_compute. reflexivity.
Defined.

(** The resolution from [s_fall] returns the identifier of the cache
    file, which it has checked. *)
Lemma resolution_returns_verified_witness :
  let r := ensureSpreadsheetId peE CLIENT s_fall in
  nonempty "sheet-file" = true /\
  cachedSpreadsheetId (proc (final r)) = "sheet-file" /\
  ((exists d, In (EvGet "sheet-file" None (Returned d)) (events r)) \/
   In (CREATE peE (Returned (Some "sheet-file"))) (events r)).
Proof.
  apply (resolution_returns_verified peE CLIENT s_fall "sheet-file").
  vm_compute. reflexivity.
Defined.

(** The first resolution of [s_first] checks ["sheet-env"] twice. *)
Lemma configured_identifier_checked_twice_witness :
  exists x rest,
    events (ensureSpreadsheetId peE CLIENT s_first) =
      [EvGet (ENV_SPREADSHEET_ID peE) None (Thrown NOT_FOUND); WARN_STALE NOT_FOUND;
       EvSetCached ""; EvGet (ENV_SPREADSHEET_ID peE) None x] ++ rest /\
    fst (svc_get (world s_first) (ENV_SPREADSHEET_ID peE) None) = x.
Proof.
  apply (configured_identifier_checked_twice peE CLIENT s_first NOT_FOUND (world s_first));
    reflexivity.
Defined.

(** The header written on [s_no_tab]. *)
Lemma header_written_after_tab_creation_witness :
  let r := ensureSheetTab pe0 CLIENT "sheet-1" s_no_tab in
  exists d,
    lists_tab pe0 d = false /\
    events r = [EvGet "sheet-1" (Some false) (Returned d);
                EvAddSheet "sheet-1" (TAB_NAME pe0) 1 (Returned tt);
                WRITE_HEADER pe0 "sheet-1" (Returned tt)] /\
    EvValuesUpdate "sheet-1" "Feedback!A1:H1" [HEADER] (Returned tt) =
      WRITE_HEADER pe0 "sheet-1" (Returned tt) /\
    outcome r = Returned tt /\
    proc (final r) = proc s_no_tab.
Proof.
  apply (header_written_after_tab_creation pe0 CLIENT "sheet-1" s_no_tab
           "sheet-1" "Feedback!A1:H1" [HEADER] (Returned tt)).
  vm_compute. do 2 right. now left.
Defined.

(** A spreadsheet that cannot be reached. *)
Lemma ensureSheetTab_rejected_witness :
  let r := ensureSheetTab pe0 CLIENT "sheet-2" s_no_tab in
  proc (final r) = proc s_no_tab /\
  (events r = [EvGet "sheet-2" (Some false) (Thrown NOT_FOUND)] \/
   exists d, lists_tab pe0 d = false /\
     (events r = [EvGet "sheet-2" (Some false) (Returned d);
                  EvAddSheet "sheet-2" (TAB_NAME pe0) 1 (Thrown NOT_FOUND)] \/
      events r = [EvGet "sheet-2" (Some false) (Returned d);
                  EvAddSheet "sheet-2" (TAB_NAME pe0) 1 (Returned tt);
                  WRITE_HEADER pe0 "sheet-2" (Thrown NOT_FOUND)])).
Proof.
  apply (ensureSheetTab_rejected pe0 CLIENT "sheet-2" s_no_tab NOT_FOUND).
  reflexivity.
Defined.

(** The submission of the cold start. *)
Lemma POST_success_state_witness :
  let r := POST pe0 (Some negative_feedback) s_cold in
  exists c id pre d row,
    events r = pre ++ [EvValuesAppend id (RANGE pe0) [row] (Returned tt)] /\
    List.filter is_accepted_append pre = [] /\
    In (EvGet id (Some false) (Returned d)) pre /\
    found_or_created pe0 pre = true /\
    nonempty id = true /\
    proc (final r) = mkProc (credentials (proc s_cold)) id (Some c).
Proof.
  apply (POST_success_state pe0 (Some negative_feedback) s_cold OK); reflexivity.
Defined.
End RouteRuns.
(** * Properties of the chat route *)

Module ChatFacts.
Import Chat.

(** ** Trimming and collapsing *)

Lemma trimStart_clean s c r : trimStart s = c :: r -> is_space c = false.
Proof.
  induction s as [|a s IH]; simpl; [discriminate|].
  destruct (is_space a) eqn:Ha; [exact IH|]. now intros [= <- _].
Qed.

Lemma trimStart_id c r : is_space c = false -> trimStart (c :: r) = c :: r.
Proof. intros H. simpl. now rewrite H. Qed.

Lemma trimEnd_head c r : is_space c = false -> exists r', trimEnd (c :: r) = c :: r'.
Proof.
  intros H. simpl. destruct (trimEnd r); [rewrite H|]; eauto.
Qed.

Lemma trimEnd_trimEnd s : trimEnd (trimEnd s) = trimEnd s.
Proof.
  induction s as [|c s IH]; [reflexivity|]. simpl.
  destruct (trimEnd s) as [|d t] eqn:E.
  - destruct (is_space c) eqn:Hc; [reflexivity|]. simpl. now rewrite Hc.
  - simpl. simpl in IH. rewrite IH. reflexivity.
Qed.

Lemma trim_trim s : trim (trim s) = trim s.
Proof.
  unfold trim. destruct (trimStart s) as [|c r] eqn:E; [reflexivity|].
  apply trimStart_clean in E.
  destruct (trimEnd_head c r E) as [r' Hr']. rewrite Hr'.
  rewrite (trimStart_id _ _ E), <- Hr'. apply trimEnd_trimEnd.
Qed.

Lemma trimEnd_snoc s c : is_space c = false -> trimEnd (s ++ [c]) = s ++ [c].
Proof.
  intros H. induction s as [|a s IH]; simpl; [now rewrite H|].
  rewrite IH. destruct s; reflexivity.
Qed.

Lemma single_spaced_collapse s : forall b, single_spaced b (collapse b s) = true.
Proof.
  induction s as [|c s IH]; intros b; [reflexivity|]. simpl.
  destruct (is_space c) eqn:Hc.
  - destruct b; [apply IH|]. simpl. apply IH.
  - simpl. rewrite Hc. apply IH.
Qed.

Lemma single_spaced_weaken s : single_spaced true s = true -> single_spaced false s = true.
Proof.
  destruct s as [|c s]; [reflexivity|]. simpl.
  destruct (is_space c); [|auto]. rewrite andb_false_r. discriminate.
Qed.

Lemma single_spaced_trimStart s : forall b b',
  single_spaced b s = true -> single_spaced b' (trimStart s) = true.
Proof.
  induction s as [|c s IH]; intros b b' H; [reflexivity|]. simpl in *.
  destruct (is_space c) eqn:Hc.
  - apply andb_true_iff in H as [_ H]. now apply (IH true).
  - simpl. now rewrite Hc.
Qed.

Lemma single_spaced_trimEnd s : forall b,
  single_spaced b s = true -> single_spaced b (trimEnd s) = true.
Proof.
  induction s as [|c s IH]; intros b H; [reflexivity|]. simpl in *.
  destruct (is_space c) eqn:Hc.
  - apply andb_true_iff in H as [H1 H2]. specialize (IH true H2).
    destruct (trimEnd s) as [|d t]; [reflexivity|].
    simpl. rewrite Hc, H1. exact IH.
  - specialize (IH false H).
    destruct (trimEnd s) as [|d t]; simpl; rewrite Hc; [reflexivity|exact IH].
Qed.

Lemma single_spaced_firstn n : forall s b,
  single_spaced b s = true -> single_spaced b (firstn n s) = true.
Proof.
  induction n as [|n IH]; intros [|c s] b H; try reflexivity. simpl in *.
  destruct (is_space c).
  - apply andb_true_iff in H as [H1 H2]. rewrite H1. now apply IH.
  - now apply IH.
Qed.

Lemma single_spaced_snoc s c : forall b,
  is_space c = false -> single_spaced b s = true -> single_spaced b (s ++ [c]) = true.
Proof.
  intros b Hc. revert b. induction s as [|a s IH]; intros b H; simpl in *.
  - now rewrite Hc.
  - destruct (is_space a).
    + apply andb_true_iff in H as [H1 H2]. rewrite H1. now apply IH.
    + now apply IH.
Qed.

Lemma firstn_head {A} n (c : A) r : firstn (S n) (c :: r) = c :: firstn n r.
Proof. reflexivity. Qed.

(** The snippet cut from a trimmed, collapsed text. *)
Lemma clip_tidy s :
  nonempty (trim (collapse false s)) = true -> tidy (clip (trim (collapse false s))).
Proof.
  set (t := trim (collapse false s)). intros Hne.
  assert (Hss : single_spaced false t = true).
  { apply single_spaced_trimEnd, (single_spaced_trimStart _ false), single_spaced_collapse. }
  assert (Htt : trim t = t) by apply trim_trim.
  unfold clip. destruct (260 <? length t)%nat eqn:Hlen.
  - apply Nat.ltb_lt in Hlen.
    assert (Hfl : length (firstn 260 t) = 260) by (rewrite length_firstn; lia).
    repeat split.
    + intros H. apply (f_equal (@length N)) in H. rewrite length_app in H. simpl in H. lia.
    + rewrite length_app, Hfl. simpl. lia.
    + destruct t as [|c r]; [discriminate|].
      assert (Hc : is_space c = false).
      { unfold trim in Htt. destruct (trimStart (c :: r)) as [|c' r'] eqn:E.
        - discriminate.
        - pose proof (trimStart_clean _ _ _ E) as Hc'.
          destruct (trimEnd_head c' r' Hc') as [r'' Hr'']. rewrite Hr'' in Htt.
          now injection Htt as <- _. }
      unfold trim. change (260) with (S 259). rewrite firstn_head.
      change ((c :: firstn 259 r) ++ ELLIPSIS) with (c :: (firstn 259 r ++ ELLIPSIS)).
      rewrite (trimStart_id _ _ Hc).
      change (c :: (firstn 259 r ++ ELLIPSIS)) with ((c :: firstn 259 r) ++ [8230%N]).
      now apply trimEnd_snoc.
    + apply single_spaced_snoc; [reflexivity|]. now apply single_spaced_firstn.
    + intros _. now exists (firstn 260 t).
  - apply Nat.ltb_ge in Hlen. repeat split; auto.
    + intros Ht. rewrite Ht in Hne. discriminate.
    + intros H. lia.
Qed.

(** ** The citations *)

Lemma citation_of_tidy ch c :
  citation_of ch = Returned (Some c) -> tidy (snippet c).
Proof.
  unfold citation_of, and_then.
  destruct (context_of ch) as [ctx|]; [|discriminate].
  destruct (negb (truthy ctx)); [discriminate|].
  destruct (get ctx "title") as [t|]; [|discriminate].
  destruct (get ctx "text") as [x|]; [|discriminate].
  destruct (if truthy x then _ else _) as [rawText|]; [|discriminate].
  unfold replace_spaces.
  destruct (or_else rawText (VString [])) as [| | | |s| |]; simpl; try discriminate.
  destruct (nonempty (trim (collapse false s))) eqn:Hne; simpl; [|discriminate].
  destruct (ToString _); [|discriminate].
  intros [= <-]. simpl. now apply clip_tidy.
Qed.

Lemma same_spec c c' : same (title c) (snippet c) c' = true <-> c' = c.
Proof.
  unfold same, ueqb. rewrite andb_true_iff, !bool_decide_eq_true.
  destruct c, c'; simpl. split; [intros [-> ->]; reflexivity|intros [= -> ->]; auto].
Qed.

Lemma existsb_same c cs : existsb (same (title c) (snippet c)) cs = false -> ~ In c cs.
Proof.
  intros H Hin. assert (Ht : existsb (same (title c) (snippet c)) cs = true).
  { apply existsb_exists. exists c. split; [assumption|]. now apply same_spec. }
  congruence.
Qed.

Lemma kept_push c cs :
  kept cs -> tidy (snippet c) ->
  kept (if negb (existsb (same (title c) (snippet c)) cs) then cs ++ [c] else cs).
Proof.
  intros [Hnd Hall] Hc. destruct (existsb _ cs) eqn:E; simpl; [now split|].
  split.
  - apply NoDup_app. repeat split; auto.
    + intros x Hx Hx'. apply list_elem_of_In in Hx, Hx'. destruct Hx' as [<-|[]].
      now apply existsb_same in E.
    + apply NoDup_singleton.
  - apply Forall_app. split; [assumption|]. now apply Forall_cons_2; [|apply Forall_nil_2].
Qed.

Lemma length_push c (cs : list Citation) (b : bool) :
  length (if b then cs ++ [c] else cs) <= S (length cs).
Proof. destruct b; [rewrite length_app; simpl; lia|lia]. Qed.

Lemma each_chunk_kept max chunks : forall cs flow,
  kept cs -> S (length cs) <= Nat.max 1 max ->
  each_chunk max chunks cs = Returned flow ->
  match flow with
  | Continue cs' => kept cs' /\ S (length cs') <= Nat.max 1 max
  | Return cs' => kept cs' /\ length cs' <= Nat.max 1 max
  end.
Proof.
  induction chunks as [|ch chunks IH]; intros cs flow Hk Hlen; simpl.
  - intros [= <-]. now split.
  - unfold and_then. destruct (citation_of ch) as [[c|]|] eqn:Hc; [| |discriminate].
    + pose proof (kept_push c cs Hk (citation_of_tidy _ _ Hc)) as Hk'.
      pose proof (length_push c cs (negb (existsb (same (title c) (snippet c)) cs))) as Hl.
      destruct (max <=? length _)%nat eqn:Hmax.
      * intros [= <-]. split; [assumption|]. lia.
      * apply Nat.leb_gt in Hmax. apply IH; [assumption|lia].
    + now apply IH.
Qed.

Lemma each_meta_kept max metas : forall cs cs',
  kept cs -> S (length cs) <= Nat.max 1 max ->
  each_meta max metas cs = Returned cs' ->
  kept cs' /\ length cs' <= Nat.max 1 max.
Proof.
  induction metas as [|gm metas IH]; intros cs cs' Hk Hlen; simpl.
  - intros [= <-]. split; [assumption|lia].
  - unfold and_then.
    destruct (opt_get gm "grounding_chunks") as [a|]; [|discriminate].
    destruct (if truthy a then _ else _) as [chunks|]; [|discriminate].
    destruct (iterate chunks) as [items|]; [|discriminate].
    destruct (each_chunk max items cs) as [flow|] eqn:Hflow; [|discriminate].
    pose proof (each_chunk_kept _ _ _ _ Hk Hlen Hflow) as Hf.
    destruct flow as [cs1|cs1].
    + destruct Hf. now apply IH.
    + intros [= <-]. exact Hf.
Qed.

Lemma extractCitations_kept response max cs :
  extractCitationsFromResponse response max = Returned cs ->
  kept cs /\ length cs <= Nat.max 1 max.
Proof.
  unfold extractCitationsFromResponse, and_then.
  assert (H0 : kept []) by (split; [apply NoDup_nil_2|apply Forall_nil_2]).
  destruct (negb (truthy response)).
  - intros [= <-]. split; [assumption|simpl; lia].
  - destruct (get response "candidates") as [c|]; [|discriminate].
    destruct (iterate _) as [candidates|]; [|discriminate].
    destruct (collect_meta candidates []) as [metas|]; [|discriminate].
    intros H. apply (each_meta_kept _ _ _ _ H0) in H; [assumption|simpl; lia].
Qed.

(** X10.  When [extractCitationsFromResponse] returns, it returns at
    most [max] citations, or one when [max] is 0 (the bound is tested
    after a citation is added), and no two of them have the same title
    and the same snippet. *)
Theorem citations_bounded_distinct response max cs :
  extractCitationsFromResponse response max = Returned cs ->
  length cs <= Nat.max 1 max /\ NoDup cs.
Proof.
  intros H. apply extractCitations_kept in H as [[Hnd _] Hlen]. now split.
Qed.

(** X11.  Every snippet that [extractCitationsFromResponse] returns
    is tidy: it is not empty, it is at most 261 code units long, it has
    no white space at either end, its only white space is single
    spaces, and when it is 261 long it ends with the ellipsis. *)
Theorem snippets_tidy response max cs c :
  extractCitationsFromResponse response max = Returned cs ->
  In c cs ->
  tidy (snippet c).
Proof.
  intros H Hin. apply extractCitations_kept in H as [[_ Hall] _].
  rewrite Forall_forall in Hall. apply Hall. now apply list_elem_of_In.
Qed.

(** *** Responses grounded in well-formed chunks *)

Lemma citation_of_chunk c : citation_of (chunk_of (fst c) (snd c)) = Returned (cite c).
Proof.
  destruct c as [t x]. unfold citation_of, cite, chunk_of, context_of, or_else.
  destruct x as [|c0 x]; [reflexivity|].
  cbn [and_then get property String.eqb Ascii.eqb Bool.eqb truthy nonempty negb fst snd
       replace_spaces].
  destruct (trim (collapse false (c0 :: x))) as [|c1 y] eqn:E; [reflexivity|].
  destruct t; reflexivity.
Qed.

Lemma each_chunk_distinct max chunks : forall acc,
  length acc < max ->
  exists flow,
    each_chunk max (List.map (fun c => chunk_of (fst c) (snd c)) chunks) acc = Returned flow /\
    flow_list flow = acc ++ firstn (max - length acc) (distinct acc (omap cite chunks)).
Proof.
  induction chunks as [|ch chunks IH]; intros acc Hlen; simpl.
  - exists (Continue acc). split; [reflexivity|]. simpl. now rewrite firstn_nil, app_nil_r.
  - rewrite citation_of_chunk. simpl. destruct (cite ch) as [c|]; simpl; [|now apply IH].
    destruct (existsb (same (title c) (snippet c)) acc) eqn:E; simpl.
    + destruct (max <=? length acc)%nat eqn:Hmax; [apply Nat.leb_le in Hmax; lia|].
      now apply IH.
    + rewrite length_app. simpl.
      destruct (max <=? length acc + 1)%nat eqn:Hmax.
      * apply Nat.leb_le in Hmax. exists (Return (acc ++ [c])). split; [reflexivity|].
        simpl. replace (max - length acc) with 1 by lia. reflexivity.
      * apply Nat.leb_gt in Hmax.
        destruct (IH (acc ++ [c])) as (flow & Hflow & Hlist);
          [rewrite length_app; simpl; lia|].
        exists flow. split; [assumption|]. rewrite Hlist, length_app. simpl.
        replace (max - length acc) with (S (max - (length acc + 1))) by lia.
        simpl. now rewrite <- app_assoc.
Qed.

(** X12.  On a response grounded in chunks that each have a title
    and a text, and for [max] of 1 or more, the citations are those of
    the chunks whose text is not blank (the title, or the default title
    for an empty one, and the text collapsed, trimmed and clipped), in
    the order of the chunks, without the repetitions of an earlier one,
    cut after the first [max]. *)
Theorem citations_of_chunks chunks max :
  1 <= max ->
  extractCitationsFromResponse (grounded_by chunks) max =
  Returned (firstn max (distinct [] (omap cite chunks))).
Proof.
  intros Hmax. unfold extractCitationsFromResponse, grounded_by. simpl.
  destruct (each_chunk_distinct max chunks []) as (flow & -> & Hlist); [simpl; lia|].
  simpl in *. rewrite Nat.sub_0_r in Hlist. rewrite <- Hlist.
  now destruct flow.
Qed.

(** ** The text *)

Lemma push_texts_parts texts : forall parts,
  push_texts (List.map part_of texts) parts = Returned (parts ++ texts).
Proof.
  induction texts as [|t texts IH]; intros parts; simpl.
  - now rewrite app_nil_r.
  - rewrite IH, <- app_assoc. reflexivity.
Qed.

Lemma each_candidate_texts cands : forall parts,
  each_candidate (List.map candidate_of cands) parts = Returned (parts ++ concat cands).
Proof.
  induction cands as [|c cands IH]; intros parts; simpl.
  - now rewrite app_nil_r.
  - rewrite push_texts_parts. simpl. rewrite IH, <- app_assoc. reflexivity.
Qed.

(** X13.  On a response without a [text] of its own, made of
    candidates whose parts each have a text, [extractTextFromResponse]
    returns the texts of all the parts of all the candidates, in order,
    joined by newlines, and trimmed. *)
Theorem extractText_joins_parts cands :
  extractTextFromResponse (response_of cands) =
  Returned (trim (join [10%N] (concat cands))).
Proof.
  unfold extractTextFromResponse, response_of. simpl.
  now rewrite each_candidate_texts.
Qed.

(** X14.  Whatever [extractTextFromResponse] returns is either the
    [text] of the response itself, as it is, or a string without white
    space at either end. *)
Theorem extractText_trimmed response t :
  extractTextFromResponse response = Returned t ->
  get response "text" = Returned (VString t) \/ trim t = t.
Proof.
  unfold extractTextFromResponse, and_then.
  destruct (negb (truthy response)); [intros [= <-]; now right|].
  destruct (get response "text") as [v|]; [|discriminate].
  destruct v; try (intros [= <-]; now left);
    (destruct (get response "candidates"); [|discriminate]);
    (destruct (iterate _); [|discriminate]);
    (destruct (each_candidate _ _); [|discriminate]);
    intros [= <-]; right; apply trim_trim.
Qed.

(** ** The handler *)

Section HandlerFacts.
Context {W : Type} `{mdl : !Model W}.
Variable cenv : ChatEnv.

Ltac chat_cbv :=
  cbv beta iota zeta delta
    [Chat.bind Chat.try_catch Chat.ret Chat.lift Chat.generateContent Chat.console_error].

(** The handler, stage by stage. *)
Lemma chat_POST_run req w :
  POST cenv req w =
    match message_of (payload req) with
    | Thrown e => mkRun (Returned (FAILURE e)) w [LOGGED e]
    | Returned message =>
        match type_of (payload req) with
        | Thrown e => mkRun (Returned (FAILURE e)) w [LOGGED e]
        | Returned type =>
            if negb (nonempty message) then
              mkRun (Returned (mkResponse (BodyError MSG_NO_MESSAGE) 400)) w []
            else if negb (nonempty (store_for cenv type)) then
              mkRun (Returned (mkResponse (BodyError MSG_NO_STORE) 500)) w []
            else
              let params :=
                mkParameters "gemini-2.5-flash" message (instruction_for type)
                             [store_for cenv type] in
              match svc_generateContent w params with
              | (Thrown e, w') =>
                  mkRun (Returned (FAILURE e)) w' [EvGenerateContent params (Thrown e); LOGGED e]
              | (Returned response, w') =>
                  match text_of response with
                  | Thrown e =>
                      mkRun (Returned (FAILURE e)) w'
                            [EvGenerateContent params (Returned response); LOGGED e]
                  | Returned text =>
                      if negb (truthy text) then
                        mkRun (Returned (mkResponse (BodyError MSG_NO_TEXT) 500)) w'
                              [EvGenerateContent params (Returned response)]
                      else
                        match extractCitationsFromResponse response 4 with
                        | Thrown e =>
                            mkRun (Returned (FAILURE e)) w'
                                  [EvGenerateContent params (Returned response); LOGGED e]
                        | Returned citations =>
                            mkRun (Returned (mkResponse (BodyAnswer text citations) 200)) w'
                                  [EvGenerateContent params (Returned response)]
                        end
                  end
              end
        end
    end.
Proof.
  unfold POST, message_of, type_of, text_of, store_for, instruction_for, FAILURE, LOGGED,
    payload, and_then.
  chat_cbv.
  destruct (get (default (VObject []) req) "message") as [vm|e]; [|reflexivity].
  destruct (toString (or_else vm (VString []))) as [sm|e]; [|reflexivity].
  destruct (get (default (VObject []) req) "type") as [vt|e]; [|reflexivity].
  destruct (toString (or_else vt (VString (u "undergrad")))) as [st|e]; [|reflexivity].
  destruct (negb (nonempty (trim sm))); [reflexivity|].
  destruct (ueqb (toLowerCase st) (u "grad")).
  - destruct (negb (nonempty (or_empty (GRAD_STORE cenv)))); [reflexivity|].
    destruct (svc_generateContent w _) as [[response|e] w']; [|reflexivity].
    destruct (get response "text") as [vx|e]; [|reflexivity].
    destruct (nullish vx).
    + destruct (extractTextFromResponse response) as [x|e]; [|reflexivity].
      destruct (negb (truthy (VString x))); [reflexivity|].
      destruct (extractCitationsFromResponse response 4); reflexivity.
    + destruct (negb (truthy vx)); [reflexivity|].
      destruct (extractCitationsFromResponse response 4); reflexivity.
  - destruct (negb (nonempty (or_empty (UG_STORE cenv)))); [reflexivity|].
    destruct (svc_generateContent w _) as [[response|e] w']; [|reflexivity].
    destruct (get response "text") as [vx|e]; [|reflexivity].
    destruct (nullish vx).
    + destruct (extractTextFromResponse response) as [x|e]; [|reflexivity].
      destruct (negb (truthy (VString x))); [reflexivity|].
      destruct (extractCitationsFromResponse response 4); reflexivity.
    + destruct (negb (truthy vx)); [reflexivity|].
      destruct (extractCitationsFromResponse response 4); reflexivity.
Qed.

Lemma blank_empty (s : ustring) : nonempty s = false -> s = [].
Proof. now destruct s. Qed.

Lemma trim_message body m : message_of body = Returned m -> trim m = m.
Proof.
  unfold message_of, and_then.
  destruct (get body "message"); [|discriminate].
  destruct (toString _); [|discriminate].
  intros [= <-]. apply trim_trim.
Qed.

(** X15.  The chat endpoint answers 400 exactly to a request whose
    message is blank: when the message read from the payload is empty
    once converted and trimmed, and the type converts too, the answer is
    the 400 with [No message provided.], nothing is called and nothing
    is logged; and a 400 is given in no other case.  (A type that does
    not convert makes it a 500, blank message or not; a body that is
    not JSON counts as the empty object, so it gets the 400.) *)
Theorem chat_no_message req w :
  (message_of (payload req) = Returned [] ->
   is_returned (type_of (payload req)) = true ->
   POST cenv req w = mkRun (Returned (mkResponse (BodyError MSG_NO_MESSAGE) 400)) w []) /\
  (forall resp,
     outcome (POST cenv req w) = Returned resp ->
     status resp = 400 ->
     message_of (payload req) = Returned [] /\
     is_returned (type_of (payload req)) = true).
Proof.
  rewrite chat_POST_run. split.
  - intros -> Ht. destruct (type_of (payload req)); [reflexivity|discriminate].
  - intros resp.
    destruct (message_of (payload req)) as [m|e]; [|intros [= <-]; discriminate].
    destruct (type_of (payload req)) as [t|e]; [|intros [= <-]; discriminate].
    destruct (nonempty m) eqn:Hm; simpl.
    + destruct (negb (nonempty (store_for cenv t))); [intros [= <-]; discriminate|].
      destruct (svc_generateContent w _) as [[response|e] w']; [|intros [= <-]; discriminate].
      destruct (text_of response) as [x|e]; [|intros [= <-]; discriminate].
      destruct (negb (truthy x)); [intros [= <-]; discriminate|].
      destruct (extractCitationsFromResponse response 4); intros [= <-]; discriminate.
    + intros _ _. apply blank_empty in Hm. now subst.
Qed.

(** X16.  When the store of the requested type is not configured
    (unset or empty), a request with a message is answered 500 with the
    configuration error, and the model is not called. *)
Theorem chat_store_missing req w m t :
  message_of (payload req) = Returned m ->
  type_of (payload req) = Returned t ->
  m <> [] ->
  store_for cenv t = [] ->
  POST cenv req w = mkRun (Returned (mkResponse (BodyError MSG_NO_STORE) 500)) w [].
Proof.
  intros Hm Ht Hne Hs. rewrite chat_POST_run, Hm, Ht, Hs.
  destruct m; [contradiction|reflexivity].
Qed.

(** X17.  The chat endpoint calls the model at most once per request,
    as the first thing it does to the outside.  The call carries the
    message read from the payload, trimmed and not empty, the model name
    [gemini-2.5-flash], and exactly one store, not empty: the graduate
    store with the graduate instruction when the type, lower-cased, is
    [grad], the undergraduate ones otherwise. *)
Theorem chat_model_call req w params reply :
  In (EvGenerateContent params reply) (events (POST cenv req w)) ->
  exists t rest,
    message_of (payload req) = Returned (contents params) /\
    contents params <> [] /\
    trim (contents params) = contents params /\
    type_of (payload req) = Returned t /\
    params = mkParameters "gemini-2.5-flash" (contents params) (instruction_for t)
                          [store_for cenv t] /\
    store_for cenv t <> [] /\
    svc_generateContent w params = (reply, final (POST cenv req w)) /\
    events (POST cenv req w) = EvGenerateContent params reply :: rest /\
    List.filter is_generate rest = [].
Proof.
  rewrite chat_POST_run.
  destruct (message_of (payload req)) as [m|e] eqn:Hmsg;
    [|intros [H|[]]; discriminate].
  destruct (type_of (payload req)) as [t|e]; [|intros [H|[]]; discriminate].
  destruct (nonempty m) eqn:Hm; simpl; [|intros []].
  destruct (nonempty (store_for cenv t)) eqn:Hs; simpl; [|intros []].
  assert (Hm' : m <> []) by (intros ->; discriminate).
  assert (Hs' : store_for cenv t <> []) by (intros E; rewrite E in Hs; discriminate).
  pose proof (trim_message _ _ Hmsg) as Htrim.
  destruct (svc_generateContent w _) as [[response|e] w'] eqn:Hcall.
  - destruct (text_of response) as [x|e].
    + destruct (negb (truthy x)).
      * intros [[= <- <-]|[]]. exists t, []. now repeat split.
      * destruct (extractCitationsFromResponse response 4).
        -- intros [[= <- <-]|[]]. exists t, []. now repeat split.
        -- intros [[= <- <-]|[H|[]]]; [|discriminate]. exists t; eexists; now repeat split.
    + intros [[= <- <-]|[H|[]]]; [|discriminate]. exists t; eexists; now repeat split.
  - intros [[= <- <-]|[H|[]]]; [|discriminate]. exists t; eexists; now repeat split.
Qed.

(** X18.  A 200 of the chat endpoint: the model was called once and
    replied; the body holds the text of the reply, which is truthy
    ([response.text] when there is one, the extracted text otherwise),
    and the citations of the reply, which are at most 4, distinct, and
    with tidy snippets. *)
Theorem chat_answer req w resp :
  outcome (POST cenv req w) = Returned resp ->
  status resp = 200 ->
  exists params response text citations,
    events (POST cenv req w) = [EvGenerateContent params (Returned response)] /\
    resp = mkResponse (BodyAnswer text citations) 200 /\
    text_of response = Returned text /\
    truthy text = true /\
    extractCitationsFromResponse response 4 = Returned citations /\
    length citations <= 4 /\
    NoDup citations /\
    Forall (fun c => tidy (snippet c)) citations.
Proof.
  rewrite chat_POST_run.
  destruct (message_of (payload req)) as [m|e]; [|intros [= <-]; discriminate].
  destruct (type_of (payload req)) as [t|e]; [|intros [= <-]; discriminate].
  destruct (negb (nonempty m)); [intros [= <-]; discriminate|].
  destruct (negb (nonempty (store_for cenv t))); [intros [= <-]; discriminate|].
  simpl.
  destruct (svc_generateContent w _) as [[response|e] w']; [|intros [= <-]; discriminate].
  destruct (text_of response) as [x|e] eqn:Hx; [|intros [= <-]; discriminate].
  destruct (truthy x) eqn:Htruthy; simpl; [|intros [= <-]; discriminate].
  destruct (extractCitationsFromResponse response 4) as [cs|e] eqn:Hcs;
    [|intros [= <-]; discriminate].
  intros [= <-] _.
  destruct (extractCitations_kept _ _ _ Hcs) as [[Hnd Hall] Hlen].
  eexists. exists response, x, cs. now repeat split.
Qed.

(** X19.  The chat endpoint always answers: [POST] never throws, its
    status is 200, 400 or 500, it makes at most one call to the model
    and leaves the world untouched when it makes none; and an answer
    that reports a failure comes from an error that was thrown, which
    was logged as the last event, and has details that are not empty
    (the message of the error, or [Unknown error]). *)
Theorem chat_never_throws req w :
  exists resp,
    outcome (POST cenv req w) = Returned resp /\
    (status resp = 200 \/ status resp = 400 \/ status resp = 500) /\
    length (List.filter is_generate (events (POST cenv req w))) <= 1 /\
    (List.filter is_generate (events (POST cenv req w)) = [] -> final (POST cenv req w) = w) /\
    (forall error details,
       body resp = BodyFailure error details ->
       exists e pre,
         resp = FAILURE e /\ details <> "" /\
         events (POST cenv req w) = pre ++ [LOGGED e]).
Proof.
  rewrite chat_POST_run.
  assert (Hd : forall e, str_or (message e) "Unknown error" <> "").
  { intros e. unfold str_or. destruct (message e); simpl; discriminate. }
  destruct (message_of (payload req)) as [m|e].
  2:{ eexists. split; [reflexivity|]. simpl. repeat split; auto.
      intros error details [= <- <-]. exists e, []. now repeat split. }
  destruct (type_of (payload req)) as [t|e].
  2:{ eexists. split; [reflexivity|]. simpl. repeat split; auto.
      intros error details [= <- <-]. exists e, []. now repeat split. }
  destruct (negb (nonempty m)).
  { eexists. split; [reflexivity|]. simpl. repeat split; auto. discriminate. }
  destruct (negb (nonempty (store_for cenv t))).
  { eexists. split; [reflexivity|]. simpl. repeat split; auto. discriminate. }
  simpl.
  destruct (svc_generateContent w _) as [[response|e] w'].
  2:{ eexists. split; [reflexivity|]. simpl. repeat split; auto; try discriminate.
      intros error details [= <- <-]. exists e. eexists [_]. now repeat split. }
  destruct (text_of response) as [x|e].
  2:{ eexists. split; [reflexivity|]. simpl. repeat split; auto; try discriminate.
      intros error details [= <- <-]. exists e. eexists [_]. now repeat split. }
  destruct (negb (truthy x)).
  { eexists. split; [reflexivity|]. simpl. repeat split; auto; discriminate. }
  destruct (extractCitationsFromResponse response 4) as [cs|e].
  - eexists. split; [reflexivity|]. simpl. repeat split; auto; discriminate.
  - eexists. split; [reflexivity|]. simpl. repeat split; auto; try discriminate.
    intros error details [= <- <-]. exists e. eexists [_]. now repeat split.
Qed.
End HandlerFacts.
End ChatFacts.

(** ** Runs of the chat route *)

Module ChatRuns.
Import Chat ChatRef ChatFacts.

(** The citations of [FEES]: the repeated chunk counts once, and the
    chunk without a title gets the default one. *)
Example citations_of_FEES :
  extractCitationsFromResponse FEES 4 = Returned [TUITION; HOSTEL].
Proof. vm_compute. reflexivity. Qed.

(** With [max = 0] the first citation found is returned. *)
Example citations_max_zero :
  extractCitationsFromResponse FEES 0 = Returned [TUITION].
Proof. vm_compute. reflexivity. Qed.

Lemma citations_bounded_distinct_witness :
  length [TUITION; HOSTEL] <= Nat.max 1 4 /\ NoDup [TUITION; HOSTEL].
Proof.
  apply (citations_bounded_distinct FEES 4). vm_compute. reflexivity.
Defined.

Lemma snippets_tidy_witness : tidy (snippet TUITION).
Proof.
  apply (snippets_tidy FEES 4 [TUITION; HOSTEL] TUITION).
  - vm_compute. reflexivity.
  - now left.
Defined.

(** A response without [text]: the parts of its candidates. *)
Lemma extractText_trimmed_witness :
  get (response_of [[u " one"]; [u "two "]]) "text" =
    Returned (VString (u "one" ++ [10%N] ++ u "two")) \/
  trim (u "one" ++ [10%N] ++ u "two") = u "one" ++ [10%N] ++ u "two".
Proof.
  apply (extractText_trimmed (response_of [[u " one"]; [u "two "]])).
  vm_compute. reflexivity.
Defined.

(** A request without a body, and one with a blank message. *)
Lemma chat_no_message_witness :
  POST stores None [Returned FEES] =
    mkRun (Returned (mkResponse (BodyError MSG_NO_MESSAGE) 400)) [Returned FEES] [] /\
  message_of (payload (Some (VObject [("message", VString (u "  "))]))) = Returned [] /\
  is_returned (type_of (W := list (Outcome Val))
                 (payload (Some (VObject [("message", VString (u "  "))])))) = true.
Proof.
  split.
  - apply (proj1 (chat_no_message stores None [Returned FEES])); reflexivity.
  - apply (proj2 (chat_no_message stores (Some (VObject [("message", VString (u "  "))]))
                    [Returned FEES])
             (mkResponse (BodyError MSG_NO_MESSAGE) 400)); reflexivity.
Defined.

(** The question on a deployment without stores: no call is made. *)
Lemma chat_store_missing_witness :
  POST no_stores (Some question) [Returned FEES] =
    mkRun (Returned (mkResponse (BodyError MSG_NO_STORE) 500)) [Returned FEES] [].
Proof.
  apply (chat_store_missing no_stores (Some question) [Returned FEES]
           (u "What are the fees?") (u "grad")).
  - reflexivity.
  - reflexivity.
  - discriminate.
  - reflexivity.
Defined.

(** The citations of three well-formed chunks, the last one blank. *)
Lemma citations_of_chunks_witness :
  let chunks := [(u "Policy", u " Fees  are due. "); (u "Policy", u "Fees are due.");
                 ([], [9%N; 10%N])] in
  extractCitationsFromResponse (grounded_by chunks) 4 =
  Returned (firstn 4 (distinct [] (omap cite chunks))).
Proof.
  intros chunks. apply (citations_of_chunks chunks 4). lia.
Defined.

(** The call made for the question. *)
Lemma chat_model_call_witness :
  exists t rest,
    message_of (payload (Some question)) = Returned (contents ASKED) /\
    contents ASKED <> [] /\
    trim (contents ASKED) = contents ASKED /\
    type_of (payload (Some question)) = Returned t /\
    ASKED = mkParameters "gemini-2.5-flash" (contents ASKED) (instruction_for t)
                         [store_for stores t] /\
    store_for stores t <> [] /\
    svc_generateContent [Returned FEES] ASKED =
      (Returned FEES, final (POST stores (Some question) [Returned FEES])) /\
    events (POST stores (Some question) [Returned FEES]) =
      EvGenerateContent ASKED (Returned FEES) :: rest /\
    List.filter is_generate rest = [].
Proof.
  apply (chat_model_call stores (Some question) [Returned FEES] ASKED (Returned FEES)).
  vm_compute. now left.
Defined.

(** The answer to the question. *)
Lemma chat_answer_witness :
  exists params response text citations,
    events (POST stores (Some question) [Returned FEES]) =
      [EvGenerateContent params (Returned response)] /\
    mkResponse (BodyAnswer (VString (u "Fees are listed in the policy.")) [TUITION; HOSTEL]) 200 =
      mkResponse (BodyAnswer text citations) 200 /\
    text_of response = Returned text /\
    truthy text = true /\
    extractCitationsFromResponse response 4 = Returned citations /\
    length citations <= 4 /\
    NoDup citations /\
    Forall (fun c => tidy (snippet c)) citations.
Proof.
  apply (chat_answer stores (Some question) [Returned FEES]).
  - vm_compute. reflexivity.
  - reflexivity.
Defined.

(** A model that is not available: the failure reported names the
    error, which was logged last. *)
Lemma chat_never_throws_witness :
  exists e pre,
    FAILURE UNAVAILABLE = FAILURE e /\
    str_or (message UNAVAILABLE) "Unknown error" <> "" /\
    events (POST stores (Some question) []) = pre ++ [LOGGED e].
Proof.
  destruct (chat_never_throws stores (Some question) [])
    as (resp & Hout & _ & _ & _ & Hfail).
  assert (Hresp : resp = FAILURE UNAVAILABLE) by (vm_compute in Hout; now injection Hout).
  subst resp. exact (Hfail _ _ eq_refl).
Defined.

(** A model that is not available: the error is logged and reported. *)
Example model_unavailable :
  POST stores (Some question) [] =
    mkRun (Returned (FAILURE UNAVAILABLE)) []
          [EvGenerateContent ASKED (Thrown UNAVAILABLE); LOGGED UNAVAILABLE].
Proof. vm_compute. reflexivity. Qed.

(** A body that is [null]. *)
Example null_body :
  POST stores (Some VNull) [Returned FEES] =
    mkRun (Returned (FAILURE (mkExn "Cannot read properties of null (reading 'message')")))
          [Returned FEES]
          [LOGGED (mkExn "Cannot read properties of null (reading 'message')")].
Proof. vm_compute. reflexivity. Qed.
End ChatRuns.

(** * Properties of the chat page *)

Module PageFacts.
Import Chat ChatFacts Page.

(** ** The bold markers *)

Lemma opens_spec s r : opens s = Some r -> s = [42%N; 42%N] ++ r.
Proof.
  destruct s as [|a [|b s]]; simpl; try discriminate.
  destruct (a =? 42)%N eqn:Ha; [|discriminate].
  destruct (b =? 42)%N eqn:Hb; [|discriminate].
  apply N.eqb_eq in Ha, Hb. intros [= <-]. now subst.
Qed.

Lemma group_spec s : forall content rest,
  group s = Some (content, rest) ->
  s = content ++ [42%N; 42%N] ++ rest /\ content <> [] /\ plain content = true.
Proof.
  induction s as [|c s IH]; intros content rest; simpl; [discriminate|].
  destruct (is_line_terminator c) eqn:Hc; [discriminate|].
  destruct (opens s) as [r|] eqn:Ho.
  - intros [= <- <-]. apply opens_spec in Ho. subst s.
    repeat split; [discriminate|]. simpl. now rewrite Hc.
  - destruct (group s) as [[content' rest']|]; [|discriminate].
    intros [= <- <-]. destruct (IH _ _ eq_refl) as (-> & Hne & Hp).
    repeat split; [discriminate|]. simpl. now rewrite Hc.
Qed.

Lemma bold_at_spec s content rest :
  bold_at s = Some (content, rest) ->
  s = [42%N; 42%N] ++ content ++ [42%N; 42%N] ++ rest /\
  content <> [] /\ plain content = true.
Proof.
  unfold bold_at. destruct (opens s) as [r|] eqn:Ho; [|discriminate].
  intros H. apply opens_spec in Ho. apply group_spec in H as (-> & Hne & Hp).
  now subst.
Qed.

Lemma exec_spec s : forall before content rest,
  exec s = Some (before, content, rest) ->
  s = before ++ [42%N; 42%N] ++ content ++ [42%N; 42%N] ++ rest /\
  content <> [] /\ plain content = true.
Proof.
  induction s as [|c s IH]; intros before content rest.
  - simpl. discriminate.
  - cbn [exec]. destruct (bold_at (c :: s)) as [[content' rest']|] eqn:Hb.
    + intros [= <- <- <-]. now apply bold_at_spec in Hb.
    + destruct (exec s) as [[[before' content'] rest']|]; [|discriminate].
      intros [= <- <- <-]. destruct (IH _ _ _ eq_refl) as (-> & Hne & Hp).
      now repeat split.
Qed.

Lemma exec_shorter s before content rest :
  exec s = Some (before, content, rest) -> length rest < length s.
Proof.
  intros H. apply exec_spec in H as (-> & _). rewrite !length_app. simpl. lia.
Qed.

(** ** [formatInlineText] *)

Lemma sources_app a b : sources (a ++ b) = sources a ++ sources b.
Proof. unfold sources. now rewrite map_app, concat_app. Qed.

Lemma bold_indices_app a b : bold_indices (a ++ b) = bold_indices a ++ bold_indices b.
Proof. unfold bold_indices. apply omap_app. Qed.

(** What the loop gives, with enough fuel. *)
Lemma scan_spec fuel : forall s i,
  length s < fuel ->
  sources (scan fuel s i) = s /\
  Forall well_formed (scan fuel s i) /\
  bold_indices (scan fuel s i) = seq i (length (bold_indices (scan fuel s i))).
Proof.
  induction fuel as [|fuel IH]; intros s i Hlen; [lia|].
  cbn [scan]. destruct (exec s) as [[[before content] rest]|] eqn:He.
  - pose proof (exec_shorter _ _ _ _ He) as Hshort.
    apply exec_spec in He as (Hs & Hne & Hp).
    destruct (IH rest (S i)) as (Hsrc & Hwf & Hidx); [lia|].
    assert (Hb : sources (if nonempty before then [Text before] else []) = before).
    { destruct before; [reflexivity|]. unfold sources. simpl. now rewrite app_nil_r. }
    assert (Hbi : bold_indices (if nonempty before then [Text before] else []) = []).
    { now destruct before. }
    split; [|split].
    + rewrite sources_app, Hb. unfold sources in *. simpl. rewrite Hsrc, Hs.
      now rewrite <- !app_assoc.
    + apply Forall_app. split.
      * destruct before; simpl; [apply Forall_nil_2|].
        apply Forall_cons_2; [discriminate|apply Forall_nil_2].
      * apply Forall_cons_2; [now split|assumption].
    + rewrite bold_indices_app, Hbi. simpl. now rewrite <- Hidx.
  - destruct s as [|c s]; simpl.
    + now repeat split.
    + repeat split.
      * unfold sources. simpl. now rewrite app_nil_r.
      * apply Forall_cons_2; [discriminate|apply Forall_nil_2].
Qed.

(** The fuel does not matter once it exceeds the length of the text. *)
Lemma scan_fuel fuel : forall fuel' s i,
  length s < fuel -> length s < fuel' -> scan fuel s i = scan fuel' s i.
Proof.
  induction fuel as [|fuel IH]; intros [|fuel'] s i H H'; try lia.
  cbn [scan]. destruct (exec s) as [[[before content] rest]|] eqn:He; [|reflexivity].
  apply exec_shorter in He. f_equal. f_equal. apply IH; lia.
Qed.

(** X20.  [formatInlineText] loses nothing: putting the two asterisks
    back around every bold segment and concatenating the segments gives
    the text again.  The result is never empty; unless the text is
    empty, every text segment is non-empty and every bold segment holds
    a non-empty run without line terminator; and the bold segments are
    numbered 0, 1, 2, ... in their order. *)
Theorem formatInlineText_roundtrip text :
  let segments := formatInlineText text in
  sources segments = text /\
  segments <> [] /\
  (text <> [] -> Forall well_formed segments) /\
  bold_indices segments = seq 0 (length (bold_indices segments)).
Proof.
  unfold formatInlineText.
  destruct (scan_spec (S (length text)) text 0) as (Hsrc & Hwf & Hidx); [lia|].
  destruct (scan (S (length text)) text 0) as [|seg segs] eqn:E.
  - unfold sources in Hsrc. simpl in Hsrc. subst text.
    repeat split; [discriminate|]. intros H. contradiction.
  - repeat split; auto; discriminate.
Qed.

(** *** No marker is left *)

Lemma opens_app p r t : opens p = Some r -> opens (p ++ t) = Some (r ++ t).
Proof.
  destruct p as [|a [|b p]]; simpl; try discriminate.
  destruct ((a =? 42)%N && (b =? 42)%N); [|discriminate]. now intros [= <-].
Qed.

Lemma opens_none_app p t : opens p = None -> 2 <= length p -> opens (p ++ t) = None.
Proof.
  destruct p as [|a [|b p]]; simpl; try lia.
  destruct ((a =? 42)%N && (b =? 42)%N); [discriminate|reflexivity].
Qed.

Lemma group_app p t : forall content rest,
  group p = Some (content, rest) -> group (p ++ t) = Some (content, rest ++ t).
Proof.
  induction p as [|c p IH]; intros content rest; simpl; [discriminate|].
  destruct (is_line_terminator c); [discriminate|].
  destruct (opens p) as [r|] eqn:Ho.
  - intros [= <- <-]. now rewrite (opens_app _ _ t Ho).
  - destruct (group p) as [[content' rest']|] eqn:Hg; [|discriminate].
    intros [= <- <-].
    assert (Hlen : 2 <= length p).
    { apply group_spec in Hg as (-> & _). rewrite !length_app. simpl. lia. }
    now rewrite (opens_none_app _ t Ho Hlen), (IH _ _ eq_refl).
Qed.

Lemma bold_at_app p t content rest :
  bold_at p = Some (content, rest) -> bold_at (p ++ t) = Some (content, rest ++ t).
Proof.
  unfold bold_at. destruct (opens p) as [r|] eqn:Ho; [|discriminate].
  intros H. rewrite (opens_app _ _ t Ho). now apply group_app.
Qed.

(** What comes before the leftmost match holds no match. *)
Lemma exec_before s : forall before content rest,
  exec s = Some (before, content, rest) -> exec before = None.
Proof.
  induction s as [|c s IH]; intros before content rest.
  - simpl. discriminate.
  - cbn [exec]. destruct (bold_at (c :: s)) as [[content' rest']|] eqn:Hb.
    + now intros [= <- <- <-].
    + destruct (exec s) as [[[before' content'] rest']|] eqn:He; [|discriminate].
      intros [= <- <- <-]. cbn [exec]. rewrite (IH _ _ _ eq_refl).
      destruct (bold_at (c :: before')) as [[c2 r2]|] eqn:Hb'; [|reflexivity].
      apply (bold_at_app _ ([42%N; 42%N] ++ content' ++ [42%N; 42%N] ++ rest')) in Hb'.
      apply exec_spec in He as (-> & _). simpl in Hb, Hb'. congruence.
Qed.

Lemma scan_texts fuel : forall s i t,
  length s < fuel -> In (Text t) (scan fuel s i) -> exec t = None.
Proof.
  induction fuel as [|fuel IH]; intros s i t Hlen; [lia|].
  cbn [scan]. destruct (exec s) as [[[before content] rest]|] eqn:He.
  - intros Hin. apply in_app_or in Hin as [Hin|Hin].
    + destruct before; [destruct Hin|]. destruct Hin as [[= <-]|[]].
      now apply exec_before in He.
    + destruct Hin as [Hin|Hin]; [discriminate|].
      apply exec_shorter in He. apply (IH rest (S i)); [lia|assumption].
  - destruct s; [intros []|]. intros [[= <-]|[]]. assumption.
Qed.

Lemma opens_stars rest : opens ([42%N; 42%N] ++ rest) = Some rest.
Proof. reflexivity. Qed.

Lemma group_complete content : forall rest,
  content <> [] -> plain content = true ->
  group (content ++ [42%N; 42%N] ++ rest) <> None.
Proof.
  induction content as [|c content IH]; intros rest Hne Hp; [contradiction|].
  simpl in Hp. apply andb_true_iff in Hp as [Hc Hp]. apply negb_true_iff in Hc.
  change ((c :: content) ++ [42%N; 42%N] ++ rest)
    with (c :: (content ++ [42%N; 42%N] ++ rest)).
  cbn [group]. rewrite Hc.
  destruct (opens (content ++ [42%N; 42%N] ++ rest)) eqn:Ho; [discriminate|].
  destruct content as [|d content]; [simpl in Ho; discriminate Ho|].
  specialize (IH rest ltac:(discriminate) Hp).
  destruct (group ((d :: content) ++ [42%N; 42%N] ++ rest)) as [[? ?]|]; [discriminate|].
  contradiction.
Qed.

Lemma exec_complete before : forall s, bold_at s <> None -> exec (before ++ s) <> None.
Proof.
  induction before as [|c before IH]; intros s Hs.
  - simpl app. destruct s as [|c s]; [contradiction|]. cbn [exec].
    destruct (bold_at (c :: s)) as [[? ?]|]; [discriminate|contradiction].
  - change ((c :: before) ++ s) with (c :: (before ++ s)). cbn [exec].
    destruct (bold_at (c :: before ++ s)) as [[? ?]|]; [discriminate|].
    specialize (IH s Hs). destruct (exec (before ++ s)) as [[[? ?] ?]|]; [discriminate|].
    contradiction.
Qed.

Lemma formatInlineText_texts text t :
  In (Text t) (formatInlineText text) -> exec t = None.
Proof.
  unfold formatInlineText.
  destruct (scan (S (length text)) text 0) as [|seg segs] eqn:E.
  - intros [[= <-]|[]].
    destruct (scan_spec (S (length text)) text 0) as (Hsrc & _); [lia|].
    rewrite E in Hsrc. now subst text.
  - rewrite <- E. apply scan_texts. lia.
Qed.

(** X21.  [formatInlineText] leaves no marker unformatted: a text
    segment of the result never holds two asterisks, a run that is not
    empty and has no line terminator, and two asterisks again.  (If a
    text segment does read [before ** content ** rest], then [content]
    is empty or holds a line terminator.) *)
Theorem formatInlineText_complete text t before content rest :
  In (Text t) (formatInlineText text) ->
  t = before ++ [42%N; 42%N] ++ content ++ [42%N; 42%N] ++ rest ->
  content = [] \/ plain content = false.
Proof.
  intros Hin ->. apply formatInlineText_texts in Hin.
  destruct content as [|c content]; [now left|]. right.
  destruct (plain (c :: content)) eqn:Hp; [|reflexivity].
  apply (exec_complete before) in Hin; [contradiction|].
  unfold bold_at. rewrite opens_stars. now apply group_complete.
Qed.

(** ** [renderMessageContent] *)

Lemma trimmed_head b c r : trim b = b -> b = c :: r -> is_space c = false.
Proof.
  intros Ht ->. unfold trim in Ht.
  destruct (trimStart (c :: r)) as [|c' r'] eqn:E; [discriminate|].
  pose proof (trimStart_clean _ _ _ E) as Hc'.
  destruct (trimEnd_head c' r' Hc') as [r'' Hr'']. rewrite Hr'' in Ht.
  now injection Ht as <- _.
Qed.

Lemma not_newline c : is_space c = false -> (c =? 10)%N = false.
Proof.
  intros H. destruct (c =? 10)%N eqn:E; [|reflexivity].
  apply N.eqb_eq in E. subst c. discriminate.
Qed.

Lemma split_lines_head c r :
  (c =? 10)%N = false -> exists p ps, split_lines (c :: r) = (c :: p) :: ps.
Proof.
  intros H. simpl. rewrite H. destruct (split_lines r); eauto.
Qed.

Lemma split_blocks_head c r :
  (c =? 10)%N = false -> exists p ps, split_blocks (c :: r) = (c :: p) :: ps.
Proof.
  intros H. unfold split_blocks. simpl. rewrite H.
  destruct (split_blocks_from InPiece r); simpl; eauto.
Qed.

Lemma trim_head c p : is_space c = false -> exists r, trim (c :: p) = c :: r.
Proof.
  intros H. unfold trim. rewrite (trimStart_id _ _ H). now apply trimEnd_head.
Qed.

Lemma trimmed_pieces_head c p ps :
  is_space c = false -> trimmed_pieces ((c :: p) :: ps) <> [].
Proof.
  intros H. unfold trimmed_pieces. simpl.
  destruct (trim_head c p H) as [r ->]. discriminate.
Qed.

Lemma trimmed_pieces_In x pieces :
  In x (trimmed_pieces pieces) -> x <> [] /\ trim x = x.
Proof.
  unfold trimmed_pieces. intros H. apply List.filter_In in H as [H Hne].
  apply in_map_iff in H as (y & <- & _). split; [|apply trim_trim].
  intros E. rewrite E in Hne. discriminate.
Qed.

(** A block that is trimmed and not empty has a line. *)
Lemma lines_nonempty b :
  b <> [] -> trim b = b -> trimmed_pieces (split_lines b) <> [].
Proof.
  intros Hne Ht. destruct b as [|c r]; [contradiction|].
  pose proof (trimmed_head _ _ _ Ht eq_refl) as Hc.
  destruct (split_lines_head c r (not_newline _ Hc)) as (p & ps & ->).
  now apply trimmed_pieces_head.
Qed.

Lemma blocks_nonempty t :
  t <> [] -> trim t = t -> trimmed_pieces (split_blocks t) <> [].
Proof.
  intros Hne Ht. destruct t as [|c r]; [contradiction|].
  pose proof (trimmed_head _ _ _ Ht eq_refl) as Hc.
  destruct (split_blocks_head c r (not_newline _ Hc)) as (p & ps & ->).
  now apply trimmed_pieces_head.
Qed.

Lemma trimEnd_tail c r : trimEnd (c :: r) = c :: r -> r <> [] -> trimEnd r = r.
Proof.
  simpl. destruct (trimEnd r) as [|d t] eqn:E.
  - destruct (is_space c); [discriminate|]. intros [= <-]. contradiction.
  - now intros [= <-].
Qed.

Lemma trimStart_blank s : trimStart s = [] -> trimEnd s = [].
Proof.
  induction s as [|c s IH]; [reflexivity|]. simpl.
  destruct (is_space c) eqn:Hc; [|discriminate].
  intros H. now rewrite (IH H).
Qed.

Lemma trimStart_trimmed s :
  trimEnd s = s -> s <> [] -> trimStart s <> [] /\ trimEnd (trimStart s) = trimStart s.
Proof.
  induction s as [|c s IH]; intros Ht Hne; [contradiction|].
  assert (Hs : trimStart (c :: s) <> []).
  { intros E. apply trimStart_blank in E. rewrite E in Ht. discriminate. }
  split; [assumption|]. simpl trimStart.
  destruct (is_space c) eqn:Hc; [|exact Ht].
  assert (Hs' : s <> []).
  { intros ->. simpl in Hs. rewrite Hc in Hs. contradiction. }
  apply IH; [|assumption]. apply (trimEnd_tail c); assumption.
Qed.

Lemma trimStart_trimStart s : trimStart (trimStart s) = trimStart s.
Proof.
  induction s as [|c s IH]; [reflexivity|]. simpl.
  destruct (is_space c) eqn:Hc; [exact IH|]. simpl. now rewrite Hc.
Qed.

Lemma trimEnd_of_trim s : trim s = s -> trimEnd s = s.
Proof. intros H. rewrite <- H at 1. unfold trim. now rewrite trimEnd_trimEnd. Qed.

(** The text of an item is not empty and is trimmed. *)
Lemma strip_bullet_trimmed line :
  line <> [] -> trim line = line ->
  strip_bullet line <> [] /\ trim (strip_bullet line) = strip_bullet line.
Proof.
  intros Hne Ht. unfold strip_bullet. destruct (is_item line) eqn:Hi; [|now split].
  destruct line as [|c [|d rest]]; try discriminate. simpl tl.
  pose proof (trimEnd_of_trim _ Ht) as He.
  assert (Hd : trimEnd (d :: rest) = d :: rest) by (apply (trimEnd_tail c); [exact He|discriminate]).
  destruct (trimStart_trimmed (d :: rest) Hd) as [H1 H2]; [discriminate|].
  split; [assumption|]. unfold trim. now rewrite trimStart_trimStart.
Qed.

Lemma formatInlineText_proper text :
  text <> [] -> trim text = text -> proper (formatInlineText text).
Proof.
  intros Hne Ht. unfold proper, formatInlineText.
  destruct (scan_spec (S (length text)) text 0) as (Hsrc & Hwf & _); [lia|].
  destruct (scan (S (length text)) text 0) as [|seg segs] eqn:E.
  - unfold sources in Hsrc. simpl in Hsrc. now subst text.
  - rewrite Hsrc. auto.
Qed.

Lemma render_block_rows i b :
  b <> [] -> trim b = b ->
  is_whole (render_block i b) = false /\ block_index (render_block i b) = i /\
  rows (render_block i b) <> [] /\ Forall proper (rows (render_block i b)).
Proof.
  intros Hne Ht. unfold render_block.
  pose proof (lines_nonempty b Hne Ht) as Hl.
  assert (Hall : forall l, In l (trimmed_pieces (split_lines b)) -> l <> [] /\ trim l = l)
    by (intros l; apply trimmed_pieces_In).
  destruct (trimmed_pieces (split_lines b)) as [|l ls]; [contradiction|].
  change (0 <? length (l :: ls))%nat with true. cbn [andb].
  destruct (forallb is_item (l :: ls)); cbn [is_whole block_index rows].
  - repeat split; [discriminate|].
    apply Forall_forall. intros row Hrow. apply list_elem_of_In in Hrow.
    apply in_map_iff in Hrow as (x & <- & Hx). destruct (Hall x Hx) as [Hx1 Hx2].
    destruct (strip_bullet_trimmed x Hx1 Hx2). now apply formatInlineText_proper.
  - repeat split; [discriminate|].
    apply Forall_forall. intros row Hrow. apply list_elem_of_In in Hrow.
    apply in_map_iff in Hrow as (x & <- & Hx). destruct (Hall x Hx) as [Hx1 Hx2].
    now apply formatInlineText_proper.
Qed.

Lemma render_blocks_rows blocks : forall i,
  Forall (fun b => b <> [] /\ trim b = b) blocks ->
  List.map block_index (render_blocks i blocks) = seq i (length blocks) /\
  Forall (fun b => is_whole b = false /\ rows b <> [] /\ Forall proper (rows b))
         (render_blocks i blocks).
Proof.
  induction blocks as [|b blocks IH]; intros i H; simpl.
  - split; [reflexivity|apply Forall_nil_2].
  - apply Forall_cons in H as [[Hne Ht] H].
    destruct (render_block_rows i b Hne Ht) as (Hw & Hi & Hr & Hp).
    destruct (IH (S i) H) as [Hidx Hall].
    split; [now rewrite Hi, Hidx|]. now apply Forall_cons_2.
Qed.

(** X22.  [renderMessageContent] gives [null] exactly for a content
    that is blank.  Otherwise the content, trimmed, always splits into
    at least one block (the fallback to the whole content is never
    used), there is one element per block, numbered 0, 1, 2, ..., and
    none of them is the paragraph of the last [return], which is never
    reached: every element is a list or a paragraph with at least one
    row, and every row stands for a text that is not empty and is
    trimmed, and is formatted as [formatInlineText] does. *)
Theorem renderMessageContent_blocks content :
  match renderMessageContent content with
  | None => trim content = []
  | Some blocks =>
      trim content <> [] /\
      trimmed_pieces (split_blocks (trim content)) <> [] /\
      length blocks = length (trimmed_pieces (split_blocks (trim content))) /\
      blocks <> [] /\
      List.map block_index blocks = seq 0 (length blocks) /\
      Forall (fun b => is_whole b = false /\ rows b <> [] /\ Forall proper (rows b)) blocks
  end.
Proof.
  unfold renderMessageContent.
  destruct (trim content) as [|c t] eqn:E; [reflexivity|]. cbn [nonempty negb].
  assert (Ht : trim (c :: t) = c :: t) by (rewrite <- E; apply trim_trim).
  pose proof (blocks_nonempty (c :: t) ltac:(discriminate) Ht) as Hb.
  assert (Hall : Forall (fun b => b <> [] /\ trim b = b) (trimmed_pieces (split_blocks (c :: t)))).
  { apply Forall_forall. intros b Hin. apply list_elem_of_In in Hin.
    now apply trimmed_pieces_In in Hin. }
  destruct (trimmed_pieces (split_blocks (c :: t))) as [|b bs] eqn:Eb; [contradiction|].
  change (0 <? length (b :: bs))%nat with true. cbn iota.
  destruct (render_blocks_rows (b :: bs) 0 Hall) as [Hidx Hrows].
  assert (Hlen : length (render_blocks 0 (b :: bs)) = length (b :: bs)).
  { rewrite <- (length_map block_index), Hidx. apply length_seq. }
  repeat split; try discriminate; auto.
  now rewrite Hlen.
Qed.

(** ** The page and the chat route *)

Section AskingFacts.
Context {W : Type} `{mdl : !Model W}.
Variable cenv : ChatEnv.

Lemma routeType_cases param : routeType param = u "grad" \/ routeType param = u "undergrad".
Proof. unfold routeType. destruct (ueqb _ _); auto. Qed.

(** X23.  The chat route never refuses a question of the page.  For
    the body that [handleSubmit] sends (a text that is not blank, its
    type normalized to [grad] or [undergrad]), and a [toLowerCase] that
    leaves these two words as they are: the route reads the trimmed text
    as the message and the normalized type as the type; it never answers
    400; without a store for that type it answers the configuration
    error; with one, it calls the model with the trimmed text, that
    store and the instruction of that type. *)
Theorem page_question_served input loading param body w :
  chat_request input loading param = Some body ->
  toLowerCase (u "grad") = u "grad" ->
  toLowerCase (u "undergrad") = u "undergrad" ->
  let r := POST cenv (Some body) w in
  let type := routeType param in
  message_of body = Returned (trim input) /\
  trim input <> [] /\
  type_of body = Returned type /\
  (forall resp, outcome r = Returned resp -> status resp <> 400) /\
  (store_for cenv type = [] ->
   r = mkRun (Returned (mkResponse (BodyError MSG_NO_STORE) 500)) w []) /\
  (store_for cenv type <> [] ->
   exists reply rest,
     events r =
       EvGenerateContent
         (mkParameters "gemini-2.5-flash" (trim input) (instruction_for type)
                       [store_for cenv type]) reply :: rest).
Proof.
  intros Hreq Hgrad Hug r ty. unfold chat_request in Hreq.
  destruct (nonempty (trim input)) eqn:Hne; [|discriminate].
  destruct loading; [discriminate|]. injection Hreq as <-.
  assert (Hin : trim input <> []) by (intros E; rewrite E in Hne; discriminate).
  assert (Hmsg : message_of (VObject [("message", VString (trim input));
                                      ("type", VString (routeType param))]) =
                 Returned (trim input)).
  { unfold message_of, or_else. simpl. rewrite Hne. simpl. now rewrite trim_trim. }
  assert (Htype : type_of (VObject [("message", VString (trim input));
                                    ("type", VString (routeType param))]) =
                  Returned ty).
  { unfold type_of, or_else, ty. simpl.
    destruct (routeType_cases param) as [-> | ->]; simpl; now rewrite ?Hgrad, ?Hug. }
  split; [assumption|]. split; [assumption|]. split; [assumption|].
  subst r. rewrite chat_POST_run. unfold payload. simpl default.
  rewrite Hmsg, Htype, Hne. cbn [negb].
  destruct (nonempty (store_for cenv ty)) eqn:Hs; cbn [negb].
  - split; [|split].
    + intros resp. destruct (svc_generateContent w _) as [[response|e] w'];
        [|intros [= <-]; discriminate].
      destruct (text_of response) as [x|e]; [|intros [= <-]; discriminate].
      destruct (negb (truthy x)); [intros [= <-]; discriminate|].
      destruct (extractCitationsFromResponse response 4); intros [= <-]; discriminate.
    + intros E. rewrite E in Hs. discriminate.
    + intros _. cbv zeta.
      destruct (svc_generateContent w _) as [[response|e] w']; [|eauto].
      destruct (text_of response) as [x|e]; [|eauto].
      destruct (negb (truthy x)); [eauto|].
      destruct (extractCitationsFromResponse response 4); eauto.
  - split; [|split].
    + intros resp [= <-]. discriminate.
    + reflexivity.
    + intros H. destruct (store_for cenv ty); [contradiction|discriminate].
Qed.
End AskingFacts.
End PageFacts.

(** ** Renderings *)

Module PageRuns.
Import Chat ChatRef Page PageFacts.

(** A line with one bold run. *)
Example bold_run :
  formatInlineText (u "Fee: **PKR 500** per term") =
  [Text (u "Fee: "); Strong 0 (u "PKR 500"); Text (u " per term")].
Proof. vm_compute. reflexivity. Qed.

Lemma formatInlineText_roundtrip_witness :
  let segments := formatInlineText (u "Fee: **PKR 500** per term") in
  sources segments = u "Fee: **PKR 500** per term" /\
  segments <> [] /\
  Forall well_formed segments /\
  bold_indices segments = seq 0 (length (bold_indices segments)).
Proof.
  destruct (formatInlineText_roundtrip (u "Fee: **PKR 500** per term")) as (H1 & H2 & H3 & H4).
  split; [exact H1|]. split; [exact H2|]. split; [|exact H4].
  apply H3. discriminate.
Defined.

(** Four asterisks hold no bold run: the group would be empty. *)
Lemma formatInlineText_complete_witness :
  @nil N = [] \/ plain [] = false.
Proof.
  apply (formatInlineText_complete (u "****") (u "****") [] [] []).
  - vm_compute. now left.
  - reflexivity.
Defined.

(** A message with a paragraph of two lines and a list of two items. *)
Example paragraph_and_list :
  renderMessageContent
    (u " You need:" ++ [10%N] ++ u "two things" ++ [10%N; 10%N; 10%N] ++
     u "- a **form**" ++ [10%N] ++ u "* a fee ") =
  Some [Paragraph 0 [[Text (u "You need:")]; [Text (u "two things")]];
        Bullets 1 [[Text (u "a "); Strong 0 (u "form")]; [Text (u "a fee")]]].
Proof. vm_compute. reflexivity. Qed.

(** A question asked on the graduate page. *)
Lemma page_question_served_witness :
  let body := VObject [("message", VString (u "What are the fees?"));
                       ("type", VString (u "grad"))] in
  let r := POST stores (Some body) [Returned FEES] in
  message_of body = Returned (trim (u " What are the fees? ")) /\
  trim (u " What are the fees? ") <> [] /\
  type_of body = Returned (routeType (Some (u "GRAD"))) /\
  status (mkResponse (BodyAnswer (VString (u "Fees are listed in the policy."))
                                 [TUITION; HOSTEL]) 200) <> 400 /\
  exists reply rest, events r = EvGenerateContent ASKED reply :: rest.
Proof.
  intros body r.
  destruct (page_question_served stores (u " What are the fees? ") false
              (Some (u "GRAD")) body [Returned FEES])
    as (H1 & H2 & H3 & H4 & _ & H6); [reflexivity|reflexivity|reflexivity|].
  split; [exact H1|]. split; [exact H2|]. split; [exact H3|]. split.
  - apply H4. vm_compute. reflexivity.
  - apply H6. discriminate.
Defined.
End PageRuns.

(** * Properties of the feedback the page submits *)

Module FormFacts.
Import Form.

(** ** The question before the answer *)

Lemma find_split p (l : list ChatMessage) x :
  List.find p l = Some x ->
  exists pre post, l = pre ++ x :: post /\ p x = true /\ forallb (fun m => negb (p m)) pre = true.
Proof.
  induction l as [|m l IH]; simpl; [discriminate|].
  destruct (p m) eqn:Hm.
  - intros [= <-]. now exists [], l.
  - intros H. destruct (IH H) as (pre & post & -> & Hx & Hpre).
    exists (m :: pre), post. simpl. now rewrite Hm.
Qed.

Lemma find_none p (l : list ChatMessage) :
  List.find p l = None -> forallb (fun m => negb (p m)) l = true.
Proof.
  induction l as [|m l IH]; simpl; [reflexivity|].
  destruct (p m); [discriminate|]. exact IH.
Qed.

Lemma findIndex_split p pre x post :
  p x = true -> forallb (fun m => negb (p m)) pre = true ->
  findIndex p (pre ++ x :: post) = Some (length pre).
Proof.
  intros Hx. induction pre as [|m pre IH]; simpl; [now rewrite Hx|].
  intros H. apply andb_true_iff in H as [Hm H]. apply negb_true_iff in Hm.
  now rewrite Hm, (IH H).
Qed.

Lemma forallb_rev {A} (f : A -> bool) l : forallb f (rev l) = forallb f l.
Proof.
  induction l as [|a l IH]; [reflexivity|]. simpl.
  rewrite forallb_app, IH. simpl. rewrite andb_true_r. apply andb_comm.
Qed.

(** X25.  The question sent with a rating is the nearest one before
    the rated message: when [lastUserMessage] finds a message, the
    conversation reads [pre ++ question :: between ++ target :: post],
    where [target] is the first message with the given id, [question] is
    a message of the user, and [between] holds no message of the user;
    when it finds none although the target is there, no message before
    the target is of the user. *)
Theorem lastUserMessage_nearest messages messageId target :
  List.find (has_id messageId) messages = Some target ->
  match lastUserMessage messages messageId with
  | Some question =>
      exists pre between post,
        messages = pre ++ question :: between ++ target :: post /\
        is_user question = true /\
        forallb (fun m => negb (is_user m)) between = true /\
        forallb (fun m => negb (has_id messageId m)) (pre ++ question :: between) = true
  | None =>
      exists before post,
        messages = before ++ target :: post /\
        forallb (fun m => negb (is_user m)) before = true /\
        forallb (fun m => negb (has_id messageId m)) before = true
  end.
Proof.
  intros Hfind. apply find_split in Hfind as (before & post & -> & Ht & Hbefore).
  unfold lastUserMessage. rewrite (findIndex_split _ _ _ _ Ht Hbefore).
  rewrite firstn_app, Nat.sub_diag, firstn_all. simpl firstn. rewrite app_nil_r.
  destruct (List.find is_user (rev before)) as [question|] eqn:Hq.
  - apply find_split in Hq as (a & b & Hrev & Hu & Ha).
    assert (Hb : before = rev b ++ question :: rev a).
    { rewrite <- (rev_involutive before), Hrev, rev_app_distr. simpl.
      now rewrite <- app_assoc. }
    exists (rev b), (rev a), post. subst before.
    repeat split; auto.
    + now rewrite <- app_assoc.
    + now rewrite forallb_rev.
  - exists before, post. repeat split; auto.
    rewrite <- forallb_rev. now apply find_none.
Qed.

(** ** From the page to the sheet *)

Section SendingFacts.
Context `{rt : JsRuntime} {W : Type} `{svc : !Service W}.
Variable penv : ProcessEnv.

Lemma str_or_empty x : str_or x "" = x.
Proof. now destruct x. Qed.

Lemma or_empty_toString_string x : or_empty_toString (Some (JString x)) = Returned x.
Proof. now destruct x. Qed.

(** What the route reads in a body of the page. *)
Lemma feedback_request_columns messages messageId feedbackType comment sessionId
    routeType now p :
  feedback_request messages messageId feedbackType comment sessionId routeType now = Some p ->
  exists target,
    List.find (has_id messageId) messages = Some target /\
    feedback target = None /\
    convertible p = true /\
    feedbackType_of p = status_name feedbackType /\
    providedTimestamp_of p = trim (toISOString now) /\
    forall t, List.map snd (columns (toISOString t) p) =
              stored_row messages messageId target feedbackType comment sessionId routeType t.
Proof.
  unfold feedback_request.
  destruct (List.find (has_id messageId) messages) as [target|]; [|discriminate].
  destruct (feedback target) eqn:Hfb; [discriminate|].
  intros [= <-]. exists target.
  unfold convertible, converted, columns, stored_row, feedbackType_of, userComment_of,
    lastQuestion_of, lastResponse_of, sessionId_of, typeLabel_of, providedTimestamp_of,
    fullConversation_of.
  cbn [field assoc String.eqb Ascii.eqb Bool.eqb List.map snd forallb isArray default].
  assert (Hty : js_or (Some (JString (friendlyTypeName routeType)))
                  (Some (JString (route_name routeType)))
                = Some (JString (friendlyTypeName routeType))) by now destruct routeType.
  rewrite Hty, !or_empty_toString_string, str_or_empty. cbn [text is_returned andb].
  repeat split; auto.
  - now destruct feedbackType.
  - intros t. f_equal. f_equal; [now destruct feedbackType|].
    do 5 f_equal. now destruct routeType.
Qed.

(** X24.  A rating sent by the page is stored as the page means it.
    For the body [sendFeedback] sends, with a time stamp that is not
    blank and has no space around it: the route does not answer 400;
    every append it tries has the single row of the time of the page,
    the rating, the comment (or the empty string), the nearest question
    before the rated message, the rated message, the serialised
    conversation, the session and the friendly name of the route type;
    and an answer 200 means that this row was accepted. *)
Theorem page_feedback_stored messages messageId feedbackType comment sessionId
    routeType now p s :
  feedback_request messages messageId feedbackType comment sessionId routeType now = Some p ->
  nonempty (toISOString now) = true ->
  trim (toISOString now) = toISOString now ->
  let r := POST penv (Some p) s in
  exists target,
    let row := stored_row messages messageId target feedbackType comment sessionId
                 routeType now in
    List.find (has_id messageId) messages = Some target /\
    feedback target = None /\
    (forall resp, outcome r = Returned resp -> status resp <> 400) /\
    (forall id range rows x, In (EvValuesAppend id range rows x) (events r) ->
                             range = RANGE penv /\ rows = [row]) /\
    (forall resp, outcome r = Returned resp -> status resp = 200 ->
       exists id, In (EvValuesAppend id (RANGE penv) [row] (Returned tt)) (events r)).
Proof.
  intros Hreq Hne Htrim r.
  destruct (feedback_request_columns _ _ _ _ _ _ _ _ Hreq)
    as (target & Hfind & Hfb & Hconv & Hft & Hts & Hrow).
  exists target. intros row. split; [exact Hfind|]. split; [exact Hfb|].
  assert (Hvalid : is_feedback_type (feedbackType_of p) = true)
    by (rewrite Hft; now destruct feedbackType).
  split; [|split].
  - intros resp Hout.
    destruct (POST_runs penv (Some p) s) as [[_ H]|[H|H]]; fold r in H.
    + simpl in H. congruence.
    + destruct H as (c & id & pre & d & row' & Hok & _). rewrite Hok in Hout.
      injection Hout as <-. discriminate.
    + destruct H as (e & Hfail & _). rewrite Hfail in Hout.
      injection Hout as <-. discriminate.
  - intros id range rows x Hin.
    assert (Hin' : In (EvValuesAppend id range rows x) (List.filter is_append (events r)))
      by (apply filter_In; now split).
    destruct (POST_appends penv s p) as [[Hno _]|(t & id' & x' & Hev & Hsrc & _)];
      fold r in Hno || fold r in Hev.
    + rewrite Hno in Hin'. destruct Hin'.
    + rewrite Hev in Hin'. destruct Hin' as [Heq|[]].
      unfold timestamp_source in Hsrc. rewrite Hts, Htrim, Hne, toISOString_parses in Hsrc.
      injection Hsrc as <-. injection Heq as <- <- <- <-.
      split; [reflexivity|]. subst row. now rewrite <- Hrow.
  - intros resp Hout H200.
    destruct (POST_appends penv s p) as [[_ Hno]|(t & id' & x' & Hev & Hsrc & _ & _ & Hok)];
      fold r in Hno || fold r in Hev.
    + now destruct (Hno _ Hout).
    + fold r in Hok. destruct (Hok _ Hout H200) as [-> _].
      unfold timestamp_source in Hsrc. rewrite Hts, Htrim, Hne, toISOString_parses in Hsrc.
      injection Hsrc as <-. exists id'.
      assert (Hin : In (EvValuesAppend id' (RANGE penv) [List.map snd (columns (toISOString now) p)]
                          (Returned tt)) (List.filter is_append (events r)))
        by (rewrite Hev; now left).
      apply filter_In in Hin as [Hin _]. subst row. now rewrite <- Hrow.
Qed.
End SendingFacts.
End FormFacts.

(** * Runs of the feedback form *)

Module FormRuns.
Import Ref Cases Form FormFacts FormRef.

(** The second answer is rated: its question is the second one, not the
    first. *)
Lemma lastUserMessage_nearest_witness :
  List.find (has_id 21) TALK = Some A2 /\
  exists pre between post,
    TALK = pre ++ Q2 :: between ++ A2 :: post /\
    is_user Q2 = true /\
    forallb (fun m => negb (is_user m)) between = true /\
    forallb (fun m => negb (has_id 21 m)) (pre ++ Q2 :: between) = true.
Proof.
  split; [reflexivity|]. exact (lastUserMessage_nearest TALK 21 A2 eq_refl).
Defined.

(** The greeting has no question before it. *)
Example greeting_has_no_question : lastQuestion TALK 1 = "".
Proof. reflexivity. Qed.

(** The rating of the second answer, sent to a process that starts
    cold. *)
Lemma page_feedback_stored_witness :
  let r := POST pe0 (Some RATING) s_cold in
  let row := ["6"; "negative"; "too vague"; "hostel?"; "...";
              JSON_stringify (JArray (List.map conversation_item TALK)); "sess_1";
              "Undergraduate Admissions"] in
  feedback_request TALK 21 negative (Some "too vague") "sess_1" undergrad 6 = Some RATING /\
  nonempty (@toISOString runtime 6) = true /\
  trim (@toISOString runtime 6) = @toISOString runtime 6 /\
  exists target,
    List.find (has_id 21) TALK = Some target /\
    feedback target = None /\
    (forall resp, outcome r = Returned resp -> status resp <> 400) /\
    (forall id range rows x, In (EvValuesAppend id range rows x) (events r) ->
                             range = RANGE pe0 /\ rows = [row]) /\
    (forall resp, outcome r = Returned resp -> status resp = 200 ->
       exists id, In (EvValuesAppend id (RANGE pe0) [row] (Returned tt)) (events r)).
Proof.
  intros r row. split; [reflexivity|]. split; [reflexivity|]. split; [reflexivity|].
  destruct (page_feedback_stored (rt := runtime) pe0 TALK 21 negative (Some "too vague") "sess_1" undergrad
              6 RATING s_cold eq_refl eq_refl eq_refl)
    as (target & Hfind & H).
  exists target. split; [exact Hfind|].
  injection Hfind as <-. exact H.
Defined.

(** That request is answered 200. *)
Example rating_accepted : outcome (POST pe0 (Some RATING) s_cold) = Returned OK.
Proof. vm_compute. reflexivity. Qed.
End FormRuns.
